(** * WebBotTele: session/mode state machine and geodesy calculator

    A shallow embedding of the parts of the Telegram bot backend that carry
    its invariants:

    - [LocationService] (apps/backend/src/telegram/features/location.service.ts):
      the two-point measurement workflow, the haversine distance, the travel
      time estimate and the text formatting of both;
    - [GeotagsService] (.../features/geotags.service.ts): the per-user state
      map with its timestamp and the sweep [cleanupExpiredStates], the
      commands of the mode (photos, locations, the sticky location, the
      custom time) and [parseCustomDate];
    - [ModeManager] (.cline/workflows/web-admin-development.md,
      shared/utils/mode-manager.ts and the classes built on it):
      one mode per user, cleanup on a switch, the inactivity sweep, the
      handlers, the guarded transition and the decorator [requireMode];
    - [KmlService] (.../features/kml.service.ts): points, lines and the
      generated KML document.

    Conventions of the embedding.

    - A JavaScript [number] is modelled by a real number ([R]).  The
      quotients and the product of the travel time and of the kilometres
      are rounded to the nearest double ([Binary64.round]), as the source
      computes them.  [Math.sin], [Math.cos] and [Math.atan2] are left to the
      implementation by ECMAScript; the haversine distance is modelled in
      exact arithmetic, with [sin], [cos], [sqrt], [atan] and [PI], and the
      theorems about it state the margin within which the doubles follow it
      and the side condition that keeps the code away from NaN (a square
      root of a negative number, reached by rounding for points that are
      nearly antipodal).  The numbers a function is handed as they come,
      the coordinates of the KML service and the arguments of
      [formatDistance] and [formatDuration], are [number]s: a real number,
      an infinity or NaN.
    - [Date.now()] is an argument [now : Z] (milliseconds) of every operation
      that reads the clock; one operation sees one reading.
    - A [Map] whose iteration order cannot be observed is a [gmap]; the map of
      the mode manager, whose sweep emits events in iteration order, is an
      association list in insertion order.
    - The objects held in a map are mutated in place by the source; the model
      writes the mutated record back under the same key.  One user's events
      are handled one after the other (the source runs on a single-threaded
      event loop); interleavings at an [await] are not modelled.
    - An [async] function returns a [Promise]: [Resolved v] or [Rejected e].
    - Calls to [logger] only write to the log and are left out.
    - A [Date] is its time value (an integer number of milliseconds); the
      functions of [Date] follow the definitions of ECMAScript, for a time
      zone with one fixed offset from UTC.
    - A string is a sequence of bytes (UTF-8); the characters the code tests
      for (digits, separators, the five XML characters, the letters of
      "reset") are ASCII, so the tests agree with those of the source on
      UTF-16 code units; [trim] takes off the white space of ECMAScript,
      each character by its bytes. *)

From Stdlib Require Import Reals Lra Lia ZArith Psatz Ascii.
From stdpp Require Import base strings gmap pretty list functions.

Local Open Scope Z_scope.

(** ** JavaScript values shared by the services *)

Definition Error := string.

Inductive Promise (A : Type) : Type :=
| Resolved (value : A)
| Rejected (reason : Error).
Arguments Resolved {A} value.
Arguments Rejected {A} reason.

(** The double quote character, for the messages that quote a name. *)
Definition dquote : string := String (Ascii.ascii_of_nat 34) EmptyString.

(** [x || fallback] on an optional string: [undefined], [null] and the empty
    string are falsy. *)
Definition truthy (s : option string) : option string :=
  match s with
  | Some EmptyString => None
  | other => other
  end.

Definition js_or (s : option string) (fallback : string) : string :=
  default fallback (truthy s).

(** [`${n}`] for a number: the shortest decimal string that reads back as the
    same double.  It has no counterpart on real numbers and is a parameter of
    the embedding. *)
Class JsNumberPrinter := Number_toString : R → string.

(** [`${s}`] for an optional string. *)
Definition String_of_optional (s : option string) : string :=
  default "undefined" s.

(** [Math.round(x)]: the integer nearest to [x], ties towards +infinity.
    [Math.floor(x)]: the largest integer not above [x].  An integer-valued
    number below 1e21 prints as its decimal digits, [pretty] on [Z]. *)
Definition Math_round (x : R) : Z := Zfloor (x + / 2).
Definition Math_floor (x : R) : Z := Zfloor x.

(** [x % y] on numbers: the remainder has the sign of the dividend. *)
Definition Math_trunc (x : R) : Z :=
  if Rlt_dec x 0 then Zceil x else Zfloor x.
Definition Number_rem (x y : R) : R := (x - y * IZR (Math_trunc (x / y)))%R.

(** Left padding with zeros up to [width] characters. *)
Fixpoint zeros (n : nat) : string :=
  match n with
  | O => ""
  | S n' => "0" +:+ zeros n'
  end.

Definition pad_zeros (width : nat) (s : string) : string :=
  zeros (width - String.length s) +:+ s.

(** [x.toFixed(digits)] (ECMAScript, Number.prototype.toFixed): for
    |x| < 1e21, the integer [n] for which [n / 10^digits - |x|] is closest
    to zero, the larger one on a tie, printed with [digits] decimals. *)
Definition toFixed `{JsNumberPrinter} (digits : nat) (x : R) : string :=
  if Rle_dec 1e21 (Rabs x) then Number_toString x
  else
    let sign := if Rlt_dec x 0 then "-" else "" in
    let n := Zfloor (Rabs x * 10 ^ digits + / 2)%R in
    let scale := 10 ^ Z.of_nat digits in
    sign +:+ pretty (n `div` scale) +:+
    match digits with
    | O => ""
    | _ => "." +:+ pad_zeros digits (pretty (n `mod` scale))
    end.

(** A number as a function receives it from outside: a real number, an
    infinity or NaN.  The coordinates of the KML service are such numbers. *)
Inductive number :=
| Finite (x : R)
| PlusInfinity
| MinusInfinity
| NaN.

Coercion Finite : R >-> number.
Bind Scope R_scope with number.

(** [x < y]: false as soon as one side is NaN. *)
Definition Number_lt (x y : number) : bool :=
  match x, y with
  | Finite a, Finite b => if Rlt_dec a b then true else false
  | Finite _, PlusInfinity => true
  | MinusInfinity, Finite _ => true
  | MinusInfinity, PlusInfinity => true
  | _, _ => false
  end.

(** [x.toFixed(digits)] and [`${x}`] on these numbers. *)
Definition Number_toFixed `{JsNumberPrinter} (digits : nat) (x : number)
    : string :=
  match x with
  | Finite a => toFixed digits a
  | PlusInfinity => "Infinity"
  | MinusInfinity => "-Infinity"
  | NaN => "NaN"
  end.

Definition String_of_number `{JsNumberPrinter} (x : number) : string :=
  match x with
  | Finite a => Number_toString a
  | PlusInfinity => "Infinity"
  | MinusInfinity => "-Infinity"
  | NaN => "NaN"
  end.

(** [Math.atan2(y, x)] on real numbers (signed zeros are not modelled;
    [atan2(0, 0)] is [0] as for [+0, +0]). *)
Definition Math_atan2 (y x : R) : R :=
  if Rlt_dec 0 x then atan (y / x)
  else if Rlt_dec x 0 then
    if Rle_dec 0 y then (atan (y / x) + PI)%R else (atan (y / x) - PI)%R
  else if Rlt_dec 0 y then (PI / 2)%R
  else if Rlt_dec y 0 then (- (PI / 2))%R
  else 0%R.

(** ** IEEE 754 binary64

    A double is [m * 2^e] with [|m| < 2^53] and [e >= -1074].  The result of
    a division or a multiplication of doubles is the exact result rounded to
    the nearest double, to the one with the even significand when two are
    equally near.  (Above about 1.8e308 the result is an infinity; the
    quantities rounded below are quotients by 50, 40, 5 and 1000 and their
    product by 3.6, which stay in range.) *)

Module Binary64.
Section Binary64.
Local Open Scope R_scope.

(** The exponent of the last binary place of the doubles around [x]. *)
Definition exponent (x : R) : Z :=
  Z.max (-1074) (Zfloor (ln (Rabs x) / ln 2) - 52).

(** The integer nearest to [y], the even one of two that are equally near. *)
Definition nearestEven (y : R) : Z :=
  let below := Zfloor y in
  if Rlt_dec (y - IZR below) (/ 2) then below
  else if Rlt_dec (/ 2) (y - IZR below) then (below + 1)%Z
  else if Z.even below then below else (below + 1)%Z.

Definition round (x : R) : R :=
  if Req_dec_T x 0 then 0
  else IZR (nearestEven (x * powerRZ 2 (- exponent x)))
       * powerRZ 2 (exponent x).

(** [x / y] and [x * y] on doubles. *)
Definition div (x y : R) : R := round (x / y).
Definition mul (x y : R) : R := round (x * y).

End Binary64.
End Binary64.

(** ** location.service.ts *)

Module LocationService.

Record LocationPoint := mkLocationPoint {
  latitude : R;
  longitude : R;
  address : option string
}.

Inductive TransportMode := car | motorcycle | foot.

Record UserMeasurementState := mkUserMeasurementState {
  isActive : bool;
  firstPoint : option LocationPoint;
  secondPoint : option LocationPoint;
  timestamp : Z;
  transportMode : option TransportMode
}.

(** [userMeasurementStates]; the second map of the class, [lastMeasurements],
    is never read or written. *)
Abbreviation Store := (gmap string UserMeasurementState).

(** What the HTTP call of [getAddressFromCoordinates] can do: throw, or
    answer with a [display_name] (absent when [response.data] or the field is
    missing). *)
Inductive AxiosOutcome :=
| AxiosError (e : Error)
| AxiosResponse (display_name : option string).

Record RouteResult := mkRouteResult {
  route_firstPoint : LocationPoint;
  route_secondPoint : LocationPoint;
  route_distance : string;
  route_duration : string;
  route_transportMode : string;
  route_message : string
}.

(** The value [processLocationForMeasurement] resolves to. *)
Inductive MeasurementReply :=
| ReplyNull
| ReplyUndefined
| ReplyFirstPoint (message : string)
| ReplyMeasurementResult (result : RouteResult).

(** The steps of the workflow, read off the stored points. *)
Inductive Step := AWAITING_FIRST_POINT | AWAITING_SECOND_POINT | COMPLETE.

Definition step (state : UserMeasurementState) : Step :=
  match firstPoint state, secondPoint state with
  | None, _ => AWAITING_FIRST_POINT
  | Some _, None => AWAITING_SECOND_POINT
  | Some _, Some _ => COMPLETE
  end.

Definition initUserMeasurementState (now : Z) (telegramId : string)
    (store : Store) : Store :=
  <[telegramId := {| isActive := false; firstPoint := None;
                     secondPoint := None; timestamp := now;
                     transportMode := None |}]> store.

Definition handleLocationCommand (now : Z) (telegramId : string)
    (store : Store) : Store * Promise string :=
  (initUserMeasurementState now telegramId store,
   Resolved "🗺️ Mode Lokasi Diaktifkan

Perintah yang tersedia:
• /alamat [alamat] - Mendapatkan koordinat dari alamat
• /koordinat [lat] [long] - Mendapatkan alamat dari koordinat
• /show_map [lokasi] - Menampilkan peta lokasi
• /ukur - Mengukur jarak dan rute antara dua titik (pejalan kaki)
• /ukur_motor - Mengukur jarak dan rute untuk sepeda motor
• /ukur_mobil - Mengukur jarak dan rute untuk mobil
• /batal - Membatalkan pengukuran aktif

Anda juga dapat:
• Mengirim lokasi Telegram untuk mendapatkan koordinat dan alamat lengkap
• Mengirim koordinat (contoh: -7.6382862, 112.7372882) untuk mendapatkan lokasi dan alamat

Ketik /menu untuk kembali ke menu utama.").

(** [getAddressFromCoordinates]: the error of the HTTP call is logged and
    thrown again; an answer without a (non-empty) [display_name] is [null]. *)
Definition getAddressFromCoordinates (http : AxiosOutcome) (lat lon : R)
    : Promise (option LocationPoint) :=
  match http with
  | AxiosError e => Rejected e
  | AxiosResponse display_name =>
      match truthy display_name with
      | Some name => Resolved (Some (mkLocationPoint lat lon (Some name)))
      | None => Resolved None
      end
  end.

Definition transportText_lower (transportMode : TransportMode) : string :=
  match transportMode with
  | car => "mobil"
  | motorcycle => "sepeda motor"
  | foot => "pejalan kaki"
  end.

(** [startMeasurement]; the parameter defaults to ['foot']. *)
Definition startMeasurement (now : Z) (telegramId : string)
    (transportMode : option TransportMode) (store : Store)
    : Store * Promise string :=
  let mode := default foot transportMode in
  let store1 := initUserMeasurementState now telegramId store in
  let store2 :=
    match store1 !! telegramId with
    | Some state =>
        <[telegramId := mkUserMeasurementState true (firstPoint state)
                          (secondPoint state) (timestamp state) (Some mode)]>
          store1
    | None => store1
    end in
  (store2,
   Resolved ("📏 Pengukuran Jarak dan Rute (Mode: " +:+ transportText_lower mode +:+ ")

Silakan kirim titik pertama dengan salah satu cara berikut:
1. Kirim lokasi Telegram
2. Kirim koordinat (contoh: -7.257056, 112.648000)

Sesi pengukuran akan otomatis berakhir setelah 10 menit jika tidak diselesaikan.
Ketik /batal untuk membatalkan pengukuran.")).

Section Geodesy.
Local Open Scope R_scope.

(** The haversine term [a] of [calculateDistance], and the distance, in
    exact arithmetic. *)
Definition haversine_a (lat1 lon1 lat2 lon2 : R) : R :=
  let φ1 := lat1 * PI / 180 in
  let φ2 := lat2 * PI / 180 in
  let Δφ := (lat2 - lat1) * PI / 180 in
  let Δλ := (lon2 - lon1) * PI / 180 in
  sin (Δφ / 2) * sin (Δφ / 2) +
  cos φ1 * cos φ2 * sin (Δλ / 2) * sin (Δλ / 2).

Definition calculateDistance (lat1 lon1 lat2 lon2 : R) : R :=
  let R := 6371e3 in
  let a := haversine_a lat1 lon1 lat2 lon2 in
  let c := 2 * Math_atan2 (sqrt a) (sqrt (1 - a)) in
  R * c.

(** The [switch] of [calculateRoute]: seconds for [distance] meters,
    [distance / 50 * 3.6] on doubles.  The literal [3.6] is the double
    nearest to 3.6. *)
Definition estimatedTime (distance : R) (transportMode : TransportMode) : R :=
  match transportMode with
  | car => Binary64.mul (Binary64.div distance 50) (Binary64.round 3.6)
  | motorcycle => Binary64.mul (Binary64.div distance 40) (Binary64.round 3.6)
  | foot => Binary64.mul (Binary64.div distance 5) (Binary64.round 3.6)
  end.

(** [formatDuration].  Each quotient is floored at once; the floor of the
    rounded quotient of a double by 60 or by 3600 is the floor of the exact
    quotient, and [%] is exact on doubles.  NaN fails both comparisons, and
    so does [Infinity], whose remainder is NaN. *)
Definition formatDuration (seconds : number) : string :=
  match seconds with
  | Finite seconds =>
      if Rlt_dec seconds 60 then
        pretty (Math_round seconds) +:+ " detik"
      else if Rlt_dec seconds 3600 then
        pretty (Math_floor (seconds / 60)) +:+ " menit"
      else
        let hours := Math_floor (seconds / 3600) in
        let minutes := Math_floor (Number_rem seconds 3600 / 60) in
        pretty hours +:+ " jam " +:+ pretty minutes +:+ " menit"
  | MinusInfinity => "-Infinity detik"
  | PlusInfinity => "Infinity jam NaN menit"
  | NaN => "NaN jam NaN menit"
  end.

Context `{JsNumberPrinter}.

(** The kilometres are the double [distance / 1000]; [toFixed] prints the
    two decimals nearest to that double.  NaN fails the comparison. *)
Definition formatDistance (distance : number) : string :=
  match distance with
  | Finite distance =>
      if Rlt_dec distance 1000 then
        pretty (Math_round distance) +:+ " meter"
      else
        toFixed 2 (Binary64.div distance 1000) +:+ " kilometer"
  | MinusInfinity => "-Infinity meter"
  | PlusInfinity => "Infinity kilometer"
  | NaN => "NaN kilometer"
  end.

Definition transportText (transportMode : TransportMode) : string :=
  match transportMode with
  | car => "Mobil"
  | motorcycle => "Sepeda Motor"
  | foot => "Pejalan Kaki"
  end.

(** [calculateRoute].  The source takes the mode as a [string] and leaves the
    estimate at 0 outside the three modes; its only caller passes one of the
    three. *)
Definition calculateRoute (firstPoint secondPoint : LocationPoint)
    (transportMode : TransportMode) : RouteResult :=
  let distance :=
    calculateDistance (latitude firstPoint) (longitude firstPoint)
                      (latitude secondPoint) (longitude secondPoint) in
  let formattedDistance := formatDistance distance in
  let formattedDuration := formatDuration (estimatedTime distance transportMode) in
  let text := transportText transportMode in
  {| route_firstPoint := firstPoint;
     route_secondPoint := secondPoint;
     route_distance := formattedDistance;
     route_duration := formattedDuration;
     route_transportMode := text;
     route_message :=
       "📏 Hasil Pengukuran (Mode: " +:+ text +:+ ")

Titik Awal:
" +:+ String_of_optional (address firstPoint) +:+ "
(" +:+ Number_toString (latitude firstPoint) +:+ ", " +:+
       Number_toString (longitude firstPoint) +:+ ")

Titik Akhir:
" +:+ String_of_optional (address secondPoint) +:+ "
(" +:+ Number_toString (latitude secondPoint) +:+ ", " +:+
       Number_toString (longitude secondPoint) +:+ ")

Jarak Tempuh: " +:+ formattedDistance +:+ "
Waktu Perkiraan: " +:+ formattedDuration |}.

(** [processLocationForMeasurement].  [http] is what the reverse-geocoding
    request of this call does; it is only issued for an active measurement. *)
Definition processLocationForMeasurement (http : AxiosOutcome) (now : Z)
    (telegramId : string) (lat lon : R) (store : Store)
    : Store * Promise MeasurementReply :=
  match store !! telegramId with
  | None => (store, Resolved ReplyNull)
  | Some state =>
      if negb (isActive state) then (store, Resolved ReplyNull)
      else
        match getAddressFromCoordinates http lat lon with
        | Rejected e => (store, Rejected e)
        | Resolved addressData =>
            let addr :=
              js_or (addressData ≫= address) "Lokasi tidak diketahui" in
            let point := mkLocationPoint lat lon (Some addr) in
            match firstPoint state with
            | None =>
                (<[telegramId := mkUserMeasurementState (isActive state)
                     (Some point) (secondPoint state) now
                     (transportMode state)]> store,
                 Resolved (ReplyFirstPoint
                   ("📍 Titik pertama diterima:
" +:+ addr +:+ "
(" +:+ Number_toString lat +:+ ", " +:+ Number_toString lon +:+ ")

Silakan kirim titik kedua.")))
            | Some first =>
                match secondPoint state with
                | None =>
                    let stored :=
                      <[telegramId := mkUserMeasurementState (isActive state)
                          (Some first) (Some point) (timestamp state)
                          (transportMode state)]> store in
                    let result :=
                      calculateRoute first point
                        (default foot (transportMode state)) in
                    (initUserMeasurementState now telegramId stored,
                     Resolved (ReplyMeasurementResult result))
                | Some _ => (store, Resolved ReplyUndefined)
                end
            end
        end
  end.

End Geodesy.

Definition cancelMeasurement (now : Z) (telegramId : string) (store : Store)
    : Store * string :=
  match store !! telegramId with
  | Some state =>
      if isActive state then
        (initUserMeasurementState now telegramId store,
         "Pengukuran jarak dan rute dibatalkan.")
      else (store, "Tidak ada pengukuran aktif untuk dibatalkan.")
  | None => (store, "Tidak ada pengukuran aktif untuk dibatalkan.")
  end.

(** The state [initUserMeasurementState] stores. *)
Definition initialState (now : Z) : UserMeasurementState :=
  mkUserMeasurementState false None None now None.

(** The address used for a point: the [display_name] of the answer, or a
    fixed placeholder when the answer has none. *)
Definition resolvedAddress (display_name : option string) : string :=
  js_or display_name "Lokasi tidak diketahui".

(** The events of the location mode, and one step of the service. *)
Inductive Command :=
| HandleLocationCommand
| StartMeasurement (transportMode : option TransportMode)
| ProcessLocation (http : AxiosOutcome) (lat lon : R)
| CancelMeasurement.

Section Session.
Context `{JsNumberPrinter}.

(** The text of the reply to a first point. *)
Definition firstPointMessage (addr : string) (lat lon : R) : string :=
  "📍 Titik pertama diterima:
" +:+ addr +:+ "
(" +:+ Number_toString lat +:+ ", " +:+ Number_toString lon +:+ ")

Silakan kirim titik kedua.".

Definition run (now : Z) (telegramId : string) (cmd : Command) (store : Store)
    : Store :=
  match cmd with
  | HandleLocationCommand => (handleLocationCommand now telegramId store).1
  | StartMeasurement transportMode =>
      (startMeasurement now telegramId transportMode store).1
  | ProcessLocation http lat lon =>
      (processLocationForMeasurement http now telegramId lat lon store).1
  | CancelMeasurement => (cancelMeasurement now telegramId store).1
  end.

Definition runAll (events : list (Z * string * Command)) (store : Store)
    : Store :=
  fold_left (λ acc ev, run ev.1.1 ev.1.2 ev.2 acc) events store.

End Session.

(** Points are only held by an active measurement, the second never without
    the first being asked for again. *)
Definition pointsOnlyWhileActive (store : Store) : Prop :=
  ∀ telegramId state, store !! telegramId = Some state →
    isActive state = false → firstPoint state = None ∧ secondPoint state = None.

End LocationService.

(** ** [Date] and the string functions used by geotags.service.ts

    The time value of a [Date] is a number of milliseconds since the epoch,
    UTC; an invalid date (NaN) is [None].  The functions are those of
    ECMAScript (Date objects, "Overview of Date Objects and Definitions of
    Abstract Operations"), on integers.  The local time zone adjustment is
    taken to be one fixed offset, as in Indonesia (no daylight saving time);
    the offset and the locale-dependent printing are parameters. *)

Module JsDate.

Class Host := mkHost {
  LocalTZA : Z;
  Date_toLocaleString : Z → string
}.

Definition msPerDay : Z := 86400000.
Definition msPerHour : Z := 3600000.
Definition msPerMinute : Z := 60000.

Definition Day (t : Z) : Z := t `div` msPerDay.
Definition TimeWithinDay (t : Z) : Z := t `mod` msPerDay.

Definition DaysInYear (y : Z) : Z :=
  if decide (y `mod` 4 ≠ 0) then 365
  else if decide (y `mod` 100 ≠ 0) then 366
  else if decide (y `mod` 400 ≠ 0) then 365
  else 366.

Definition DayFromYear (y : Z) : Z :=
  365 * (y - 1970) + (y - 1969) `div` 4 - (y - 1901) `div` 100
  + (y - 1601) `div` 400.

Definition TimeFromYear (y : Z) : Z := msPerDay * DayFromYear y.

(** [YearFromTime(t)] is the largest [y] with [TimeFromYear(y) ≤ t].  It is
    computed from an estimate by the mean length of a year, corrected by one
    year where needed ([YearFromTime_largest] below shows that this is the
    year of the definition). *)
Definition YearFromTime (t : Z) : Z :=
  let y := 1970 + (Day t * 10000) `div` 3652425 in
  if decide (t < TimeFromYear y) then y - 1
  else if decide (TimeFromYear (y + 1) ≤ t) then y + 1
  else y.

Definition InLeapYear (t : Z) : Z :=
  if decide (DaysInYear (YearFromTime t) = 365) then 0 else 1.

Definition DayWithinYear (t : Z) : Z := Day t - DayFromYear (YearFromTime t).

Definition MonthFromTime (t : Z) : Z :=
  let d := DayWithinYear t in
  let leap := InLeapYear t in
  if decide (d < 31) then 0
  else if decide (d < 59 + leap) then 1
  else if decide (d < 90 + leap) then 2
  else if decide (d < 120 + leap) then 3
  else if decide (d < 151 + leap) then 4
  else if decide (d < 181 + leap) then 5
  else if decide (d < 212 + leap) then 6
  else if decide (d < 243 + leap) then 7
  else if decide (d < 273 + leap) then 8
  else if decide (d < 304 + leap) then 9
  else if decide (d < 334 + leap) then 10
  else 11.

Definition DateFromTime (t : Z) : Z :=
  let d := DayWithinYear t in
  let leap := InLeapYear t in
  match MonthFromTime t with
  | 0 => d + 1
  | 1 => d - 30
  | 2 => d - 58 - leap
  | 3 => d - 89 - leap
  | 4 => d - 119 - leap
  | 5 => d - 150 - leap
  | 6 => d - 180 - leap
  | 7 => d - 211 - leap
  | 8 => d - 242 - leap
  | 9 => d - 272 - leap
  | 10 => d - 303 - leap
  | _ => d - 333 - leap
  end.

Definition HourFromTime (t : Z) : Z := (t `div` msPerHour) `mod` 24.
Definition MinFromTime (t : Z) : Z := (t `div` msPerMinute) `mod` 60.

Definition MakeTime (hour min sec ms : Z) : Z :=
  hour * msPerHour + min * msPerMinute + sec * 1000 + ms.

(** The day within the year on which month [mn] (0 to 11) starts. *)
Definition monthStart (mn leap : Z) : Z :=
  match mn with
  | 0 => 0
  | 1 => 31
  | 2 => 59 + leap
  | 3 => 90 + leap
  | 4 => 120 + leap
  | 5 => 151 + leap
  | 6 => 181 + leap
  | 7 => 212 + leap
  | 8 => 243 + leap
  | 9 => 273 + leap
  | 10 => 304 + leap
  | _ => 334 + leap
  end.

(** [MakeDay]: the day number of the first of month [mn] of year [ym]
    ([MakeDay_first] below: the day with that year, that month and date 1),
    moved by [date - 1] days. *)
Definition MakeDay (year month date : Z) : Z :=
  let ym := year + month `div` 12 in
  let mn := month `mod` 12 in
  let leap := if decide (DaysInYear ym = 365) then 0 else 1 in
  DayFromYear ym + monthStart mn leap + date - 1.

Definition MakeDate (day time : Z) : Z := day * msPerDay + time.

Definition TimeClip (time : Z) : option Z :=
  if decide (8640000000000000 < Z.abs time) then None else Some time.

(** [new Date(year, month, date, hours, minutes)]: a year from 0 to 99 is a
    year of the twentieth century; the fields are read as local time. *)
Definition MakeFullYear (year : Z) : Z :=
  if decide (0 ≤ year ≤ 99) then 1900 + year else year.

Section Local.
Context `{Host}.

Definition LocalTime (t : Z) : Z := t + LocalTZA.
Definition UTC (t : Z) : Z := t - LocalTZA.

Definition newDate (year month date hours minutes : Z) : option Z :=
  TimeClip (UTC (MakeDate (MakeDay (MakeFullYear year) month date)
                          (MakeTime hours minutes 0 0))).

Definition getFullYear (t : Z) : Z := YearFromTime (LocalTime t).
Definition getMonth (t : Z) : Z := MonthFromTime (LocalTime t).
Definition getDate (t : Z) : Z := DateFromTime (LocalTime t).
Definition getHours (t : Z) : Z := HourFromTime (LocalTime t).
Definition getMinutes (t : Z) : Z := MinFromTime (LocalTime t).

End Local.

End JsDate.

(** [\d]: a decimal digit, and its value. *)
Definition digitValue (c : Ascii.ascii) : option Z :=
  let n := Z.of_nat (Ascii.nat_of_ascii c) in
  if decide (48 ≤ n ≤ 57) then Some (n - 48) else None.

(** [parseInt(s, 10)] on a string of decimal digits. *)
Fixpoint digitsValue (acc : Z) (digits : list Ascii.ascii) : option Z :=
  match digits with
  | [] => Some acc
  | c :: rest =>
      match digitValue c with
      | Some d => digitsValue (10 * acc + d) rest
      | None => None
      end
  end.

(** [s.toLowerCase()], on the letters A to Z. *)
Definition toLowerChar (c : Ascii.ascii) : Ascii.ascii :=
  let n := Ascii.nat_of_ascii c in
  if decide (65 ≤ n ≤ 90)%nat then Ascii.ascii_of_nat (n + 32) else c.

Fixpoint toLowerCase (s : string) : string :=
  match s with
  | EmptyString => EmptyString
  | String c rest => String (toLowerChar c) (toLowerCase rest)
  end.

(** ** geotags.service.ts: the state map and its sweep *)

Module GeotagsService.

Record UserGeotagsState := mkUserGeotagsState {
  pendingPhotoFileId : option string;
  alwaysTagLocation : option (R * R);
  isWaitingForStickyLocation : option bool;
  customDateTime : option Z;
  timestamp : Z
}.

Abbreviation Store := (gmap string UserGeotagsState).

Definition STATE_TIMEOUT : Z := 10 * 60 * 1000.

Definition initUserState (now : Z) (telegramId : string) (userStates : Store)
    : Store * UserGeotagsState :=
  let state := mkUserGeotagsState None None None None now in
  (<[telegramId := state]> userStates, state).

Definition getUserState (now : Z) (telegramId : string) (userStates : Store)
    : Store * UserGeotagsState :=
  match userStates !! telegramId with
  | Some state => (userStates, state)
  | None => initUserState now telegramId userStates
  end.

(** [cleanupExpiredStates]: the loop deletes, from the map it iterates over,
    every entry older than [STATE_TIMEOUT]; what stays is what the test of the
    loop rejects. *)
Definition expired (now : Z) (state : UserGeotagsState) : bool :=
  bool_decide (now - timestamp state > STATE_TIMEOUT).

Definition cleanupExpiredStates (now : Z) (userStates : Store) : Store :=
  filter (λ entry, expired now entry.2 = false) userStates.

(** *** The commands of the geotags mode

    [processPhotoWithGeotag] waits, picks the time stamp of the photo (the
    custom time when one is set, the clock otherwise) and logs the completed
    processing; nothing in it throws.  The model keeps the list of the
    photos processed so far beside the map. *)

Record ProcessedPhoto := mkProcessedPhoto {
  photo_telegramId : string;
  photo_fileId : string;
  photo_location : R * R;
  photo_timestamp : Z
}.

Record Service := mkService {
  userStates : Store;
  processedPhotos : list ProcessedPhoto
}.

Definition emptyService : Service := mkService ∅ [].

(** [getUserState] on the service; the object it returns is the one held in
    the map, [putUserState] is a mutation of it. *)
Definition stateOf (now : Z) (telegramId : string) (svc : Service)
    : Service * UserGeotagsState :=
  let '(store, state) := getUserState now telegramId (userStates svc) in
  (mkService store (processedPhotos svc), state).

Definition putUserState (telegramId : string) (state : UserGeotagsState)
    (svc : Service) : Service :=
  mkService (<[telegramId := state]> (userStates svc)) (processedPhotos svc).

Definition processPhotoWithGeotag (now : Z) (telegramId photoFileId : string)
    (location : R * R) (customDateTime : option Z) (svc : Service) : Service :=
  mkService (userStates svc)
    (processedPhotos svc ++
     [mkProcessedPhoto telegramId photoFileId location
        (default now customDateTime)]).

(** [if (flag)] on an optional boolean. *)
Definition isTrue (flag : option bool) : bool := default false flag.

Definition getGeotagsHelpMessage : string :=
  "📷 Mode Geotags Diaktifkan

*Mode Standar (1 Foto, 1 Lokasi):*
1. Kirim sebuah foto
2. Segera kirim lokasi Anda menggunakan fitur " +:+ dquote +:+ "Location" +:+ dquote +:+ " Telegram
   Bot akan otomatis menambahkan geotag ke foto tersebut

🔁 */alwaystag* - Mode Lokasi Menempel:
• Ketik /alwaystag untuk mengaktifkan atau menonaktifkan mode ini
• Saat mode ini pertama kali diaktifkan, bot akan meminta Anda mengirimkan satu lokasi
• Lokasi ini akan digunakan untuk semua foto yang Anda kirim selanjutnya

⏱️ */set_time {YYYY-MM-DD HH:MM}* - Atur Waktu Manual:
• Format: YYYY-MM-DD HH:MM
• Contoh: /set_time 2024-12-25 15:30
• Reset: /set_time reset

Ketik /menu untuk kembali ke menu utama.".

(** [handleGeotagsCommand]; [userFound] is whether [validateUser] returns. *)
Definition handleGeotagsCommand (userFound : bool) (now : Z)
    (telegramId : string) (svc : Service) : Service * string :=
  if userFound then
    (mkService (initUserState now telegramId (userStates svc)).1
               (processedPhotos svc),
     getGeotagsHelpMessage)
  else (svc, "Terjadi kesalahan. Silakan coba lagi nanti.").

Definition toggleAlwaysTag (now : Z) (telegramId : string) (svc : Service)
    : Service * string :=
  let '(svc1, state) := stateOf now telegramId svc in
  match alwaysTagLocation state with
  | Some _ =>
      (putUserState telegramId
         (mkUserGeotagsState (pendingPhotoFileId state) None None
            (customDateTime state) (timestamp state)) svc1,
       "📍 AlwaysTag mode NONAKTIF. Setiap foto akan memerlukan lokasi baru.")
  | None =>
      (putUserState telegramId
         (mkUserGeotagsState (pendingPhotoFileId state) None (Some true)
            (customDateTime state) (timestamp state)) svc1,
       "📍 AlwaysTag mode AKTIF.
Silakan kirim lokasi yang ingin Anda gunakan untuk beberapa foto ke depan. Untuk menonaktifkan, ketik /alwaystag lagi.")
  end.

Definition handlePhoto (now : Z) (telegramId : string) (photoFileId : string)
    (svc : Service) : Service * string :=
  let '(svc1, state) := stateOf now telegramId svc in
  match alwaysTagLocation state with
  | Some location =>
      if isTrue (isWaitingForStickyLocation state) then
        (putUserState telegramId
           (mkUserGeotagsState (Some photoFileId) (alwaysTagLocation state)
              (isWaitingForStickyLocation state) (customDateTime state)
              (timestamp state)) svc1,
         "✔️ Foto diterima. Bot sedang menunggu Anda mengirimkan lokasi untuk diatur sebagai default AlwaysTag.")
      else
        (processPhotoWithGeotag now telegramId photoFileId location
           (customDateTime state) svc1,
         "✔️ Foto diterima dan diproses dengan lokasi AlwaysTag.")
  | None =>
      (putUserState telegramId
         (mkUserGeotagsState (Some photoFileId) (alwaysTagLocation state)
            (isWaitingForStickyLocation state) (customDateTime state)
            (timestamp state)) svc1,
       if isTrue (isWaitingForStickyLocation state) then
         "✔️ Foto diterima. Bot sedang menunggu Anda mengirimkan lokasi untuk diatur sebagai default AlwaysTag."
       else "✔️ Foto diterima! Sekarang, silakan kirim lokasi Anda.")
  end.

(** The block shared by the three branches of [handleLocation]: a pending
    photo (a file id that is not the empty string) is taken out of the state
    and processed with the location. *)
Definition processPending (now : Z) (telegramId : string)
    (state : UserGeotagsState) (location : R * R) (svc : Service)
    : option (Service * UserGeotagsState) :=
  match truthy (pendingPhotoFileId state) with
  | Some photoFileId =>
      let state' :=
        mkUserGeotagsState None (alwaysTagLocation state)
          (isWaitingForStickyLocation state) (customDateTime state)
          (timestamp state) in
      Some (processPhotoWithGeotag now telegramId photoFileId location
              (customDateTime state) (putUserState telegramId state' svc),
            state')
  | None => None
  end.

(** The groups of [/^(\d{4})-(\d{2})-(\d{2}) (\d{2}):(\d{2})$/], read by
    [parseInt]: year, month, day, hours and minutes as written. *)
Definition matchCustomDate (dateString : string)
    : option (Z * Z * Z * Z * Z) :=
  match String.list_ascii_of_string dateString with
  | [y1; y2; y3; y4; s1; m1; m2; s2; d1; d2; s3; h1; h2; s4; n1; n2] =>
      if decide (s1 = "-"%char ∧ s2 = "-"%char ∧ s3 = " "%char ∧ s4 = ":"%char)
      then
        match digitsValue 0 [y1; y2; y3; y4], digitsValue 0 [m1; m2],
              digitsValue 0 [d1; d2], digitsValue 0 [h1; h2],
              digitsValue 0 [n1; n2] with
        | Some year, Some month, Some day, Some hours, Some minutes =>
            Some (year, month, day, hours, minutes)
        | _, _, _, _, _ => None
        end
      else None
  | _ => None
  end.

Section WithHost.
Context `{JsDate.Host}.

(** [parseCustomDate]: the date is built from the fields and accepted when it
    shows the same fields again.  An invalid date shows NaN in every field. *)
Definition parseCustomDate (dateString : string) : option Z :=
  match matchCustomDate dateString with
  | None => None
  | Some (year, monthWritten, day, hours, minutes) =>
      let month := monthWritten - 1 in
      match JsDate.newDate year month day hours minutes with
      | None => None
      | Some date =>
          if bool_decide (JsDate.getFullYear date = year ∧
                          JsDate.getMonth date = month ∧
                          JsDate.getDate date = day ∧
                          JsDate.getHours date = hours ∧
                          JsDate.getMinutes date = minutes)
          then Some date
          else None
      end
  end.

Definition setCustomTime (now : Z) (telegramId : string)
    (timeString : option string) (svc : Service) : Service * string :=
  let '(svc1, state) := stateOf now telegramId svc in
  match truthy timeString with
  | None =>
      (svc1,
       "Gunakan format: /set_time YYYY-MM-DD HH:MM
Contoh: /set_time 2024-01-20 10:30
Atau /set_time reset untuk menggunakan waktu saat ini.")
  | Some timeString =>
      if decide (toLowerCase timeString = "reset") then
        (putUserState telegramId
           (mkUserGeotagsState (pendingPhotoFileId state)
              (alwaysTagLocation state) (isWaitingForStickyLocation state)
              None (timestamp state)) svc1,
         "⏱️ Pengaturan waktu manual dihapus. Bot akan menggunakan waktu saat ini.")
      else
        match parseCustomDate timeString with
        | Some parsedDate =>
            (putUserState telegramId
               (mkUserGeotagsState (pendingPhotoFileId state)
                  (alwaysTagLocation state) (isWaitingForStickyLocation state)
                  (Some parsedDate) (timestamp state)) svc1,
             "⏱️ Waktu manual diatur ke: " +:+
             JsDate.Date_toLocaleString parsedDate)
        | None =>
            (svc1,
             "Format tanggal/waktu tidak valid. Gunakan YYYY-MM-DD HH:MM
Contoh: /set_time 2024-01-20 10:30")
        end
  end.

End WithHost.

Section WithPrinter.
Context `{JsNumberPrinter}.

Definition handleLocation (now : Z) (telegramId : string)
    (latitude longitude : R) (svc : Service) : Service * string :=
  let '(svc1, state) := stateOf now telegramId svc in
  let location := (latitude, longitude) in
  if isTrue (isWaitingForStickyLocation state) then
    let sticky :=
      mkUserGeotagsState (pendingPhotoFileId state) (Some location) None
        (customDateTime state) (timestamp state) in
    let svc2 := putUserState telegramId sticky svc1 in
    let response :=
      "📍 Lokasi telah diatur untuk mode AlwaysTag: " +:+ toFixed 5 latitude +:+
      ", " +:+ toFixed 5 longitude +:+
      ". Foto berikutnya akan menggunakan lokasi ini." in
    match processPending now telegramId sticky location svc2 with
    | Some (svc3, _) =>
        (svc3, response +:+ "

✔️ Foto yang tertunda telah diproses dengan lokasi ini.")
    | None => (svc2, response)
    end
  else
    match alwaysTagLocation state with
    | Some _ =>
        let sticky :=
          mkUserGeotagsState (pendingPhotoFileId state) (Some location)
            (isWaitingForStickyLocation state) (customDateTime state)
            (timestamp state) in
        let svc2 := putUserState telegramId sticky svc1 in
        let response :=
          "📍 Lokasi AlwaysTag diperbarui: " +:+ toFixed 5 latitude +:+ ", " +:+
          toFixed 5 longitude +:+ "." in
        match processPending now telegramId sticky location svc2 with
        | Some (svc3, _) =>
            (svc3, response +:+ "

✔️ Foto yang tertunda telah diproses dengan lokasi yang diperbarui.")
        | None => (svc2, response)
        end
    | None =>
        match processPending now telegramId state location svc1 with
        | Some (svc2, _) =>
            (svc2, "✔️ Foto telah diproses dengan lokasi yang diterima.")
        | None =>
            (svc1,
             "📌 Lokasi diterima. Mohon kirim foto terlebih dahulu untuk mode standar atau aktifkan /alwaystag.")
        end
    end.

End WithPrinter.

(** The events of the geotags mode, and one step of the service. *)
Inductive Command :=
| HandleGeotagsCommand (userFound : bool)
| ToggleAlwaysTag
| SetCustomTime (timeString : option string)
| HandlePhoto (photoFileId : string)
| HandleLocation (latitude longitude : R).

Section Session.
Context `{JsNumberPrinter} `{JsDate.Host}.

Definition run (now : Z) (telegramId : string) (cmd : Command) (svc : Service)
    : Service * string :=
  match cmd with
  | HandleGeotagsCommand userFound =>
      handleGeotagsCommand userFound now telegramId svc
  | ToggleAlwaysTag => toggleAlwaysTag now telegramId svc
  | SetCustomTime timeString => setCustomTime now telegramId timeString svc
  | HandlePhoto photoFileId => handlePhoto now telegramId photoFileId svc
  | HandleLocation latitude longitude =>
      handleLocation now telegramId latitude longitude svc
  end.

(** A session: events of any users at any times, one after the other. *)
Definition runAll (events : list (Z * string * Command)) (svc : Service)
    : Service :=
  fold_left (λ acc ev, (run ev.1.1 ev.1.2 ev.2 acc).1) events svc.

End Session.

(** The flag that asks for a sticky location and a stored sticky location
    exclude each other. *)
Definition stickyConsistent (state : UserGeotagsState) : Prop :=
  isTrue (isWaitingForStickyLocation state) = true →
  alwaysTagLocation state = None.

Definition statesConsistent (svc : Service) : Prop :=
  ∀ telegramId state,
    userStates svc !! telegramId = Some state → stickyConsistent state.

End GeotagsService.

(** ** A [Map] in insertion order *)

Module JsMap.
Section JsMap.
Context {K V : Type} `{EqDecision K}.

Fixpoint get (k : K) (m : list (K * V)) : option V :=
  match m with
  | [] => None
  | (k', v) :: rest => if decide (k = k') then Some v else get k rest
  end.

(** [set] keeps the position of a key that is present and appends a new one. *)
Fixpoint set (k : K) (v : V) (m : list (K * V)) : list (K * V) :=
  match m with
  | [] => [(k, v)]
  | (k', v') :: rest =>
      if decide (k = k') then (k, v) :: rest else (k', v') :: set k v rest
  end.

Fixpoint delete (k : K) (m : list (K * V)) : list (K * V) :=
  match m with
  | [] => []
  | (k', v') :: rest =>
      if decide (k = k') then rest else (k', v') :: delete k rest
  end.

End JsMap.
End JsMap.

(** ** shared/utils/mode-manager.ts and the classes built on it *)

Module ModeManager.

Inductive Mode := MENU | LOCATION | WORKBOOK | OCR | RAR | KML | GEOTAGS.

(** [BotMode]: one of the modes, or [null]. *)
Definition BotMode := option Mode.

#[export] Instance Mode_eq_dec : EqDecision Mode.
Proof. solve_decision. Defined.

Definition Mode_toString (mode : Mode) : string :=
  match mode with
  | MENU => "menu"
  | LOCATION => "location"
  | WORKBOOK => "workbook"
  | OCR => "ocr"
  | RAR => "rar"
  | KML => "kml"
  | GEOTAGS => "geotags"
  end.

Definition BotMode_toString (mode : BotMode) : string :=
  match mode with
  | Some m => Mode_toString m
  | None => "null"
  end.

Record UserModeState := mkUserModeState {
  userId : Z;
  currentMode : BotMode;
  previousMode : BotMode;
  modeStartTime : Z;
  lastActivity : Z
}.

(** The state a [FeatureModeHandler] keeps per user. *)
Record FeatureState := mkFeatureState {
  feature_userId : Z;
  feature_mode : Mode;
  startTime : Z
}.

(** What the classes do that can be observed from outside: the
    ['modeCleanup'] events of the manager, the commands and messages a
    handler passes to its feature, the texts given to the bot. *)
Inductive Event :=
| ModeCleanup (userId : Z) (mode : BotMode)
| RouteCommand (mode : Mode) (userId : Z) (command : string)
| ProcessMessage (mode : Mode) (userId : Z)
| SendMessage (chatId : Z) (text : string).

(** The manager's map, the [userStates] map of the handler registered for
    each mode, and the events so far. *)
Record World := mkWorld {
  userModes : list (Z * UserModeState);
  featureStates : Mode → gmap Z FeatureState;
  trace : list Event
}.

Definition emptyWorld : World := mkWorld [] (λ _, ∅) [].

Definition emit (e : Event) (w : World) : World :=
  mkWorld (userModes w) (featureStates w) (trace w ++ [e]).

(** [FeatureModeHandler.cleanupUserState], the listener of ['modeCleanup']
    of the handler whose [MODE_NAME] is [mode]. *)
Definition cleanupUserState (mode : Mode) (userId : Z) (w : World) : World :=
  mkWorld (userModes w)
          (<[mode := delete userId (featureStates w mode)]> (featureStates w))
          (trace w).

(** [cleanupModeState]: emits the event; the listeners run at once. *)
Definition cleanupModeState (userId : Z) (mode : BotMode) (w : World) : World :=
  let w1 := emit (ModeCleanup userId mode) w in
  match mode with
  | Some m => cleanupUserState m userId w1
  | None => w1
  end.

Definition getUserMode (userId : Z) (w : World) : BotMode :=
  JsMap.get userId (userModes w) ≫= currentMode.

Definition isUserInMode (userId : Z) (mode : BotMode) (w : World) : bool :=
  bool_decide (getUserMode userId w = mode).

Definition setUserMode (now : Z) (userId : Z) (mode : BotMode) (w : World)
    : World :=
  let currentState := JsMap.get userId (userModes w) in
  let previousMode := currentState ≫= currentMode in
  let w1 :=
    match previousMode with
    | Some _ =>
        if bool_decide (previousMode ≠ mode)
        then cleanupModeState userId previousMode w
        else w
    | None => w
    end in
  mkWorld
    (JsMap.set userId (mkUserModeState userId mode previousMode now now)
               (userModes w1))
    (featureStates w1) (trace w1).

Definition updateLastActivity (now : Z) (userId : Z) (w : World) : World :=
  match JsMap.get userId (userModes w) with
  | Some state =>
      mkWorld
        (JsMap.set userId
           (mkUserModeState (ModeManager.userId state) (currentMode state)
              (previousMode state) (modeStartTime state) now)
           (userModes w))
        (featureStates w) (trace w)
  | None => w
  end.

Definition defaultTimeoutMs : Z := 30 * 60 * 1000.

(** [cleanupInactiveSessions]: the loop visits the entries in insertion
    order; [setUserMode] overwrites the visited entry only, so the entries
    seen are those present when the loop starts.  [sweepStep] is the body of
    the loop. *)
Definition sweepStep (now timeout : Z) (acc : World)
    (entry : Z * UserModeState) : World :=
  if bool_decide (now - lastActivity entry.2 > timeout)
  then setUserMode now entry.1 None acc
  else acc.

Definition cleanupInactiveSessions (now : Z) (timeoutMs : option Z) (w : World)
    : World :=
  fold_left (sweepStep now (default defaultTimeoutMs timeoutMs))
            (userModes w) w.

(** *** Asynchronous code over the world *)

Definition Async (A : Type) : Type := World → World * Promise A.

#[export] Instance Async_ret : MRet Async := λ A a w, (w, Resolved a).

#[export] Instance Async_bind : MBind Async := λ A B k m w,
  match m w with
  | (w1, Resolved a) => k a w1
  | (w1, Rejected e) => (w1, Rejected e)
  end.

Definition try_catch {A} (body : Async A) (handler : Error → Async A)
    : Async A :=
  λ w, match body w with
       | (w1, Resolved a) => (w1, Resolved a)
       | (w1, Rejected e) => handler e w1
       end.

Definition lift (f : World → World) : Async unit := λ w, (f w, Resolved tt).

(** The bot: whether [sendMessage(chatId, text)] is delivered or throws. *)
Definition TelegramBot := Z → string → bool.

Definition sendMessage (bot : TelegramBot) (chatId : Z) (text : string)
    : Async unit :=
  λ w, if bot chatId text
       then (emit (SendMessage chatId text) w, Resolved tt)
       else (w, Rejected "sendMessage failed").

(** *** The functions exported beside the manager

    [export const { setUserMode, getUserMode, isUserInMode } = modeManager]
    takes the three methods off the instance without binding them.  The
    handlers, the decorator and the transition manager call them by these
    names.  The body of a class is strict code, so such a call runs with
    [this] undefined and throws a [TypeError] at its first access to a
    property of [this], before anything is read or written.
    ([modeManager.updateLastActivity], [modeManager.on] and
    [this.setUserMode] in the sweep are calls on the instance.) *)
Inductive Receiver := OnManager | Unbound.

Definition TypeError_undefined (property : string) : Error :=
  "TypeError: Cannot read properties of undefined (reading '" +:+ property +:+
  "')".

(** A method whose body starts by reading [this.property], called on
    [receiver]. *)
Definition method {A} (receiver : Receiver) (property : string)
    (body : World → World * A) : Async A :=
  λ w, match receiver with
       | OnManager => let '(w1, a) := body w in (w1, Resolved a)
       | Unbound => (w, Rejected (TypeError_undefined property))
       end.

Module Exports.

Definition setUserMode (now : Z) (userId : Z) (mode : BotMode) : Async unit :=
  method Unbound "userModes" (λ w, (setUserMode now userId mode w, tt)).

Definition getUserMode (userId : Z) : Async BotMode :=
  method Unbound "userModes" (λ w, (w, getUserMode userId w)).

Definition isUserInMode (userId : Z) (mode : BotMode) : Async bool :=
  method Unbound "getUserMode" (λ w, (w, isUserInMode userId mode w)).

End Exports.

(** *** ModeTransitionManager *)

Definition confirmModeSwitch (currentMode newMode : BotMode)
    (bot : TelegramBot) (chatId : Z) : Async bool :=
  sendMessage bot chatId
    ("Beralih dari mode " +:+ BotMode_toString currentMode +:+ " ke mode " +:+
     BotMode_toString newMode +:+ "...") ;;
  mret true.

Definition currentModeInfo (mode : BotMode) : string :=
  "Anda sudah berada dalam mode " +:+ BotMode_toString mode +:+ ".".

Definition sendCurrentModeInfo (mode : BotMode) (bot : TelegramBot)
    (chatId : Z) : Async unit :=
  sendMessage bot chatId (currentModeInfo mode).

(** Every case of the [switch] in [initializeMode] is empty. *)
Definition initializeMode (mode : BotMode) (userId : Z) (bot : TelegramBot)
    (chatId : Z) : Async unit :=
  mret tt.

Definition transitionToMode (now : Z) (userId : Z) (newMode : BotMode)
    (bot : TelegramBot) (chatId : Z) : Async bool :=
  try_catch
    (currentMode ← Exports.getUserMode userId;
     if bool_decide (currentMode = newMode) then
       sendCurrentModeInfo newMode bot chatId ;;
       mret true
     else
       confirmed ←
         (match currentMode with
          | Some m =>
              if bool_decide (m ≠ MENU)
              then confirmModeSwitch currentMode newMode bot chatId
              else mret true
          | None => mret true
          end);
       if negb confirmed then mret false
       else
         Exports.setUserMode now userId newMode ;;
         initializeMode newMode userId bot chatId ;;
         mret true)
    (λ _,
       sendMessage bot chatId "❌ Gagal beralih mode. Silakan coba lagi." ;;
       mret false).

(** *** FeatureModeHandler, for the handler whose [MODE_NAME] is [mode] *)

Definition initializeUserState (mode : Mode) (now : Z) (userId : Z) (w : World)
    : World :=
  mkWorld (userModes w)
          (<[mode := <[userId := mkFeatureState userId mode now]>
                       (featureStates w mode)]> (featureStates w))
          (trace w).

(** [handleCommand].  [routeCommand] is abstract: the call is recorded, and
    [routeThrows] says whether the feature's code throws. *)
Definition routeCommand (mode : Mode) (userId : Z) (command : string)
    (routeThrows : bool) : Async unit :=
  λ w, let w1 := emit (RouteCommand mode userId command) w in
       if routeThrows then (w1, Rejected "routeCommand failed")
       else (w1, Resolved tt).

(** [msg.from?.id] under [!userId]: [undefined] and [0] are falsy. *)
Definition presentUserId (userId : option Z) : option Z :=
  match userId with
  | Some 0 => None
  | other => other
  end.

Definition handleCommand (mode : Mode) (now : Z) (command : string)
    (userId : option Z) (chatId : Z) (bot : TelegramBot) (routeThrows : bool)
    : Async unit :=
  match presentUserId userId with
  | None => mret tt
  | Some uid =>
      inMode ← Exports.isUserInMode uid (Some mode);
      if negb inMode then
        sendMessage bot chatId
          ("Anda harus berada dalam mode " +:+ Mode_toString mode +:+
           " untuk menggunakan perintah ini.")
      else
        lift (updateLastActivity now uid) ;;
        try_catch
          (routeCommand mode uid command routeThrows)
          (λ _, sendMessage bot chatId
                  "Terjadi kesalahan saat memproses perintah.")
  end.

(** [handleMessage]: a message outside the handler's mode is ignored.
    [processMessage] is abstract, as [routeCommand]. *)
Definition processMessage (mode : Mode) (userId : Z) (processThrows : bool)
    : Async unit :=
  λ w, let w1 := emit (ProcessMessage mode userId) w in
       if processThrows then (w1, Rejected "processMessage failed")
       else (w1, Resolved tt).

Definition handleMessage (mode : Mode) (now : Z) (userId : option Z)
    (chatId : Z) (bot : TelegramBot) (processThrows : bool) : Async unit :=
  match presentUserId userId with
  | None => mret tt
  | Some uid =>
      inMode ← Exports.isUserInMode uid (Some mode);
      if negb inMode then mret tt
      else
        lift (updateLastActivity now uid) ;;
        try_catch
          (processMessage mode uid processThrows)
          (λ _, sendMessage bot chatId
                  "Terjadi kesalahan saat memproses pesan.")
  end.

(** [enterMode].  [validateUserAccess] and [sendWelcomeMessage] are abstract:
    [access] is what the first resolves to, [welcome] the text the second
    sends. *)
Definition enterMode (mode : Mode) (now : Z) (userId : Z) (bot : TelegramBot)
    (chatId : Z) (access : Promise bool) (welcome : string) : Async unit :=
  try_catch
    (hasAccess ← (λ w, (w, access));
     if negb hasAccess then
       sendMessage bot chatId "❌ Anda tidak memiliki akses ke fitur ini."
     else
       Exports.setUserMode now userId (Some mode) ;;
       lift (initializeUserState mode now userId) ;;
       sendMessage bot chatId welcome)
    (λ _, sendMessage bot chatId
            "❌ Terjadi kesalahan. Tim teknis telah diberitahu.").

Definition isSendMessage (e : Event) : bool :=
  match e with
  | SendMessage _ _ => true
  | _ => false
  end.

(** A [Map] holds one entry per key. *)
Definition oneEntryPerUser (w : World) : Prop := NoDup (userModes w).*1.

(** *** The decorator [requireMode]

    The decorated method answers for [method] when the sender is in
    [requiredMode], and with [undefined] otherwise; the mode is read and the
    message to a sender in another mode is sent outside any [try]. *)
Definition requireMode {A} (requiredMode : BotMode) (method : Async A)
    (now : Z) (userId : option Z) (chatId : Z) (bot : TelegramBot)
    : Async (option A) :=
  match presentUserId userId with
  | None => mret None
  | Some uid =>
      currentMode ← Exports.getUserMode uid;
      if bool_decide (currentMode ≠ requiredMode) then
        sendMessage bot chatId
          ("Anda harus berada dalam mode " +:+
           BotMode_toString requiredMode +:+
           " untuk menggunakan perintah ini. " +:+
           "Ketik /" +:+ BotMode_toString requiredMode +:+
           " untuk masuk ke mode yang sesuai.") ;;
        mret None
      else
        lift (updateLastActivity now uid) ;;
        result ← method;
        mret (Some result)
  end.

(** *** Sessions of the mode system

    What the bot does with the mode system, one call after the other: a
    handler entered, a guarded transition, a command or a message given to a
    handler, the sweep. *)
Inductive Op :=
| EnterMode (mode : Mode) (userId chatId : Z) (access : Promise bool)
            (welcome : string)
| TransitionToMode (userId : Z) (newMode : BotMode) (chatId : Z)
| HandleCommand (mode : Mode) (command : string) (userId : option Z)
                (chatId : Z) (routeThrows : bool)
| HandleMessage (mode : Mode) (userId : option Z) (chatId : Z)
                (processThrows : bool)
| UpdateLastActivity (userId : Z)
| CleanupInactiveSessions (timeoutMs : option Z).

Definition runOp (now : Z) (bot : TelegramBot) (op : Op) (w : World) : World :=
  match op with
  | EnterMode mode userId chatId access welcome =>
      (enterMode mode now userId bot chatId access welcome w).1
  | TransitionToMode userId newMode chatId =>
      (transitionToMode now userId newMode bot chatId w).1
  | HandleCommand mode command userId chatId routeThrows =>
      (handleCommand mode now command userId chatId bot routeThrows w).1
  | HandleMessage mode userId chatId processThrows =>
      (handleMessage mode now userId chatId bot processThrows w).1
  | UpdateLastActivity userId => updateLastActivity now userId w
  | CleanupInactiveSessions timeoutMs => cleanupInactiveSessions now timeoutMs w
  end.

Definition runOps (ops : list (Z * TelegramBot * Op)) (w : World) : World :=
  fold_left (λ acc op, runOp op.1.1 op.1.2 op.2 acc) ops w.

(** A handler holds a state for a user only while the user is in its mode. *)
Definition featureStateOnlyInMode (w : World) : Prop :=
  ∀ mode userId state,
    featureStates w mode !! userId = Some state →
    getUserMode userId w = Some mode.

(** The users a call is about: the sender of the update it handles; the
    sweep is about every user. *)
Definition concerns (op : Op) (user : Z) : Prop :=
  match op with
  | EnterMode _ userId _ _ _ | TransitionToMode userId _ _
  | UpdateLastActivity userId => userId = user
  | HandleCommand _ _ userId _ _ | HandleMessage _ userId _ _ =>
      userId = Some user
  | CleanupInactiveSessions _ => True
  end.

(** A bot whose [sendMessage] never throws. *)
Definition delivers (bot : TelegramBot) : Prop :=
  ∀ chatId text, bot chatId text = true.

(** The events by which a command or a message reaches a feature. *)
Definition reachesFeature (e : Event) : Prop :=
  match e with
  | RouteCommand _ _ _ | ProcessMessage _ _ => True
  | _ => False
  end.

(** The notices of [transitionToMode] and [enterMode]. *)
Definition transitionFailedNotice : string :=
  "❌ Gagal beralih mode. Silakan coba lagi.".

Definition noAccessNotice : string :=
  "❌ Anda tidak memiliki akses ke fitur ini.".

Definition enterFailedNotice : string :=
  "❌ Terjadi kesalahan. Tim teknis telah diberitahu.".

End ModeManager.

(** ** kml.service.ts *)

(** [s.trim()].  A string is the list of the bytes of its UTF-8 text, and
    the white space of ECMAScript is: the characters U+0009 to U+000D and
    U+0020 (one byte each); U+00A0 (C2 A0); U+1680 (E1 9A 80); U+2000 to
    U+200A, U+2028, U+2029, U+202F (E2 80 80 to 8A, A8, A9, AF); U+205F
    (E2 81 9F); U+3000 (E3 80 80); U+FEFF (EF BB BF). *)
Definition whiteSpace2 (c d : ascii) : bool :=
  match N_of_ascii c, N_of_ascii d with
  | 194, 160 => true
  | _, _ => false
  end%N.

Definition whiteSpace3 (c d e : ascii) : bool :=
  match N_of_ascii c, N_of_ascii d, N_of_ascii e with
  | 225, 154, 128 => true
  | 226, 128, n => (128 <=? n)%N && (n <=? 138)%N
                   || (n =? 168)%N || (n =? 169)%N || (n =? 175)%N
  | 226, 129, 159 => true
  | 227, 128, 128 => true
  | 239, 187, 191 => true
  | _, _, _ => false
  end%N.

(** The white space taken off the front; [ws2] and [ws3] recognise the
    characters of two and three bytes, read in the direction of the walk. *)
Fixpoint trimWith (ws2 : ascii → ascii → bool)
    (ws3 : ascii → ascii → ascii → bool) (s : string) : string :=
  match s with
  | String c rest =>
      if Ascii.is_space c then trimWith ws2 ws3 rest
      else
        match rest with
        | String d rest2 =>
            if ws2 c d then trimWith ws2 ws3 rest2
            else
              match rest2 with
              | String e rest3 =>
                  if ws3 c d e then trimWith ws2 ws3 rest3 else s
              | EmptyString => s
              end
        | EmptyString => s
        end
  | EmptyString => EmptyString
  end.

Definition trimStart (s : string) : string := trimWith whiteSpace2 whiteSpace3 s.

Definition trimEnd (s : string) : string :=
  String.rev
    (trimWith (λ d c, whiteSpace2 c d) (λ e d c, whiteSpace3 c d e)
       (String.rev s)).

Definition trim (s : string) : string := trimEnd (trimStart s).

Definition quoted (s : string) : string := dquote +:+ s +:+ dquote.

Module KmlService.

Record GeoPoint := mkGeoPoint {
  latitude : number;
  longitude : number
}.

Record NamedPoint := mkNamedPoint {
  point_latitude : number;
  point_longitude : number;
  name : string;
  timestamp : Z
}.

Record LineTrack := mkLineTrack {
  line_name : string;
  coordinates : list GeoPoint;
  line_timestamp : Z
}.

Record ActiveLine := mkActiveLine {
  active_name : string;
  points : list GeoPoint
}.

Record UserKmlData := mkUserKmlData {
  placemarks : list NamedPoint;
  lines : list LineTrack;
  activeLine : option ActiveLine;
  persistentPointName : option string
}.

(** The two maps of the service. *)
Record Service := mkService {
  userKmlData : gmap string UserKmlData;
  nextPointNames : gmap string string
}.

Definition emptyService : Service := mkService ∅ ∅.

Definition defaultData : UserKmlData := mkUserKmlData [] [] None None.

Definition initUserKmlData (telegramId : string) (svc : Service)
    : Service * UserKmlData :=
  (mkService (<[telegramId := defaultData]> (userKmlData svc))
             (nextPointNames svc),
   defaultData).

Definition getUserKmlData (telegramId : string) (svc : Service)
    : Service * UserKmlData :=
  match userKmlData svc !! telegramId with
  | Some data => (svc, data)
  | None => initUserKmlData telegramId svc
  end.

(** The object returned by [getUserKmlData] is the one held in the map: a
    mutation of it is a write under [telegramId]. *)
Definition putUserKmlData (telegramId : string) (data : UserKmlData)
    (svc : Service) : Service :=
  mkService (<[telegramId := data]> (userKmlData svc)) (nextPointNames svc).

Definition getKmlHelpMessage : string :=
  "📍 Mode KML Diaktifkan

Perintah yang tersedia:

*Titik Individual:*
• Kirim Lokasi (via attachment) - Menambahkan titik
• /add <lat> <lon> [nama_titik] - Menambahkan titik via teks
• /addpoint <nama_titik> - Menetapkan nama untuk satu titik berikutnya
• /alwayspoint [nama_titik] - Menetapkan nama default tetap untuk titik individual

*Garis/Jalur:*
• /startline [nama_garis_opsional] - Memulai pembuatan garis
• /endline - Menyimpan garis aktif
• /cancelline - Membatalkan garis aktif

*Data & KML:*
• /mydata - Menampilkan semua data tersimpan
• /createkml - Membuat file KML
• /cleardata - Menghapus SEMUA data Anda

Ketik /menu untuk kembali ke menu utama.".

(** [handleKmlCommand]; [userFound] is whether [validateUser] returns (it
    throws when the user is unknown or the database call fails). *)
Definition handleKmlCommand (userFound : bool) (telegramId : string)
    (svc : Service) : Service * string :=
  if userFound then ((initUserKmlData telegramId svc).1, getKmlHelpMessage)
  else (svc, "Terjadi kesalahan. Silakan coba lagi nanti.").

(** [pointName && pointName.trim()]: a name with something left after
    trimming. *)
Definition nonBlank (pointName : option string) : option string :=
  match truthy pointName with
  | Some p => match trim p with EmptyString => None | _ => Some p end
  | None => None
  end.

Definition setAlwaysPoint (telegramId : string) (pointName : option string)
    (svc : Service) : Service * string :=
  let '(svc1, userData) := getUserKmlData telegramId svc in
  match nonBlank pointName with
  | Some p =>
      (putUserKmlData telegramId
         (mkUserKmlData (placemarks userData) (lines userData)
            (activeLine userData) (Some (trim p))) svc1,
       "✅ Nama default tetap untuk titik individual sekarang adalah: " +:+
       quoted p +:+ ".")
  | None =>
      let oldName := persistentPointName userData in
      (putUserKmlData telegramId
         (mkUserKmlData (placemarks userData) (lines userData)
            (activeLine userData) None) svc1,
       match truthy oldName with
       | Some old =>
           "🗑️ Nama default tetap (" +:+ quoted old +:+ ") telah dihapus."
       | None => "ℹ️ Tidak ada nama default tetap yang aktif untuk dihapus."
       end)
  end.

Definition setNextPointName (telegramId : string) (pointName : string)
    (svc : Service) : Service * string :=
  (mkService (userKmlData svc) (<[telegramId := pointName]> (nextPointNames svc)),
   "📝 Nama " +:+ quoted pointName +:+
   " akan digunakan untuk titik individual berikutnya.").

Section WithPrinter.
Context `{JsNumberPrinter}.

Definition latLonText (latitude longitude : number) (digits : nat) : string :=
  "(Lat: " +:+ Number_toFixed digits latitude +:+ ", Lon: " +:+
  Number_toFixed digits longitude +:+ ")".

(** The branch shared by [addPoint] and [handleLocation]: a point pushed on
    the active line. *)
Definition pushOnActiveLine (telegramId : string) (userData : UserKmlData)
    (line : ActiveLine) (latitude longitude : number) (svc : Service)
    : Service * string :=
  let line' :=
    mkActiveLine (active_name line)
                 (points line ++ [mkGeoPoint latitude longitude]) in
  (putUserKmlData telegramId
     (mkUserKmlData (placemarks userData) (lines userData) (Some line')
        (persistentPointName userData)) svc,
   "↪️ Titik " +:+ latLonText latitude longitude 5 +:+
   " ditambahkan ke garis " +:+ quoted (active_name line') +:+ ". Total " +:+
   pretty (length (points line')) +:+ " titik.").

(** The name of an individual point when none is given with it: the name set
    for the next point (used once), else the persistent name, else a number. *)
Definition pickPointName (telegramId : string) (userData : UserKmlData)
    (numbered : string) (svc : Service) : Service * string :=
  match truthy (nextPointNames svc !! telegramId) with
  | Some nextName =>
      (mkService (userKmlData svc) (delete telegramId (nextPointNames svc)),
       nextName)
  | None =>
      (svc,
       js_or (persistentPointName userData)
         (numbered +:+ pretty (length (placemarks userData) + 1)%nat))
  end.

Definition pushPlacemark (now : Z) (telegramId : string)
    (userData : UserKmlData) (latitude longitude : number)
    (pointName : string) (svc : Service) : Service :=
  putUserKmlData telegramId
    (mkUserKmlData
       (placemarks userData ++ [mkNamedPoint latitude longitude pointName now])
       (lines userData) (activeLine userData) (persistentPointName userData))
    svc.

(** The test of [addPoint]: one of its four comparisons holds.  Every
    comparison with NaN is false, so a NaN is not out of range. *)
Definition outOfRange (latitude longitude : number) : bool :=
  Number_lt latitude (Finite (-90)) || Number_lt (Finite 90) latitude ||
  Number_lt longitude (Finite (-180)) || Number_lt (Finite 180) longitude.

Definition addPoint (now : Z) (telegramId : string)
    (latitude longitude : number) (pointName : option string) (svc : Service)
    : Service * string :=
  let '(svc1, userData) := getUserKmlData telegramId svc in
  if outOfRange latitude longitude then
    (svc1, "Koordinat tidak valid atau di luar jangkauan.")
  else
    match activeLine userData with
    | Some line =>
        let '(svc2, message) :=
          pushOnActiveLine telegramId userData line latitude longitude svc1 in
        (svc2,
         match truthy pointName with
         | Some p =>
             message +:+ " (Nama " +:+ quoted p +:+
             " diabaikan karena sedang membuat garis)."
         | None => message
         end)
    | None =>
        let '(svc2, finalPointName) :=
          match truthy pointName with
          | Some p => (svc1, p)
          | None => pickPointName telegramId userData "Titik " svc1
          end in
        (pushPlacemark now telegramId userData latitude longitude
           finalPointName svc2,
         "📍 Titik individual " +:+ quoted finalPointName +:+ " " +:+
         latLonText latitude longitude 5 +:+ " telah disimpan!")
    end.

Definition handleLocation (now : Z) (telegramId : string)
    (latitude longitude : number) (svc : Service) : Service * string :=
  let '(svc1, userData) := getUserKmlData telegramId svc in
  match activeLine userData with
  | Some line =>
      pushOnActiveLine telegramId userData line latitude longitude svc1
  | None =>
      let '(svc2, pointName) :=
        pickPointName telegramId userData "Titik Terlampir " svc1 in
      (pushPlacemark now telegramId userData latitude longitude pointName svc2,
       "📍 Lokasi individual " +:+ quoted pointName +:+ " " +:+
       latLonText latitude longitude 5 +:+ " telah disimpan!")
  end.

End WithPrinter.

Definition startLine (telegramId : string) (lineName : option string)
    (svc : Service) : Service * string :=
  let '(svc1, userData) := getUserKmlData telegramId svc in
  match activeLine userData with
  | Some line =>
      (svc1,
       "⚠️ Anda sudah sedang membuat garis " +:+ quoted (active_name line) +:+
       ". Selesaikan atau batalkan dulu dengan /endline atau /cancelline.")
  | None =>
      let finalLineName :=
        js_or lineName ("Garis " +:+ pretty (length (lines userData) + 1)%nat) in
      (putUserKmlData telegramId
         (mkUserKmlData (placemarks userData) (lines userData)
            (Some (mkActiveLine finalLineName []))
            (persistentPointName userData)) svc1,
       "🏁 Memulai garis baru: " +:+ quoted finalLineName +:+
       ". Kirimkan lokasi untuk menambahkan titik. Gunakan /endline untuk menyimpan atau /cancelline untuk batal.")
  end.

(** The reply of [endLine] to a line of fewer than two points. *)
Definition tooFewPointsWarning (line : ActiveLine) : string :=
  "⚠️ Garis " +:+ quoted (active_name line) +:+ " memiliki " +:+
  pretty (length (points line)) +:+
  " titik. Minimal 2 titik diperlukan. Tambahkan titik lagi atau gunakan /cancelline.".

(** [endLine].  The finished line takes the array of the active line, which
    is dropped in the same call: nothing else refers to it afterwards. *)
Definition endLine (now : Z) (telegramId : string) (svc : Service)
    : Service * string :=
  let '(svc1, userData) := getUserKmlData telegramId svc in
  match activeLine userData with
  | None =>
      (svc1, "Tidak ada garis yang sedang aktif dibuat. Mulai dengan /startline.")
  | Some line =>
      if bool_decide (length (points line) < 2)%nat then
        (svc1, tooFewPointsWarning line)
      else
        let finishedLine := mkLineTrack (active_name line) (points line) now in
        (putUserKmlData telegramId
           (mkUserKmlData (placemarks userData)
              (lines userData ++ [finishedLine]) None
              (persistentPointName userData)) svc1,
         "✅ Garis " +:+ quoted (active_name line) +:+ " dengan " +:+
         pretty (length (coordinates finishedLine)) +:+
         " titik berhasil disimpan!")
  end.

Definition cancelLine (telegramId : string) (svc : Service)
    : Service * string :=
  let '(svc1, userData) := getUserKmlData telegramId svc in
  match activeLine userData with
  | None => (svc1, "Tidak ada garis yang sedang aktif untuk dibatalkan.")
  | Some line =>
      (putUserKmlData telegramId
         (mkUserKmlData (placemarks userData) (lines userData) None
            (persistentPointName userData)) svc1,
       "❌ Pembuatan garis " +:+ quoted (active_name line) +:+
       " telah dibatalkan.")
  end.

Definition clearData (telegramId : string) (svc : Service)
    : Service * string :=
  let svc1 := (initUserKmlData telegramId svc).1 in
  (mkService (userKmlData svc1) (delete telegramId (nextPointNames svc1)),
   "🗑️ Semua data KML Anda (titik, garis, sesi garis aktif, dan nama default tetap) telah dihapus.").

(** [escapeXml] *)
Definition escapeChar (c : Ascii.ascii) : string :=
  if decide (c = "<"%char) then "&lt;"
  else if decide (c = ">"%char) then "&gt;"
  else if decide (c = "&"%char) then "&amp;"
  else if decide (c = "'"%char) then "&apos;"
  else if decide (c = Ascii.ascii_of_nat 34) then "&quot;"
  else String c EmptyString.

Fixpoint escapeXml (unsafe : string) : string :=
  match unsafe with
  | EmptyString => EmptyString
  | String c rest => escapeChar c +:+ escapeXml rest
  end.

(** The characters that open or close markup and attribute values. *)
Definition markup (c : Ascii.ascii) : Prop :=
  c = "<"%char ∨ c = ">"%char ∨ c = "'"%char ∨ c = Ascii.ascii_of_nat 34.


Section Documents.
Context `{JsNumberPrinter}.

(** [getMyData] *)
Definition placemarkEntry (index : nat) (point : NamedPoint) : string :=
  pretty (index + 1)%nat +:+ ". " +:+ name point +:+ " (Lat: " +:+
  Number_toFixed 4 (point_latitude point) +:+ ", Lon: " +:+
  Number_toFixed 4 (point_longitude point) +:+ ")
".

Definition lineEntry (index : nat) (line : LineTrack) : string :=
  pretty (index + 1)%nat +:+ ". " +:+ line_name line +:+ " (" +:+
  pretty (length (coordinates line)) +:+ " titik)
".

(** [array.forEach((x, index) => { response += entry(index, x) })] *)
Definition appendEntries {A} (entry : nat → A → string) (items : list A)
    (response : string) : string :=
  (fold_left (λ acc x, (acc.1 +:+ entry acc.2 x, S acc.2)) items
             (response, O)).1.

Definition getMyData (telegramId : string) (svc : Service)
    : Service * string :=
  let '(svc1, userData) := getUserKmlData telegramId svc in
  let response0 := "📜 *Data KML Tersimpan Anda:*

" in
  let '(response1, hasData1) :=
    match truthy (persistentPointName userData) with
    | Some p =>
        (response0 +:+ "📌 Nama default tetap aktif: " +:+ dquote +:+ "*" +:+
         p +:+ "*" +:+ dquote +:+ "
   (Gunakan /alwayspoint tanpa nama untuk menghapus)

", true)
    | None => (response0, false)
    end in
  let '(response2, hasData2) :=
    match placemarks userData with
    | [] => (response1, hasData1)
    | _ =>
        (appendEntries placemarkEntry (placemarks userData)
           (response1 +:+ "📍 *Titik Individual:*
") +:+ "
", true)
    end in
  let '(response3, hasData3) :=
    match lines userData with
    | [] => (response2, hasData2)
    | _ =>
        (appendEntries lineEntry (lines userData)
           (response2 +:+ "〰️ *Garis/Jalur Tersimpan:*
") +:+ "
", true)
    end in
  let '(response4, hasData4) :=
    match activeLine userData with
    | Some line =>
        (response3 +:+ "🚧 *Garis Sedang Dibuat:*
" +:+ "• " +:+ active_name line +:+ " (" +:+
         pretty (length (points line)) +:+ " titik ditambahkan)

", true)
    | None => (response3, hasData3)
    end in
  (svc1,
   if hasData4 then response4
   else response4 +:+
        "Anda belum menyimpan data apapun atau mengatur nama default tetap.").

(** The pieces of a list of strings put one after the other. *)
Definition concatStrings (pieces : list string) : string :=
  foldr String.append "" pieces.

(** [createKmlContent] *)
Definition coordinateLine (coord : GeoPoint) : string :=
  String_of_number (longitude coord) +:+ "," +:+
  String_of_number (latitude coord) +:+ ",0
".

(** [coords.forEach(coord => { coordsString += ... })] *)
Definition coordinatesString (coords : list GeoPoint) : string :=
  fold_left (λ acc coord, acc +:+ coordinateLine coord) coords "".

Definition pointPlacemark (point : NamedPoint) : string :=
  "
    <Placemark>
      <name>" +:+ escapeXml (name point) +:+ "</name>
      <Point>
        <coordinates>" +:+ String_of_number (point_longitude point) +:+ "," +:+
  String_of_number (point_latitude point) +:+ ",0</coordinates>
      </Point>
    </Placemark>".

Definition lineStringPlacemark (title : string) (coords : list GeoPoint)
    : string :=
  "
    <Placemark>
      <name>" +:+ title +:+ "</name>
      <LineString>
        <tessellate>1</tessellate>
        <coordinates>" +:+ trim (coordinatesString coords) +:+ "</coordinates>
      </LineString>
    </Placemark>".

(** The template the document is returned in. *)
Definition kmlDocument (docName kmlPlacemarks : string) : string :=
  "<?xml version=" +:+ quoted "1.0" +:+ " encoding=" +:+ quoted "UTF-8" +:+ "?>
<kml xmlns=" +:+ quoted "http://www.opengis.net/kml/2.2" +:+ ">
  <Document>
    <name>" +:+ escapeXml docName +:+ "</name>" +:+ kmlPlacemarks +:+ "
  </Document>
</kml>".

(** The placemark of the line being drawn, when it has two points. *)
Definition activeLinePlacemark (userData : UserKmlData) : string :=
  match activeLine userData with
  | Some line =>
      if bool_decide (2 ≤ length (points line))%nat then
        lineStringPlacemark (escapeXml (active_name line) +:+ " (Sedang dibuat)")
                            (points line)
      else ""
  | None => ""
  end.

(** The placemark of a saved line. *)
Definition savedLinePlacemark (line : LineTrack) : string :=
  lineStringPlacemark (escapeXml (line_name line)) (coordinates line).

Definition createKmlContent (userData : UserKmlData) (docName : string)
    : string :=
  let kmlPlacemarks0 :=
    fold_left (λ acc point, acc +:+ pointPlacemark point)
              (placemarks userData) "" in
  let kmlPlacemarks1 :=
    fold_left
      (λ acc line,
         if bool_decide (length (coordinates line) < 2)%nat then acc
         else acc +:+ lineStringPlacemark (escapeXml (line_name line))
                        (coordinates line))
      (lines userData) kmlPlacemarks0 in
  let kmlPlacemarks2 :=
    match activeLine userData with
    | Some line =>
        if bool_decide (2 ≤ length (points line))%nat then
          kmlPlacemarks1 +:+
          lineStringPlacemark (escapeXml (active_name line) +:+ " (Sedang dibuat)")
                              (points line)
        else kmlPlacemarks1
    | None => kmlPlacemarks1
    end in
  kmlDocument docName kmlPlacemarks2.

Record KmlResult := mkKmlResult {
  success : bool;
  message : string;
  kmlContent : option string
}.

Definition createKml (telegramId : string) (docName : option string)
    (svc : Service) : Service * KmlResult :=
  let '(svc1, userData) := getUserKmlData telegramId svc in
  let hasPlacemarks := bool_decide (0 < length (placemarks userData))%nat in
  let hasLines := bool_decide (0 < length (lines userData))%nat in
  let hasActiveValidLine :=
    match activeLine userData with
    | Some line => bool_decide (2 ≤ length (points line))%nat
    | None => false
    end in
  if negb hasPlacemarks && negb hasLines && negb hasActiveValidLine then
    (svc1,
     mkKmlResult false
       "Anda belum menyimpan data (titik atau garis yang valid) untuk dibuat KML."
       None)
  else
    let finalDocName := js_or docName ("KML Data - User " +:+ telegramId) in
    (svc1,
     mkKmlResult true
       ("File KML berhasil dibuat dengan nama dokumen " +:+
        quoted finalDocName +:+ ".")
       (Some (createKmlContent userData finalDocName))).

(** The commands of the KML mode, and one step of the service. *)
Inductive Command :=
| HandleKmlCommand (userFound : bool)
| SetAlwaysPoint (pointName : option string)
| SetNextPointName (pointName : string)
| AddPoint (latitude longitude : number) (pointName : option string)
| HandleLocation (latitude longitude : number)
| StartLine (lineName : option string)
| EndLine
| CancelLine
| GetMyData
| CreateKml (docName : option string)
| ClearData.

Inductive Reply :=
| Text (message : string)
| Document (result : KmlResult).

Definition text (r : Service * string) : Service * Reply := (r.1, Text r.2).

Definition document (r : Service * KmlResult) : Service * Reply :=
  (r.1, Document r.2).

Definition run (now : Z) (telegramId : string) (cmd : Command) (svc : Service)
    : Service * Reply :=
  match cmd with
  | HandleKmlCommand userFound =>
      text (handleKmlCommand userFound telegramId svc)
  | SetAlwaysPoint pointName =>
      text (setAlwaysPoint telegramId pointName svc)
  | SetNextPointName pointName =>
      text (setNextPointName telegramId pointName svc)
  | AddPoint latitude longitude pointName =>
      text (addPoint now telegramId latitude longitude pointName svc)
  | HandleLocation latitude longitude =>
      text (handleLocation now telegramId latitude longitude svc)
  | StartLine lineName => text (startLine telegramId lineName svc)
  | EndLine => text (endLine now telegramId svc)
  | CancelLine => text (cancelLine telegramId svc)
  | GetMyData => text (getMyData telegramId svc)
  | CreateKml docName => document (createKml telegramId docName svc)
  | ClearData => text (clearData telegramId svc)
  end.

(** A session: commands of any users at any times, one after the other. *)
Definition runAll (events : list (Z * string * Command)) (svc : Service)
    : Service :=
  fold_left (λ acc ev, (run ev.1.1 ev.1.2 ev.2 acc).1) events svc.

End Documents.

(** Every finished line has at least two coordinates. *)
Definition linesValid (svc : Service) : Prop :=
  ∀ telegramId data, userKmlData svc !! telegramId = Some data →
    Forall (λ line, (2 ≤ length (coordinates line))%nat) (lines data).

(** A coordinate that none of the comparisons of [addPoint] rejects: a
    number between the bounds, or NaN.  The points, the data and the
    services all of whose stored coordinates are such. *)
Definition withinOrNaN (low high : R) (x : number) : Prop :=
  match x with
  | Finite a => (low <= a <= high)%R
  | NaN => True
  | _ => False
  end.

Definition passesRangeTest (latitude longitude : number) : Prop :=
  withinOrNaN (-90) 90 latitude ∧ withinOrNaN (-180) 180 longitude.

Definition pointsPass (coords : list GeoPoint) : Prop :=
  Forall (λ coord, passesRangeTest (latitude coord) (longitude coord)) coords.

Definition dataPasses (data : UserKmlData) : Prop :=
  Forall (λ point, passesRangeTest (point_latitude point) (point_longitude point))
         (placemarks data) ∧
  Forall (λ line, pointsPass (coordinates line)) (lines data) ∧
  ∀ line, activeLine data = Some line → pointsPass (points line).

Definition coordinatesPass (svc : Service) : Prop :=
  ∀ telegramId data, userKmlData svc !! telegramId = Some data →
    dataPasses data.

(** A command whose location, when it is a location sent as an attachment,
    is such a pair of coordinates. *)
Definition locationPasses (cmd : Command) : Prop :=
  match cmd with
  | HandleLocation latitude longitude => passesRangeTest latitude longitude
  | _ => True
  end.

End KmlService.

(** ** Reference definitions

    The formulas of the geodesy calculator as they are usually stated, to
    compare the code with. *)

Module Reference.
Section Reference.
Local Open Scope R_scope.

Definition EARTH_RADIUS : R := 6371000.

Definition radians (degrees : R) : R := degrees * PI / 180.

(** The haversine of an angle. *)
Definition hav (θ : R) : R := (1 - cos θ) / 2.

(** Great-circle distance: [d = 2 r asin (sqrt (hav Δφ + cos φ1 cos φ2 hav Δλ))]. *)
Definition haversine (lat1 lon1 lat2 lon2 : R) : R :=
  let φ1 := radians lat1 in
  let φ2 := radians lat2 in
  let λ1 := radians lon1 in
  let λ2 := radians lon2 in
  2 * EARTH_RADIUS *
  asin (sqrt (hav (φ2 - φ1) + cos φ1 * cos φ2 * hav (λ2 - λ1))).

(** The average speed of a travel profile, in km/h and in m/s. *)
Definition speedKmh (profile : LocationService.TransportMode) : R :=
  match profile with
  | LocationService.foot => 5
  | LocationService.motorcycle => 40
  | LocationService.car => 50
  end.

Definition speedMetersPerSecond (profile : LocationService.TransportMode) : R :=
  speedKmh profile * 1000 / 3600.

End Reference.
End Reference.

(** The Gregorian calendar and the notation [YYYY-MM-DD HH:MM], to compare
    [parseCustomDate] with. *)

Module Calendar.

Definition isLeapYear (year : Z) : bool :=
  bool_decide (year `mod` 4 = 0 ∧ (year `mod` 100 ≠ 0 ∨ year `mod` 400 = 0)).

(** The number of days of month [month] (1 to 12) of [year]. *)
Definition daysInMonth (year month : Z) : Z :=
  match month with
  | 2 => if isLeapYear year then 29 else 28
  | 4 | 6 | 9 | 11 => 30
  | _ => 31
  end.

Definition validDateTime (year month day hours minutes : Z) : Prop :=
  1 ≤ month ≤ 12 ∧ 1 ≤ day ≤ daysInMonth year month ∧
  0 ≤ hours ≤ 23 ∧ 0 ≤ minutes ≤ 59.

Definition digitChar (d : Z) : Ascii.ascii :=
  Ascii.ascii_of_nat (48 + Z.to_nat d).

Definition twoDigits (n : Z) : list Ascii.ascii :=
  [digitChar (n `div` 10); digitChar (n `mod` 10)].

Definition fourDigits (n : Z) : list Ascii.ascii :=
  [digitChar (n `div` 1000); digitChar ((n `div` 100) `mod` 10);
   digitChar ((n `div` 10) `mod` 10); digitChar (n `mod` 10)].

(** [YYYY-MM-DD HH:MM], every field with its leading zeros. *)
Definition formatDateTime (year month day hours minutes : Z) : string :=
  String.string_of_list_ascii
    (fourDigits year ++ ["-"%char] ++ twoDigits month ++ ["-"%char] ++
     twoDigits day ++ [" "%char] ++ twoDigits hours ++ [":"%char] ++
     twoDigits minutes).

End Calendar.

(** A host in the time zone of Jakarta (UTC+7), to run the examples. *)
Definition jakartaHost : JsDate.Host :=
  JsDate.mkHost (7 * 3600000) (λ t, pretty t).

(** A printer that shows the integer part of a number, to run the examples. *)
Definition integerPrinter : JsNumberPrinter := λ x, pretty (Zfloor x).

(** * Properties *)

(** ** Strings *)

Lemma append_assoc (a b c : string) : (a +:+ b) +:+ c = a +:+ (b +:+ c).
Proof.
  induction a as [| x a IH]; [reflexivity |].
  change (String x ((a +:+ b) +:+ c) = String x (a +:+ (b +:+ c))).
  by rewrite IH.
Qed.

Lemma append_nil_r (a : string) : a +:+ "" = a.
Proof.
  induction a as [| x a IH]; [reflexivity |].
  change (String x (a +:+ "") = String x a). by rewrite IH.
Qed.

(** ** Numbers *)

Section NumberFacts.
Local Open Scope R_scope.

Lemma Math_round_bound (x : R) :
  IZR (Math_round x) - / 2 <= x < IZR (Math_round x) + / 2.
Proof.
  unfold Math_round. pose proof (Zfloor_bound (x + / 2)). lra.
Qed.

Lemma Math_round_nearest (x : R) : Rabs (IZR (Math_round x) - x) <= / 2.
Proof.
  pose proof (Math_round_bound x). apply Rabs_le. lra.
Qed.

Lemma Rabs_le_bounds (a b : R) : Rabs a <= b → - b <= a <= b.
Proof.
  unfold Rabs. destruct (Rcase_abs a); lra.
Qed.

Lemma Math_round_eq (x : R) (n : Z) :
  IZR n - / 2 <= x < IZR n + / 2 → Math_round x = n.
Proof.
  intros Hx. unfold Math_round. apply Zfloor_eq. lra.
Qed.

Lemma Math_floor_eq (x : R) (n : Z) :
  IZR n <= x < IZR n + 1 → Math_floor x = n.
Proof. apply Zfloor_eq. Qed.

Lemma Math_trunc_nonneg (x : R) : 0 <= x → Math_trunc x = Zfloor x.
Proof.
  intros Hx. unfold Math_trunc. destruct (Rlt_dec x 0); [lra | reflexivity].
Qed.

(** [x % y] for a non-negative [x] and a positive [y] lands in [[0, y)]. *)
Lemma Number_rem_bound (x y : R) :
  0 <= x → 0 < y → 0 <= Number_rem x y < y.
Proof.
  intros Hx Hy. unfold Number_rem.
  assert (Hq : 0 <= x / y).
  { apply Rmult_le_pos; [lra |]. left. apply Rinv_0_lt_compat. lra. }
  rewrite (Math_trunc_nonneg _ Hq).
  pose proof (Zfloor_bound (x / y)) as [Hlo Hhi].
  assert (Hxy : x = y * (x / y)) by (field; lra).
  split.
  - apply (Rmult_le_compat_l y) in Hlo; lra.
  - apply (Rmult_lt_compat_l y) in Hhi; lra.
Qed.

Lemma Math_atan2_pos_x (y x : R) : 0 < x → Math_atan2 y x = atan (y / x).
Proof.
  intros Hx. unfold Math_atan2. destruct (Rlt_dec 0 x); [reflexivity | lra].
Qed.

Lemma Math_atan2_zero_x (y : R) : 0 < y → Math_atan2 y 0 = PI / 2.
Proof.
  intros Hy. unfold Math_atan2.
  destruct (Rlt_dec 0 0); [lra |].
  destruct (Rlt_dec 0 y); [reflexivity | lra].
Qed.

End NumberFacts.

(** ** Doubles *)

Section Doubles.
Local Open Scope R_scope.
Import Binary64.

Lemma ln_2_pos : 0 < ln 2.
Proof. pose proof ln_lt_2. lra. Qed.

Lemma ln_powerRZ_2 (k : Z) : ln (powerRZ 2 k) = IZR k * ln 2.
Proof. rewrite powerRZ_Rpower by lra. apply ln_Rpower. Qed.

Lemma powerRZ_2_pos (k : Z) : 0 < powerRZ 2 k.
Proof. apply powerRZ_lt. lra. Qed.

Lemma powerRZ_2_succ (k : Z) : powerRZ 2 (k + 1) = 2 * powerRZ 2 k.
Proof. rewrite powerRZ_add by lra. rewrite powerRZ_1. lra. Qed.

Lemma powerRZ_2_le (a b : Z) : (a <= b)%Z → powerRZ 2 a <= powerRZ 2 b.
Proof.
  intros Hab. rewrite !powerRZ_Rpower by lra. unfold Rpower.
  destruct (Z.eq_dec a b) as [-> | Hne]; [lra |].
  left. apply exp_increasing. apply Rmult_lt_compat_r; [apply ln_2_pos |].
  apply IZR_lt. lia.
Qed.

Lemma powerRZ_2_lt (a b : Z) : (a < b)%Z → powerRZ 2 a < powerRZ 2 b.
Proof.
  intros Hab. rewrite !powerRZ_Rpower by lra. unfold Rpower.
  apply exp_increasing. apply Rmult_lt_compat_r; [apply ln_2_pos |].
  by apply IZR_lt.
Qed.

Lemma powerRZ_2_IZR (n : Z) : (0 <= n)%Z → powerRZ 2 n = IZR (2 ^ n).
Proof.
  intros Hn. destruct n as [| p | p]; [by rewrite powerRZ_O | | lia].
  unfold powerRZ. rewrite pow_IZR. by rewrite positive_nat_Z.
Qed.

Lemma powerRZ_2_neg (n : Z) : (0 <= n)%Z → powerRZ 2 (- n) = / IZR (2 ^ n).
Proof.
  intros Hn. rewrite powerRZ_neg'. by rewrite powerRZ_2_IZR.
Qed.

(** The binary logarithm of a number between two powers of 2. *)
Lemma log2_floor (x : R) (k : Z) :
  powerRZ 2 k <= x < powerRZ 2 (k + 1) → Zfloor (ln x / ln 2) = k.
Proof.
  intros [Hlo Hhi]. pose proof ln_2_pos as Hln2.
  pose proof (powerRZ_2_pos k) as Hk.
  apply Zfloor_eq. split.
  - apply (Rmult_le_reg_r (ln 2)); [done |].
    replace (ln x / ln 2 * ln 2) with (ln x) by (field; lra).
    rewrite <- ln_powerRZ_2.
    destruct Hlo as [Hlo | <-]; [left; apply ln_increasing; lra | lra].
  - apply (Rmult_lt_reg_r (ln 2)); [done |].
    replace (ln x / ln 2 * ln 2) with (ln x) by (field; lra).
    replace ((IZR k + 1) * ln 2) with (IZR (k + 1) * ln 2)
      by (rewrite plus_IZR; lra).
    rewrite <- ln_powerRZ_2. apply ln_increasing; lra.
Qed.

Lemma log2_bounds (x : R) :
  0 < x →
  powerRZ 2 (Zfloor (ln x / ln 2)) <= x
    < powerRZ 2 (Zfloor (ln x / ln 2) + 1).
Proof.
  intros Hx. pose proof ln_2_pos as Hln2.
  pose proof (Zfloor_bound (ln x / ln 2)) as [Hlo Hhi].
  set (k := Zfloor (ln x / ln 2)) in *.
  pose proof (exp_ln x Hx) as Hexp.
  rewrite !powerRZ_Rpower by lra. unfold Rpower. split.
  - apply (Rmult_le_compat_r (ln 2)) in Hlo; [| lra].
    replace (ln x / ln 2 * ln 2) with (ln x) in Hlo by (field; lra).
    apply Rle_trans with (exp (ln x)); [| lra].
    destruct Hlo as [Hlo | Hlo]; [left; by apply exp_increasing | rewrite Hlo; lra].
  - apply Rle_lt_trans with (exp (ln x)); [lra |].
    apply exp_increasing. rewrite plus_IZR.
    apply (Rmult_lt_compat_r (ln 2)) in Hhi; [| lra].
    replace (ln x / ln 2 * ln 2) with (ln x) in Hhi by (field; lra). lra.
Qed.

(** The last place of the doubles around [x]. *)
Lemma exponent_spec (x : R) :
  x ≠ 0 →
  (-1074 <= exponent x)%Z ∧
  Rabs x < powerRZ 2 (exponent x + 53) ∧
  (exponent x = (-1074)%Z ∨ powerRZ 2 (exponent x + 52) <= Rabs x).
Proof.
  intros Hx. assert (0 < Rabs x) as Hpos by (by apply Rabs_pos_lt).
  pose proof (log2_bounds (Rabs x) Hpos) as [Hlo Hhi].
  unfold exponent. set (k := Zfloor (ln (Rabs x) / ln 2)) in *.
  split; [lia |].
  destruct (Z.max_spec (-1074) (k - 52)) as [[Hcmp ->] | [Hcmp ->]].
  - split.
    + replace (k - 52 + 53)%Z with (k + 1)%Z by lia. done.
    + right. by replace (k - 52 + 52)%Z with k by lia.
  - split; [| by left].
    eapply Rlt_le_trans; [exact Hhi |]. apply powerRZ_2_le. lia.
Qed.

Lemma exponent_eq (x : R) (k : Z) :
  powerRZ 2 k <= Rabs x < powerRZ 2 (k + 1) → (-1022 <= k)%Z →
  exponent x = (k - 52)%Z.
Proof.
  intros Hx Hk. unfold exponent. rewrite (log2_floor _ k Hx). lia.
Qed.

Lemma nearestEven_bound (y : R) : Rabs (IZR (nearestEven y) - y) <= / 2.
Proof.
  unfold nearestEven. pose proof (Zfloor_bound y) as [Hlo Hhi].
  destruct (Rlt_dec (y - IZR (Zfloor y)) (/ 2)).
  - apply Rabs_le. lra.
  - destruct (Rlt_dec (/ 2) (y - IZR (Zfloor y))).
    + rewrite plus_IZR. apply Rabs_le. lra.
    + destruct (Z.even (Zfloor y)); [| rewrite plus_IZR]; apply Rabs_le; lra.
Qed.

Lemma nearestEven_eq (y : R) (n : Z) :
  Rabs (y - IZR n) < / 2 → nearestEven y = n.
Proof.
  intros Hn. apply Rabs_def2 in Hn as [Hhi Hlo].
  unfold nearestEven. pose proof (Zfloor_bound y) as [Hfl Hfu].
  assert (Zfloor y = n ∨ Zfloor y = (n - 1)%Z) as [Hf | Hf].
  { assert (IZR n - 1 < IZR (Zfloor y) + 1) as H1 by lra.
    assert (IZR (Zfloor y) < IZR n + 1) as H2 by lra.
    rewrite <- minus_IZR, <- plus_IZR in H1. rewrite <- plus_IZR in H2.
    apply lt_IZR in H1, H2. lia. }
  - rewrite Hf in *. destruct (Rlt_dec (y - IZR n) (/ 2)); [done | lra].
  - rewrite Hf in *. rewrite minus_IZR in *.
    destruct (Rlt_dec (y - (IZR n - 1)) (/ 2)); [lra |].
    destruct (Rlt_dec (/ 2) (y - (IZR n - 1))); [lia | lra].
Qed.

Lemma nearestEven_IZR (n : Z) : nearestEven (IZR n) = n.
Proof.
  apply nearestEven_eq. rewrite Rminus_diag, Rabs_R0. lra.
Qed.

Lemma round_0 : round 0 = 0.
Proof. unfold round. by destruct (Req_dec_T 0 0). Qed.

Lemma powerRZ_2_cancel (e : Z) : powerRZ 2 (- e) * powerRZ 2 e = 1.
Proof.
  rewrite <- powerRZ_add by lra. replace (- e + e)%Z with 0%Z by lia.
  apply powerRZ_O.
Qed.

(** A rounded number is within half a unit of the last place. *)
Lemma round_error (x : R) :
  Rabs (round x - x) <= powerRZ 2 (exponent x) / 2.
Proof.
  pose proof (powerRZ_2_pos (exponent x)) as He.
  unfold round. destruct (Req_dec_T x 0) as [-> | Hx].
  - rewrite Rminus_diag, Rabs_R0. lra.
  - set (e := exponent x) in *.
    pose proof (nearestEven_bound (x * powerRZ 2 (- e))) as Hn.
    set (n := nearestEven (x * powerRZ 2 (- e))) in *.
    replace (IZR n * powerRZ 2 e - x)
      with ((IZR n - x * powerRZ 2 (- e)) * powerRZ 2 e)
      by (pose proof (powerRZ_2_cancel e); nra).
    rewrite Rabs_mult, (Rabs_pos_eq (powerRZ 2 e)) by lra. nra.
Qed.

(** The relative error of a rounding is at most [2^-53], but for the
    numbers too small for a full significand. *)
Lemma round_relative (x : R) :
  Rabs (round x - x) <= Rabs x * powerRZ 2 (-53) + powerRZ 2 (-1075).
Proof.
  destruct (Req_dec_T x 0) as [-> | Hx].
  - rewrite round_0, Rminus_diag, Rabs_R0.
    pose proof (powerRZ_2_pos (-53)). pose proof (powerRZ_2_pos (-1075)). lra.
  - pose proof (round_error x) as Herr.
    destruct (exponent_spec x Hx) as (_ & _ & Hcase).
    pose proof (powerRZ_2_pos (-53)) as H53.
    pose proof (powerRZ_2_pos (-1075)) as H1075.
    pose proof (Rabs_pos x) as Habs.
    destruct Hcase as [He | He].
    + rewrite He in Herr.
      replace (powerRZ 2 (-1074) / 2) with (powerRZ 2 (-1075)) in Herr.
      * nra.
      * replace (-1074)%Z with (-1075 + 1)%Z by lia.
        rewrite powerRZ_2_succ. lra.
    + replace (powerRZ 2 (exponent x) / 2)
        with (powerRZ 2 (exponent x + 52) * powerRZ 2 (-53)) in Herr.
      * nra.
      * rewrite <- powerRZ_add by lra.
        replace (exponent x + 52 + -53)%Z with (exponent x - 1)%Z by lia.
        replace (exponent x) with (exponent x - 1 + 1)%Z at 2 by lia.
        rewrite powerRZ_2_succ. lra.
Qed.

(** A number nearer to [n * 2^e] than to any other multiple of [2^e], the
    unit of its last place, rounds to it. *)
Lemma round_nearest (x : R) (n e : Z) :
  exponent x = e →
  Rabs (x - IZR n * powerRZ 2 e) < powerRZ 2 e / 2 →
  round x = IZR n * powerRZ 2 e.
Proof.
  intros He Hn. pose proof (powerRZ_2_pos e) as Hpos.
  pose proof (powerRZ_2_cancel e) as Hcancel.
  unfold round. destruct (Req_dec_T x 0) as [-> | Hx].
  - assert (n = 0%Z) as ->; [| lra].
    rewrite Rminus_0_l, Rabs_Ropp, Rabs_mult, (Rabs_pos_eq (powerRZ 2 e)) in Hn
      by lra.
    assert (Rabs (IZR n) < 1) as Hlt by nra.
    apply Rabs_def2 in Hlt as [H1 H2].
    assert ((-1 < n < 1)%Z) by (split; apply lt_IZR; lra). lia.
  - rewrite He. f_equal. f_equal. apply nearestEven_eq.
    replace (x * powerRZ 2 (- e) - IZR n)
      with ((x - IZR n * powerRZ 2 e) * powerRZ 2 (- e))
      by (transitivity (x * powerRZ 2 (- e)
                        - IZR n * (powerRZ 2 (- e) * powerRZ 2 e));
          [ring | rewrite Hcancel; ring]).
    pose proof (powerRZ_2_pos (- e)) as Hneg.
    rewrite Rabs_mult, (Rabs_pos_eq (powerRZ 2 (- e))) by lra.
    apply (Rmult_lt_reg_r (powerRZ 2 e)); [done |]. nra.
Qed.

Lemma round_exact (x : R) (n e : Z) :
  exponent x = e → x = IZR n * powerRZ 2 e → round x = x.
Proof.
  intros He Hx. rewrite Hx at 2. apply round_nearest; [done |].
  rewrite <- Hx, Rminus_diag, Rabs_R0. pose proof (powerRZ_2_pos e). lra.
Qed.


Lemma powerRZ_2_Zpos (p : positive) : powerRZ 2 (Zpos p) = IZR (2 ^ Zpos p).
Proof. by apply powerRZ_2_IZR. Qed.

Lemma powerRZ_2_Zneg (p : positive) : powerRZ 2 (Zneg p) = / IZR (2 ^ Zpos p).
Proof. by apply (powerRZ_2_neg (Zpos p)). Qed.

End Doubles.

(** The powers of 2 of a goal, written as numbers. *)
Ltac pow2 :=
  repeat match goal with
  | |- context [powerRZ 2 (Zpos ?p)] =>
      let v := eval vm_compute in (2 ^ Zpos p)%Z in
      rewrite (powerRZ_2_Zpos p); change (2 ^ Zpos p)%Z with v
  | |- context [powerRZ 2 (Zneg ?p)] =>
      let v := eval vm_compute in (2 ^ Zpos p)%Z in
      rewrite (powerRZ_2_Zneg p); change (2 ^ Zpos p)%Z with v
  | |- context [powerRZ 2 0] => rewrite powerRZ_O
  end.

Section DoubleValues.
Local Open Scope R_scope.
Import Binary64.

Lemma unit_roundoff : 0 < powerRZ 2 (-53) <= 1.2e-16.
Proof. pow2. lra. Qed.

Lemma smallest_half : 0 < powerRZ 2 (-1075) <= 1e-320.
Proof. pow2. lra. Qed.

(** The double of a number given between two powers of 2 and nearer to
    [n * 2^(k - 52)] than half a unit of the last place. *)
Lemma round_eval (x : R) (k n : Z) :
  powerRZ 2 k <= Rabs x < powerRZ 2 (k + 1) → (-1022 <= k)%Z →
  Rabs (x - IZR n * powerRZ 2 (k - 52)) < powerRZ 2 (k - 52) / 2 →
  round x = IZR n * powerRZ 2 (k - 52).
Proof.
  intros Hx Hk Hn. apply round_nearest; [by apply exponent_eq | done].
Qed.

Lemma round_1 : round 1 = 1.
Proof.
  rewrite (round_eval 1 0 4503599627370496).
  - change (0 - 52)%Z with (-52)%Z. pow2. lra.
  - rewrite Rabs_R1. change (0 + 1)%Z with 1%Z. pow2. lra.
  - lia.
  - change (0 - 52)%Z with (-52)%Z. pow2. apply Rabs_def1; lra.
Qed.

(** The literal [3.6] of the source is the double nearest to 3.6. *)
Lemma round_3_6 : round 3.6 = 8106479329266893 / 2251799813685248.
Proof.
  rewrite (round_eval 3.6 1 8106479329266893).
  - change (1 - 52)%Z with (-51)%Z. pow2. lra.
  - rewrite Rabs_pos_eq by lra. change (1 + 1)%Z with 2%Z. pow2. lra.
  - lia.
  - change (1 - 52)%Z with (-51)%Z. pow2. apply Rabs_def1; lra.
Qed.

Lemma round_nonneg (x : R) : 0 <= x → 0 <= round x.
Proof.
  intros Hx. unfold round. destruct (Req_dec_T x 0); [lra |].
  pose proof (powerRZ_2_pos (exponent x)) as He.
  pose proof (powerRZ_2_pos (- exponent x)) as Hne.
  apply Rmult_le_pos; [| lra]. apply IZR_le.
  assert (0 <= x * powerRZ 2 (- exponent x)) as Hy by nra.
  unfold nearestEven.
  assert (0 <= Zfloor (x * powerRZ 2 (- exponent x)))%Z
    by (by apply Zfloor_lub).
  repeat destruct (Rlt_dec _ _); try destruct (Z.even _); lia.
Qed.

End DoubleValues.

(** ** The distance between a point and itself (C9) *)

Section SamePoint.
Local Open Scope R_scope.
Import LocationService.

Lemma haversine_a_same (lat lon : R) : haversine_a lat lon lat lon = 0.
Proof.
  unfold haversine_a.
  replace ((lat - lat) * PI / 180 / 2) with 0 by lra.
  replace ((lon - lon) * PI / 180 / 2) with 0 by lra.
  rewrite sin_0. lra.
Qed.

Lemma formatDuration_zero : formatDuration 0 = "0 detik".
Proof.
  unfold formatDuration. destruct (Rlt_dec 0 60); [| lra].
  rewrite (Math_round_eq 0 0) by (simpl; lra). reflexivity.
Qed.

Lemma formatDistance_zero `{JsNumberPrinter} : formatDistance 0 = "0 meter".
Proof.
  unfold formatDistance. destruct (Rlt_dec 0 1000); [| lra].
  rewrite (Math_round_eq 0 0) by (simpl; lra). reflexivity.
Qed.

(** C9.  For every point, the distance from the point to itself is 0 and so
    is the travel time of every profile.  Nothing undefined is computed on
    the way: the haversine term is 0, so both square roots are taken of
    non-negative numbers (0 and 1) and [atan2] is taken at (0, 1); the only
    divisions are by the non-zero constants 180, 2, 50, 40, 5 and 1000.  The
    route between the point and itself reads "0 meter" and "0 detik". *)
Theorem same_point_distance_zero `{JsNumberPrinter}
    (lat lon : R) (profile : TransportMode) :
  calculateDistance lat lon lat lon = 0 ∧
  estimatedTime (calculateDistance lat lon lat lon) profile = 0 ∧
  (0 <= haversine_a lat lon lat lon ∧ 0 <= 1 - haversine_a lat lon lat lon) ∧
  (sqrt (haversine_a lat lon lat lon) = 0 ∧
   sqrt (1 - haversine_a lat lon lat lon) = 1) ∧
  (∀ addr1 addr2,
     let result :=
       calculateRoute (mkLocationPoint lat lon addr1)
                      (mkLocationPoint lat lon addr2) profile in
     route_distance result = "0 meter" ∧ route_duration result = "0 detik").
Proof.
  assert (Hd : calculateDistance lat lon lat lon = 0).
  { unfold calculateDistance. rewrite haversine_a_same.
    rewrite Rminus_0_r, sqrt_0, sqrt_1.
    rewrite Math_atan2_pos_x by lra.
    replace (0 / 1) with 0 by lra. rewrite atan_0. lra. }
  assert (Ht : estimatedTime 0 profile = 0).
  { unfold estimatedTime, Binary64.mul, Binary64.div.
    destruct profile; (replace (0 / _) with 0 by lra);
      rewrite round_0, Rmult_0_l; apply round_0. }
  rewrite haversine_a_same, Rminus_0_r, sqrt_0, sqrt_1, Hd, Ht.
  repeat split; try lra.
  - unfold calculateRoute; simpl. rewrite Hd. apply formatDistance_zero.
  - unfold calculateRoute; simpl. rewrite Hd, Ht. apply formatDuration_zero.
Qed.

End SamePoint.

(** ** Travel time and the text of a result (C5) *)

Section Formatting.
Local Open Scope R_scope.
Import LocationService.
Context `{JsNumberPrinter}.

(** [d / v * 3.6] on doubles against the exact value: the three roundings
    (the quotient, the literal, the product) stay within one part in
    10^15. *)
Lemma travel_time_error (d v : R) :
  0 <= d → 0 < v →
  Rabs (Binary64.mul (Binary64.div d v) (Binary64.round 3.6) - d / v * 3.6)
    <= 1e-15 * (d / v * 3.6) + 1e-300.
Proof.
  intros Hd Hv. unfold Binary64.mul, Binary64.div. rewrite round_3_6.
  set (X := d / v).
  assert (0 <= X) as HX.
  { unfold X. apply Rmult_le_pos; [done |]. left. by apply Rinv_0_lt_compat. }
  pose proof unit_roundoff as [Hu0 Hu]. pose proof smallest_half as [He0 He].
  pose proof (round_relative X) as H1. rewrite (Rabs_pos_eq X) in H1 by done.
  pose proof (round_nonneg X HX) as Hr1.
  set (r1 := Binary64.round X) in *.
  set (t := r1 * (8106479329266893 / 2251799813685248)).
  assert (0 <= t) as Ht by (unfold t; lra).
  pose proof (round_relative t) as H2. rewrite (Rabs_pos_eq t) in H2 by done.
  set (r2 := Binary64.round t) in *.
  assert (X * powerRZ 2 (-53) <= X * 1.2e-16) as HXu
    by (by apply Rmult_le_compat_l).
  assert (t * powerRZ 2 (-53) <= t * 1.2e-16) as Htu
    by (by apply Rmult_le_compat_l).
  apply Rabs_le_bounds in H1. apply Rabs_le_bounds in H2.
  assert (0 <= X * powerRZ 2 (-53)) as HXu0 by (apply Rmult_le_pos; lra).
  assert (0 <= t * powerRZ 2 (-53)) as Htu0 by (apply Rmult_le_pos; lra).
  unfold t in *. apply Rabs_le. lra.
Qed.

Lemma estimatedTime_error (d : R) (profile : TransportMode) :
  0 <= d →
  Rabs (estimatedTime d profile - d / Reference.speedMetersPerSecond profile)
    <= 1e-15 * (d / Reference.speedMetersPerSecond profile) + 1e-300.
Proof.
  intros Hd.
  unfold estimatedTime, Reference.speedMetersPerSecond, Reference.speedKmh.
  destruct profile.
  - replace (d / (50 * 1000 / 3600)) with (d / 50 * 3.6) by lra.
    apply travel_time_error; lra.
  - replace (d / (40 * 1000 / 3600)) with (d / 40 * 3.6) by lra.
    apply travel_time_error; lra.
  - replace (d / (5 * 1000 / 3600)) with (d / 5 * 3.6) by lra.
    apply travel_time_error; lra.
Qed.

(** [toFixed 2] below 1e21: the nearest hundredth, printed with two decimals. *)
Lemma toFixed_2_nearest (x : R) :
  0 <= x → x < 1e21 →
  ∃ n : Z,
    (0 <= n)%Z ∧ Rabs (IZR n / 100 - x) <= / 200 ∧
    toFixed 2 x =
      pretty (n `div` 100)%Z +:+ "." +:+ pad_zeros 2 (pretty (n `mod` 100)%Z).
Proof.
  intros Hx0 Hx. exists (Zfloor (x * 100 + / 2)). split_and!.
  - apply Zfloor_lub. simpl. lra.
  - pose proof (Zfloor_bound (x * 100 + / 2)). apply Rabs_le. lra.
  - unfold toFixed. rewrite (Rabs_pos_eq x) by lra.
    destruct (Rle_dec 1e21 x); [lra |].
    destruct (Rlt_dec x 0); [lra |].
    replace (10 ^ 2) with 100 by (simpl; lra). reflexivity.
Qed.

(** Two digits, with the zero in front when there is one. *)
Lemma pad_zeros_2 (r : Z) :
  (0 <= r < 100)%Z →
  pad_zeros 2 (pretty r) = pretty (r `div` 10)%Z +:+ pretty (r `mod` 10)%Z.
Proof.
  intros Hr.
  assert (∃ k : nat, r = Z.of_nat k ∧ (k < 100)%nat) as (k & -> & Hk)
    by (exists (Z.to_nat r); lia).
  do 100 (destruct k as [| k]; [by vm_compute |]). lia.
Qed.

(** The text of [toFixed 2]: the whole part, a point and two digits, the
    number they write being the hundredth nearest to [x]. *)
Lemma toFixed_2_digits (x : R) :
  0 <= x → x < 1e21 →
  ∃ whole tenths hundredths : Z,
    (0 <= whole ∧ 0 <= tenths <= 9 ∧ 0 <= hundredths <= 9)%Z ∧
    Rabs (IZR whole + IZR tenths / 10 + IZR hundredths / 100 - x) <= / 200 ∧
    toFixed 2 x =
      pretty whole +:+ "." +:+ pretty tenths +:+ pretty hundredths.
Proof.
  intros Hx0 Hx.
  destruct (toFixed_2_nearest x Hx0 Hx) as (n & Hn0 & Hn & ->).
  exists (n `div` 100)%Z, ((n `mod` 100) `div` 10)%Z, ((n `mod` 100) `mod` 10)%Z.
  pose proof (Z.mod_pos_bound n 100 ltac:(lia)) as Hmod.
  split_and!.
  - apply Z.div_pos; lia.
  - apply Z.div_pos; lia.
  - assert ((n `mod` 100) `div` 10 < 10)%Z
      by (apply Z.div_lt_upper_bound; lia).
    lia.
  - apply Z.mod_pos_bound. lia.
  - pose proof (Z.mod_pos_bound (n `mod` 100) 10 ltac:(lia)). lia.
  - replace (IZR (n `div` 100) + IZR ((n `mod` 100) `div` 10) / 10
             + IZR ((n `mod` 100) `mod` 10) / 100)
      with (IZR n / 100); [done |].
    pose proof (Z.div_mod n 100 ltac:(lia)) as H100.
    pose proof (Z.div_mod (n `mod` 100) 10 ltac:(lia)) as H10.
    rewrite H100 at 1. rewrite H10 at 1.
    rewrite !plus_IZR, !mult_IZR. lra.
  - by rewrite pad_zeros_2.
Qed.

Lemma formatDistance_meters (d : R) :
  d < 1000 →
  ∃ n : Z, Rabs (IZR n - d) <= / 2 ∧ formatDistance d = pretty n +:+ " meter".
Proof.
  intros Hd. exists (Math_round d). split; [apply Math_round_nearest |].
  unfold formatDistance. destruct (Rlt_dec d 1000); [reflexivity | lra].
Qed.

(** The kilometres: two decimals, the hundredth nearest to the double
    [d / 1000]. *)
Lemma formatDistance_kilometers (d : R) :
  1000 <= d → d < 1e21 →
  ∃ whole tenths hundredths : Z,
    (0 <= whole ∧ 0 <= tenths <= 9 ∧ 0 <= hundredths <= 9)%Z ∧
    Rabs (IZR whole + IZR tenths / 10 + IZR hundredths / 100 - d / 1000)
      <= / 200 + 1e-18 * d ∧
    formatDistance d =
      pretty whole +:+ "." +:+ pretty tenths +:+ pretty hundredths
      +:+ " kilometer".
Proof.
  intros Hd Hmax.
  pose proof unit_roundoff as [Hu0 Hu]. pose proof smallest_half as [He0 He].
  pose proof (round_relative (d / 1000)) as Hq.
  rewrite (Rabs_pos_eq (d / 1000)) in Hq by lra.
  pose proof (round_nonneg (d / 1000) ltac:(lra)) as Hq0.
  assert (d / 1000 * powerRZ 2 (-53) <= d / 1000 * 1.2e-16) as Hdu
    by (apply Rmult_le_compat_l; lra).
  assert (0 <= d / 1000 * powerRZ 2 (-53)) as Hdu0
    by (apply Rmult_le_pos; lra).
  apply Rabs_le_bounds in Hq.
  destruct (toFixed_2_digits (Binary64.round (d / 1000)))
    as (whole & tenths & hundredths & Hdigits & Hvalue & Htext); [lra | lra |].
  exists whole, tenths, hundredths. split; [done |]. split.
  - apply Rabs_le_bounds in Hvalue. apply Rabs_le. lra.
  - unfold formatDistance, Binary64.div. destruct (Rlt_dec d 1000); [lra |].
    rewrite Htext. by rewrite !append_assoc.
Qed.

(** The digits of a number of hundredths. *)
Lemma hundredths_digits (whole tenths hundredths n : Z) (x bound : R) :
  (0 <= whole ∧ 0 <= tenths <= 9 ∧ 0 <= hundredths <= 9)%Z →
  Rabs (IZR whole + IZR tenths / 10 + IZR hundredths / 100 - x) <= bound →
  IZR n - 1 < 100 * (x - bound) → 100 * (x + bound) < IZR n + 1 →
  (100 * whole + 10 * tenths + hundredths = n)%Z.
Proof.
  intros Hdigits Hvalue Hlo Hhi. apply Rabs_le_bounds in Hvalue.
  set (N := (100 * whole + 10 * tenths + hundredths)%Z).
  assert (IZR N = 100 * (IZR whole + IZR tenths / 10 + IZR hundredths / 100))
    as Heq by (unfold N; rewrite !plus_IZR, !mult_IZR; lra).
  assert (IZR (n - 1) < IZR N) as H1 by (rewrite minus_IZR, Heq; lra).
  assert (IZR N < IZR (n + 1)) as H2 by (rewrite plus_IZR, Heq; lra).
  apply lt_IZR in H1, H2. lia.
Qed.

Lemma formatDuration_seconds (s : R) :
  s < 60 →
  ∃ n : Z, Rabs (IZR n - s) <= / 2 ∧ formatDuration s = pretty n +:+ " detik".
Proof.
  intros Hs. exists (Math_round s). split; [apply Math_round_nearest |].
  unfold formatDuration. destruct (Rlt_dec s 60); [reflexivity | lra].
Qed.

Lemma formatDuration_minutes (s : R) :
  60 <= s < 3600 →
  ∃ m : Z,
    IZR m * 60 <= s < (IZR m + 1) * 60 ∧
    formatDuration s = pretty m +:+ " menit".
Proof.
  intros Hs. exists (Math_floor (s / 60)). split.
  - unfold Math_floor. pose proof (Zfloor_bound (s / 60)). lra.
  - unfold formatDuration. destruct (Rlt_dec s 60); [lra |].
    destruct (Rlt_dec s 3600); [reflexivity | lra].
Qed.

Lemma formatDuration_hours (s : R) :
  3600 <= s →
  ∃ h m : Z,
    (0 <= m < 60)%Z ∧
    IZR h * 3600 + IZR m * 60 <= s < IZR h * 3600 + (IZR m + 1) * 60 ∧
    formatDuration s = pretty h +:+ " jam " +:+ pretty m +:+ " menit".
Proof.
  intros Hs.
  exists (Math_floor (s / 3600)), (Math_floor (Number_rem s 3600 / 60)).
  pose proof (Number_rem_bound s 3600 ltac:(lra) ltac:(lra)) as Hrem.
  pose proof (Zfloor_bound (Number_rem s 3600 / 60)) as Hm.
  assert (Hrem_eq : Number_rem s 3600 = s - 3600 * IZR (Math_floor (s / 3600))).
  { unfold Number_rem. rewrite Math_trunc_nonneg; [reflexivity |].
    apply Rmult_le_pos; lra. }
  unfold Math_floor in *.
  assert (Hm0 : (0 <= Zfloor (Number_rem s 3600 / 60))%Z).
  { apply Zfloor_lub. simpl. lra. }
  assert (Hm60 : (Zfloor (Number_rem s 3600 / 60) < 60)%Z).
  { apply lt_IZR. lra. }
  split; [lia |]. split; [lra |].
  unfold formatDuration. destruct (Rlt_dec s 60); [lra |].
  destruct (Rlt_dec s 3600); [lra | reflexivity].
Qed.

End Formatting.

Section Route.
Local Open Scope R_scope.
Import LocationService.

Lemma Math_atan2_sqrt_range (a b : R) :
  0 <= Math_atan2 (sqrt a) (sqrt b) <= PI / 2.
Proof.
  pose proof (sqrt_pos a) as Ha. pose proof (sqrt_pos b) as Hb.
  pose proof PI_RGT_0 as Hpi.
  unfold Math_atan2.
  destruct (Rlt_dec 0 (sqrt b)) as [Hb' | Hb'].
  - pose proof (atan_bound (sqrt a / sqrt b)) as Hbound.
    split; [| lra].
    rewrite <- atan_0.
    destruct (Req_dec (sqrt a) 0) as [-> | Hne].
    + replace (0 / sqrt b) with 0 by (field; lra). lra.
    + left. apply atan_increasing.
      apply Rmult_lt_0_compat; [lra |]. by apply Rinv_0_lt_compat.
  - destruct (Rlt_dec (sqrt b) 0); [lra |].
    destruct (Rlt_dec 0 (sqrt a)); [lra |].
    destruct (Rlt_dec (sqrt a) 0); lra.
Qed.

(** Every distance of the exact formula lies between 0 and half the
    circumference of the sphere. *)
Lemma calculateDistance_range (lat1 lon1 lat2 lon2 : R) :
  0 <= calculateDistance lat1 lon1 lat2 lon2 <= 6371000 * PI.
Proof.
  unfold calculateDistance.
  pose proof (Math_atan2_sqrt_range (haversine_a lat1 lon1 lat2 lon2)
                (1 - haversine_a lat1 lon1 lat2 lon2)).
  split; nra.
Qed.

Lemma calculateDistance_printable (lat1 lon1 lat2 lon2 : R) :
  0 <= calculateDistance lat1 lon1 lat2 lon2 < 1e21.
Proof.
  pose proof (calculateDistance_range lat1 lon1 lat2 lon2).
  pose proof PI_4. lra.
Qed.

(** The travel time of the double written 5833.333333333333, by car. *)
Lemma estimatedTime_5833 :
  estimatedTime (6413817828693333 / 1099511627776) car = 420.
Proof.
  unfold estimatedTime, Binary64.mul, Binary64.div. rewrite round_3_6.
  rewrite (round_eval (6413817828693333 / 1099511627776 / 50) 6
             8209686820727466).
  2:{ rewrite Rabs_pos_eq by lra. change (6 + 1)%Z with 7%Z. pow2. lra. }
  2:{ lia. }
  2:{ change (6 - 52)%Z with (-46)%Z. pow2. apply Rabs_def1; lra. }
  change (6 - 52)%Z with (-46)%Z.
  rewrite (round_eval _ 8 7388718138654720).
  - change (8 - 52)%Z with (-44)%Z. pow2. lra.
  - change (8 + 1)%Z with 9%Z. pow2. rewrite Rabs_pos_eq; lra.
  - lia.
  - change (8 - 52)%Z with (-44)%Z. pow2. apply Rabs_def1; lra.
Qed.




End Route.

(** ** The calculator against the haversine formula (C4) *)

Section Haversine.
Local Open Scope R_scope.
Import LocationService.

Lemma hav_sin_half (θ : R) : Reference.hav θ = sin (θ / 2) * sin (θ / 2).
Proof.
  unfold Reference.hav.
  replace θ with (2 * (θ / 2)) at 1 by field.
  rewrite cos_2a_sin. field.
Qed.

(** The term under the square root is the same in both. *)
Lemma haversine_a_reference (lat1 lon1 lat2 lon2 : R) :
  haversine_a lat1 lon1 lat2 lon2 =
  Reference.hav (Reference.radians lat2 - Reference.radians lat1) +
  cos (Reference.radians lat1) * cos (Reference.radians lat2) *
  Reference.hav (Reference.radians lon2 - Reference.radians lon1).
Proof.
  unfold haversine_a, Reference.radians. rewrite !hav_sin_half.
  replace ((lat2 * PI / 180 - lat1 * PI / 180) / 2)
    with ((lat2 - lat1) * PI / 180 / 2) by field.
  replace ((lon2 * PI / 180 - lon1 * PI / 180) / 2)
    with ((lon2 - lon1) * PI / 180 / 2) by field.
  ring.
Qed.

Lemma cos_latitude_nonneg (lat : R) :
  -90 <= lat <= 90 → 0 <= cos (lat * PI / 180).
Proof.
  intros Hlat. pose proof PI_RGT_0. apply cos_ge_0; nra.
Qed.

(** For latitudes in range the term lies in [[0, 1]]: neither square root of
    the code is taken of a negative number. *)
Lemma haversine_a_range (lat1 lon1 lat2 lon2 : R) :
  -90 <= lat1 <= 90 → -90 <= lat2 <= 90 →
  0 <= haversine_a lat1 lon1 lat2 lon2 <= 1.
Proof.
  intros H1 H2. unfold haversine_a.
  set (φ1 := lat1 * PI / 180). set (φ2 := lat2 * PI / 180).
  set (y := (lon2 - lon1) * PI / 180 / 2).
  replace ((lat2 - lat1) * PI / 180 / 2) with ((φ2 - φ1) / 2)
    by (unfold φ1, φ2; field).
  pose proof (cos_latitude_nonneg lat1 H1) as Hc1.
  pose proof (cos_latitude_nonneg lat2 H2) as Hc2.
  fold φ1 in Hc1. fold φ2 in Hc2.
  assert (Hs : 0 <= sin y * sin y <= 1).
  { pose proof (SIN_bound y). nra. }
  assert (Hcc : 0 <= cos φ1 * cos φ2) by nra.
  rewrite <- hav_sin_half. unfold Reference.hav.
  rewrite cos_minus.
  pose proof (COS_bound (φ1 + φ2)) as Hsum. rewrite cos_plus in Hsum.
  pose proof (COS_bound (φ2 - φ1)) as Hdiff. rewrite cos_minus in Hdiff.
  split; nra.
Qed.

(** [2 atan2(sqrt a, sqrt (1 - a))] is [2 asin (sqrt a)] on [[0, 1]]. *)
Lemma atan2_sqrt_asin (a : R) :
  0 <= a <= 1 → Math_atan2 (sqrt a) (sqrt (1 - a)) = asin (sqrt a).
Proof.
  intros [Ha0 Ha1]. destruct (Req_dec a 1) as [-> | Hne].
  - replace (1 - 1) with 0 by ring. rewrite sqrt_0, sqrt_1, asin_1.
    apply Math_atan2_zero_x. lra.
  - assert (Hlt : a < 1) by lra.
    assert (Hpos : 0 < sqrt (1 - a)) by (apply sqrt_lt_R0; lra).
    assert (Hsq : sqrt a < 1).
    { rewrite <- sqrt_1. apply sqrt_lt_1; lra. }
    pose proof (sqrt_pos a).
    rewrite Math_atan2_pos_x by exact Hpos.
    rewrite asin_atan by lra.
    by rewrite Rsqr_sqrt.
Qed.

Lemma calculateDistance_haversine (lat1 lon1 lat2 lon2 : R) :
  -90 <= lat1 <= 90 → -90 <= lat2 <= 90 →
  calculateDistance lat1 lon1 lat2 lon2 =
  Reference.haversine lat1 lon1 lat2 lon2.
Proof.
  intros H1 H2. unfold calculateDistance, Reference.haversine.
  rewrite atan2_sqrt_asin by (by apply haversine_a_range).
  rewrite <- haversine_a_reference.
  unfold Reference.EARTH_RADIUS. lra.
Qed.

End Haversine.

(** *** The distance between the two points of the scenario *)

Section Scenario.
Local Open Scope R_scope.
Import LocationService.

(** Machin's formula, five terms. *)
Lemma PI_bounds : 3.141592 < PI < 3.141597.
Proof.
  pose proof (PI_2_3_7_ineq 2) as [Hlo Hhi].
  unfold sum_f_R0, tg_alt, PI_2_3_7_tg, Ratan_seq in Hlo, Hhi.
  simpl in Hlo, Hhi.
  split; lra.
Qed.

Lemma sin_lower (x : R) : 0 <= x <= 4 → x - x * x * x / 6 <= sin x.
Proof.
  intros [H0 H4]. pose proof (pre_sin_bound x 0 H0 H4) as [Hlo _].
  unfold sin_approx, sum_f_R0, sin_term in Hlo. simpl in Hlo.
  lra.
Qed.

Lemma sin_upper (x : R) : 0 <= x → sin x <= x.
Proof.
  intros [Hx | <-]; [left; by apply sin_lt_x | rewrite sin_0; lra].
Qed.

Lemma cos_series (x : R) :
  -2 <= x <= 2 →
  1 - x * x / 2 <= cos x <= 1 - x * x / 2 + x * x * x * x / 24.
Proof.
  intros [Hlo Hhi]. pose proof (pre_cos_bound x 0 Hlo Hhi) as [Hl Hu].
  unfold cos_approx, sum_f_R0, cos_term in Hl, Hu. simpl in Hl, Hu.
  lra.
Qed.

Lemma cube_le (x y : R) : 0 <= x <= y → x * x * x <= y * y * y.
Proof.
  intros [H0 Hxy].
  assert (x * x <= y * y) by nra.
  assert (0 <= x * x) by nra.
  nra.
Qed.

(** An interval for [x] gives one for the square of its sine. *)
Lemma sin_square_interval (x lo hi sl : R) :
  0 <= lo → lo <= x <= hi → hi <= 1 →
  0 <= sl → sl <= lo - hi * hi * hi / 6 →
  sl * sl <= sin x * sin x <= hi * hi.
Proof.
  intros Hlo [Hx1 Hx2] Hhi Hsl0 Hsl.
  pose proof (sin_lower x ltac:(lra)) as Hl.
  pose proof (sin_upper x ltac:(lra)) as Hu.
  pose proof (cube_le x hi ltac:(lra)) as Hc.
  assert (sl <= sin x) by lra.
  split; nra.
Qed.

(** An interval for [x] gives one for its cosine. *)
Lemma cos_interval (x lo hi : R) :
  0 <= lo → lo <= x <= hi → hi <= 2 →
  1 - hi * hi / 2 <= cos x <= 1 - lo * lo / 2 + hi * hi * hi * hi / 24.
Proof.
  intros Hlo [Hx1 Hx2] Hhi.
  pose proof (cos_series x ltac:(lra)) as [Hl Hu].
  assert (Hsq : lo * lo <= x * x <= hi * hi) by nra.
  assert (Hq : x * x * x * x <= hi * hi * hi * hi).
  { assert (0 <= x * x) by nra. nra. }
  split; lra.
Qed.

(** The angle whose sine is [sqrt a], between two numbers chosen from
    bounds on [a]. *)
Lemma atan2_sqrt_interval (a lo hi : R) :
  0 <= a < 1 →
  0 < lo → lo * lo <= a →
  0 < hi <= 1 → 0 <= hi - hi * hi * hi / 6 →
  a <= (hi - hi * hi * hi / 6) * (hi - hi * hi * hi / 6) →
  lo <= Math_atan2 (sqrt a) (sqrt (1 - a)) <= hi.
Proof.
  intros [Ha0 Ha1] Hlo Hlo2 [Hhi0 Hhi1] Hs Hhi2.
  rewrite atan2_sqrt_asin by lra.
  pose proof (sqrt_pos a) as Hr0.
  assert (Hr1 : sqrt a < 1) by (rewrite <- sqrt_1; apply sqrt_lt_1; lra).
  pose proof (sqrt_sqrt a Ha0) as Hrr.
  pose proof (sin_asin (sqrt a) ltac:(lra)) as Hsin.
  pose proof (asin_bound (sqrt a)) as [Hb1 Hb2].
  pose proof PI_bounds as [Hpi1 Hpi2].
  set (θ := asin (sqrt a)) in *.
  assert (Hθ0 : 0 <= θ).
  { destruct (Rle_lt_dec 0 θ) as [| Hneg]; [done |].
    pose proof (sin_lt_0_var θ ltac:(lra) Hneg). lra. }
  split.
  - destruct (Rle_lt_dec lo θ) as [| Hlt]; [done | exfalso].
    pose proof (sin_upper θ Hθ0). nra.
  - destruct (Rle_lt_dec θ hi) as [| Hlt]; [done | exfalso].
    pose proof (sin_increasing_1 hi θ ltac:(lra) ltac:(lra) ltac:(lra)
                  ltac:(lra) Hlt) as Hincr.
    pose proof (sin_lower hi ltac:(lra)). nra.
Qed.

Lemma scenario_haversine_a :
  0.00001166486877519939
    <= haversine_a (-7.257056) 112.648 (-7.6382862) 112.7372882
    <= 0.00001166496127191835.
Proof.
  pose proof PI_bounds as [Hpi1 Hpi2].
  unfold haversine_a.
  replace ((-7.6382862 - -7.257056) * PI / 180 / 2)
    with (- (0.3812302 / 360 * PI)) by lra.
  replace ((112.7372882 - 112.648) * PI / 180 / 2)
    with (0.0892882 / 360 * PI) by lra.
  replace (-7.257056 * PI / 180) with (- (7.257056 / 180 * PI)) by lra.
  replace (-7.6382862 * PI / 180) with (- (7.6382862 / 180 * PI)) by lra.
  rewrite sin_neg, !cos_neg.
  replace (- sin (0.3812302 / 360 * PI) * - sin (0.3812302 / 360 * PI))
    with (sin (0.3812302 / 360 * PI) * sin (0.3812302 / 360 * PI)) by ring.
  pose proof (sin_square_interval (0.3812302 / 360 * PI)
                0.0033268604068844 0.0033268657017484 0.0033268542699065
                ltac:(lra) ltac:(lra) ltac:(lra) ltac:(lra) ltac:(lra))
    as [Hs1l Hs1u].
  pose proof (sin_square_interval (0.0892882 / 360 * PI)
                0.0007791863744844 0.0007791876145984 0.0007791862956392
                ltac:(lra) ltac:(lra) ltac:(lra) ltac:(lra) ltac:(lra))
    as [Hs2l Hs2u].
  pose proof (cos_interval (7.257056 / 180 * PI)
                0.1266594948508444 0.1266596964357334
                ltac:(lra) ltac:(lra) ltac:(lra)) as [Hc1l Hc1u].
  pose proof (cos_interval (7.6382862 / 180 * PI)
                0.1333132156646133 0.13331342783923
                ltac:(lra) ltac:(lra) ltac:(lra)) as [Hc2l Hc2u].
  set (s1 := sin (0.3812302 / 360 * PI) * sin (0.3812302 / 360 * PI)) in *.
  set (s2 := sin (0.0892882 / 360 * PI) * sin (0.0892882 / 360 * PI)) in *.
  set (c1 := cos (7.257056 / 180 * PI)) in *.
  set (c2 := cos (7.6382862 / 180 * PI)) in *.
  assert (Hs1 : 0.00001106795933319511 <= s1 <= 0.00001106803539746988)
    by lra.
  assert (Hs2 : 0.00000060713128331193 <= s2 <= 0.00000060713333874355)
    by lra.
  assert (Hc1 : 0.9919786606494039 <= c1 <= 0.9919894098295607) by lra.
  assert (Hc2 : 0.9911137649788772 <= c2 <= 0.991126954126722) by lra.
  clear Hs1l Hs1u Hs2l Hs2u Hc1l Hc1u Hc2l Hc2u.
  assert (Hcc : 0.9919786606494039 * 0.9911137649788772 <= c1 * c2
                  <= 0.9919894098295607 * 0.991126954126722) by nra.
  assert (Hccs : 0.9919786606494039 * 0.9911137649788772
                   * 0.00000060713128331193 <= c1 * c2 * s2
                 <= 0.9919894098295607 * 0.991126954126722
                      * 0.00000060713333874355) by nra.
  replace (c1 * c2 * sin (0.0892882 / 360 * PI) * sin (0.0892882 / 360 * PI))
    with (c1 * c2 * s2) by (unfold s2; ring).
  lra.
Qed.

Lemma scenario_distance_bounds :
  43518 < calculateDistance (-7.257056) 112.648 (-7.6382862) 112.7372882
        < 43520.
Proof.
  pose proof scenario_haversine_a as [Hal Hau].
  unfold calculateDistance.
  set (a := haversine_a (-7.257056) 112.648 (-7.6382862) 112.7372882) in *.
  pose proof (atan2_sqrt_interval a 0.00341538706081 0.00341541065747
                ltac:(lra) ltac:(lra) ltac:(lra) ltac:(lra) ltac:(lra)
                ltac:(lra)) as [Hl Hu].
  split; lra.
Qed.


(** Away from the antipode the term of the formula stays below 1: for two
    points at most 20,000 km apart (the antipode is at 20,015 km) it is at
    most [1 - 1e-6], so the second square root of the code is taken of a
    number that the rounding of doubles, of the order of 1e-15, cannot make
    negative. *)
Lemma haversine_a_margin (lat1 lon1 lat2 lon2 : R) :
  -90 <= lat1 <= 90 → -90 <= lat2 <= 90 →
  Reference.haversine lat1 lon1 lat2 lon2 <= 20000000 →
  haversine_a lat1 lon1 lat2 lon2 <= 1 - 1e-6.
Proof.
  intros H1 H2 Hfar.
  pose proof (haversine_a_range lat1 lon1 lat2 lon2 H1 H2) as [Ha0 Ha1].
  pose proof PI_bounds as [Hpi1 Hpi2].
  unfold Reference.haversine, Reference.EARTH_RADIUS in Hfar.
  rewrite <- haversine_a_reference in Hfar.
  set (a := haversine_a lat1 lon1 lat2 lon2) in *.
  set (θ := 10000000 / 6371000).
  assert (asin (sqrt a) <= θ) as Hasin by (unfold θ; lra).
  assert (0 <= sqrt a <= 1) as [Hs0 Hs1].
  { split; [apply sqrt_pos |]. rewrite <- sqrt_1. apply sqrt_le_1; lra. }
  assert (sqrt a <= sin θ) as Hsin.
  { rewrite <- (sin_asin (sqrt a)) by lra.
    pose proof (asin_bound (sqrt a)) as [Hlo Hhi].
    destruct Hasin as [Hlt | ->]; [| lra].
    left. apply sin_increasing_1; unfold θ in *; lra. }
  assert (0.00118 <= cos θ) as Hcos.
  { rewrite <- sin_shift.
    pose proof (sin_lower (PI / 2 - θ)) as Hlower.
    unfold θ in *. nra. }
  assert (sin θ * sin θ + cos θ * cos θ = 1) as Hone
    by (pose proof (sin2_cos2 θ) as Hsc; unfold Rsqr in Hsc; lra).
  assert (a = sqrt a * sqrt a) as Hsq by (by rewrite sqrt_sqrt).
  assert (0 <= sin θ) by lra.
  assert (sqrt a * sqrt a <= sin θ * sin θ) by nra.
  nra.
Qed.


(** By car the scenario is reported as 43.52 km and 52 minutes. *)
Lemma scenario_report `{JsNumberPrinter} :
  let d := calculateDistance (-7.257056) 112.648 (-7.6382862) 112.7372882 in
  3133 < estimatedTime d car < 3134 ∧
  formatDistance d = "43.52 kilometer" ∧
  formatDuration (estimatedTime d car) = "52 menit".
Proof.
  intros d. pose proof scenario_distance_bounds as [Hlo Hhi]. fold d in Hlo, Hhi.
  assert (3133 < estimatedTime d car < 3134) as Htime.
  { pose proof (estimatedTime_error d car ltac:(lra)) as Herr.
    unfold Reference.speedMetersPerSecond, Reference.speedKmh in Herr.
    apply Rabs_le_bounds in Herr. lra. }
  split; [done |]. split.
  - destruct (formatDistance_kilometers d ltac:(lra) ltac:(lra))
      as (whole & tenths & hundredths & Hdigits & Hvalue & ->).
    pose proof (hundredths_digits whole tenths hundredths 4352 _ _ Hdigits
                  Hvalue ltac:(lra) ltac:(lra)) as Hn.
    assert (whole = 43%Z ∧ tenths = 5%Z ∧ hundredths = 2%Z) as (-> & -> & ->)
      by lia.
    reflexivity.
  - destruct (formatDuration_minutes (estimatedTime d car)) as (m & Hm & ->).
    { lra. }
    assert (m = 52%Z) as ->.
    { assert (51 < IZR m < 53) as [H1 H2] by lra.
      apply lt_IZR in H1. apply lt_IZR in H2. lia. }
    reflexivity.
Qed.

End Scenario.

(** ** The measurement workflow (C2, C3, C6) *)

Section Measurement.
Import LocationService.
Context `{JsNumberPrinter}.

Lemma resolvedAddress_missing : resolvedAddress None = "Lokasi tidak diketahui".
Proof. reflexivity. Qed.

Lemma resolvedAddress_empty :
  resolvedAddress (Some "") = "Lokasi tidak diketahui".
Proof. reflexivity. Qed.

Lemma getAddress_address (display_name : option string) (lat lon : R) :
  ∃ addressData,
    getAddressFromCoordinates (AxiosResponse display_name) lat lon
      = Resolved addressData ∧
    js_or (addressData ≫= address) "Lokasi tidak diketahui"
      = resolvedAddress display_name.
Proof.
  unfold getAddressFromCoordinates, resolvedAddress, js_or.
  destruct display_name as [[| c s] |]; simpl; eauto.
Qed.

Lemma initUserMeasurementState_lookup (now : Z) (telegramId : string)
    (store : Store) :
  initUserMeasurementState now telegramId store !! telegramId
    = Some (initialState now).
Proof. unfold initUserMeasurementState. by rewrite lookup_insert_eq. Qed.

Lemma process_not_active (http : AxiosOutcome) (now : Z) (telegramId : string)
    (lat lon : R) (store : Store) :
  (∀ state, store !! telegramId = Some state → isActive state = false) →
  processLocationForMeasurement http now telegramId lat lon store
    = (store, Resolved ReplyNull).
Proof.
  intros Hinactive. unfold processLocationForMeasurement.
  destruct (store !! telegramId) as [state |] eqn:Hget; [| done].
  by rewrite (Hinactive state eq_refl).
Qed.

(** The request throws: the error leaves the handler and the state stays. *)
Lemma process_geocoder_error (e : Error) (now : Z) (telegramId : string)
    (lat lon : R) (store : Store) (state : UserMeasurementState) :
  store !! telegramId = Some state → isActive state = true →
  processLocationForMeasurement (AxiosError e) now telegramId lat lon store
    = (store, Rejected e).
Proof.
  intros Hget Hactive. unfold processLocationForMeasurement.
  by rewrite Hget, Hactive.
Qed.

Lemma process_first_point (display_name : option string) (now : Z)
    (telegramId : string) (lat lon : R) (store : Store)
    (state : UserMeasurementState) :
  store !! telegramId = Some state → isActive state = true →
  firstPoint state = None →
  let addr := resolvedAddress display_name in
  processLocationForMeasurement (AxiosResponse display_name) now telegramId
    lat lon store
  = (<[telegramId :=
        mkUserMeasurementState true
          (Some (mkLocationPoint lat lon (Some addr)))
          (secondPoint state) now (transportMode state)]> store,
     Resolved (ReplyFirstPoint (firstPointMessage addr lat lon))).
Proof.
  intros Hget Hactive Hfirst addr. unfold processLocationForMeasurement.
  rewrite Hget, Hactive. cbn [negb].
  destruct (getAddress_address display_name lat lon) as (data & -> & ->).
  by rewrite Hfirst.
Qed.

Lemma process_second_point (display_name : option string) (now : Z)
    (telegramId : string) (lat lon : R) (store : Store)
    (state : UserMeasurementState) (first : LocationPoint) :
  store !! telegramId = Some state → isActive state = true →
  firstPoint state = Some first → secondPoint state = None →
  let point := mkLocationPoint lat lon (Some (resolvedAddress display_name)) in
  processLocationForMeasurement (AxiosResponse display_name) now telegramId
    lat lon store
  = (<[telegramId := initialState now]> store,
     Resolved (ReplyMeasurementResult
                 (calculateRoute first point
                    (default foot (transportMode state))))).
Proof.
  intros Hget Hactive Hfirst Hsecond point. unfold processLocationForMeasurement.
  rewrite Hget, Hactive. cbn [negb].
  destruct (getAddress_address display_name lat lon) as (data & -> & ->).
  rewrite Hfirst, Hsecond. unfold initUserMeasurementState.
  by rewrite insert_insert_eq.
Qed.

Lemma step_first (state : UserMeasurementState) :
  step state = AWAITING_FIRST_POINT ↔ firstPoint state = None.
Proof.
  unfold step. destruct (firstPoint state); [destruct (secondPoint state) |];
    split; congruence.
Qed.

Lemma step_second (state : UserMeasurementState) :
  step state = AWAITING_SECOND_POINT ↔
  (∃ first, firstPoint state = Some first) ∧ secondPoint state = None.
Proof.
  unfold step. destruct (firstPoint state) as [first |];
    [destruct (secondPoint state) |]; split;
    try congruence; try (intros [[? ?] ?]; congruence).
  intros _. split; [by exists first | done].
Qed.

Lemma startMeasurement_lookup (now : Z) (telegramId : string)
    (transportMode : option TransportMode) (store : Store) :
  (startMeasurement now telegramId transportMode store).1 !! telegramId
    = Some (mkUserMeasurementState true None None now
              (Some (default foot transportMode))).
Proof.
  unfold startMeasurement. cbn [fst].
  rewrite initUserMeasurementState_lookup. by rewrite lookup_insert_eq.
Qed.

Lemma cancel_not_active (now : Z) (telegramId : string) (store : Store) :
  (∀ state, store !! telegramId = Some state → isActive state = false) →
  cancelMeasurement now telegramId store
    = (store, "Tidak ada pengukuran aktif untuk dibatalkan.").
Proof.
  intros Hinactive. unfold cancelMeasurement.
  destruct (store !! telegramId) as [state |] eqn:Hget; [| done].
  by rewrite (Hinactive state eq_refl).
Qed.

Lemma cancel_active (now : Z) (telegramId : string) (store : Store)
    (state : UserMeasurementState) :
  store !! telegramId = Some state → isActive state = true →
  cancelMeasurement now telegramId store
    = (<[telegramId := initialState now]> store,
       "Pengukuran jarak dan rute dibatalkan.").
Proof.
  intros Hget Hactive. unfold cancelMeasurement. by rewrite Hget, Hactive.
Qed.

(** *** Sessions: what the stored states can look like *)

Lemma pointsOnlyWhileActive_insert (store : Store) (telegramId : string)
    (state : UserMeasurementState) :
  pointsOnlyWhileActive store →
  (isActive state = false →
   firstPoint state = None ∧ secondPoint state = None) →
  pointsOnlyWhileActive (<[telegramId := state]> store).
Proof.
  intros Hinv Hstate id st Hget Hinactive.
  destruct (decide (telegramId = id)) as [-> | Hne].
  - rewrite lookup_insert_eq in Hget. injection Hget as <-. by apply Hstate.
  - rewrite lookup_insert_ne in Hget by done. by eapply Hinv.
Qed.

Lemma run_preserves (now : Z) (telegramId : string) (cmd : Command)
    (store : Store) :
  pointsOnlyWhileActive store →
  pointsOnlyWhileActive (run now telegramId cmd store).
Proof.
  intros Hinv. destruct cmd as [| mode | http lat lon |]; cbn [run].
  - by apply pointsOnlyWhileActive_insert.
  - unfold startMeasurement. cbn [fst].
    rewrite initUserMeasurementState_lookup.
    apply pointsOnlyWhileActive_insert; [| done].
    by apply pointsOnlyWhileActive_insert.
  - unfold processLocationForMeasurement.
    destruct (store !! telegramId) as [state |] eqn:Hget; [| done].
    destruct (isActive state) eqn:Hactive; cbn [negb]; [| done].
    destruct (getAddressFromCoordinates http lat lon); [| done].
    destruct (firstPoint state) as [first |].
    + destruct (secondPoint state); [done |]. cbn [fst].
      apply pointsOnlyWhileActive_insert; [| done].
      apply pointsOnlyWhileActive_insert; [done |]. cbn. congruence.
    + cbn [fst]. apply pointsOnlyWhileActive_insert; [done |]. cbn. congruence.
  - unfold cancelMeasurement.
    destruct (store !! telegramId) as [state |]; [| done].
    destruct (isActive state); [| done].
    by apply pointsOnlyWhileActive_insert.
Qed.

Lemma runAll_pointsOnlyWhileActive (events : list (Z * string * Command)) :
  pointsOnlyWhileActive (runAll events ∅).
Proof.
  unfold runAll.
  assert (Hgen : ∀ store, pointsOnlyWhileActive store →
            pointsOnlyWhileActive
              (fold_left (λ acc ev, run ev.1.1 ev.1.2 ev.2 acc) events store)).
  { induction events as [| ev events IH]; intros store Hinv; [done |].
    cbn [fold_left]. apply IH. by apply run_preserves. }
  apply Hgen. intros id st Hget. by rewrite lookup_empty in Hget.
Qed.

(** In a session a user waiting for the second point has an active
    measurement. *)
Lemma awaiting_second_is_active (events : list (Z * string * Command))
    (telegramId : string) (state : UserMeasurementState) :
  runAll events ∅ !! telegramId = Some state →
  step state = AWAITING_SECOND_POINT → isActive state = true.
Proof.
  intros Hget Hstep. apply step_second in Hstep as [[first Hfirst] _].
  destruct (isActive state) eqn:Hactive; [done |].
  destruct (runAll_pointsOnlyWhileActive events _ _ Hget Hactive). congruence.
Qed.

(** C2, as amended.  In an active measurement, when neither
    reverse-geocoding request throws, a point received in
    [AWAITING_FIRST_POINT] followed by a point received in
    [AWAITING_SECOND_POINT] ends with the measurement result of the two
    points as reply and the user's state initialised again: no points, so
    the step is [AWAITING_FIRST_POINT], and not active (a new measurement
    starts with a new /ukur command). *)
Theorem two_points_give_result
    (display_name1 display_name2 : option string) (now1 now2 : Z)
    (telegramId : string) (lat1 lon1 lat2 lon2 : R) (store : Store)
    (state : UserMeasurementState) :
  store !! telegramId = Some state → isActive state = true →
  step state = AWAITING_FIRST_POINT →
  let out1 :=
    processLocationForMeasurement (AxiosResponse display_name1) now1
      telegramId lat1 lon1 store in
  (step <$> out1.1 !! telegramId) = Some AWAITING_SECOND_POINT →
  let out2 :=
    processLocationForMeasurement (AxiosResponse display_name2) now2
      telegramId lat2 lon2 out1.1 in
  out2.2 =
    Resolved (ReplyMeasurementResult
      (calculateRoute
         (mkLocationPoint lat1 lon1 (Some (resolvedAddress display_name1)))
         (mkLocationPoint lat2 lon2 (Some (resolvedAddress display_name2)))
         (default foot (transportMode state)))) ∧
  out2.1 !! telegramId = Some (initialState now2) ∧
  (step <$> out2.1 !! telegramId) = Some AWAITING_FIRST_POINT ∧
  (isActive <$> out2.1 !! telegramId) = Some false.
Proof.
  intros Hget Hactive Hstep out1 Hstep1 out2.
  apply step_first in Hstep.
  subst out2 out1.
  rewrite (process_first_point _ _ _ _ _ _ _ Hget Hactive Hstep) in *.
  cbn [fst] in *. rewrite lookup_insert_eq in Hstep1.
  injection Hstep1 as Hstep1. apply step_second in Hstep1 as [_ Hsecond].
  cbn in Hsecond.
  erewrite process_second_point;
    [| by rewrite lookup_insert_eq | done | done | by cbn].
  cbn [fst snd transportMode]. rewrite lookup_insert_eq. done.
Qed.

(** C3 as stated fails in [AWAITING_FIRST_POINT]: with an active
    measurement and no point yet, the cancel command confirms a cancellation
    and ends the measurement. *)
Lemma cancel_before_first_point_confirms :
  let store0 := (startMeasurement 0 "42" None ∅).1 in
  let out := cancelMeasurement 1 "42" store0 in
  (step <$> store0 !! "42") = Some AWAITING_FIRST_POINT ∧
  (isActive <$> store0 !! "42") = Some true ∧
  out.2 = "Pengukuran jarak dan rute dibatalkan." ∧
  out.2 ≠ "Tidak ada pengukuran aktif untuk dibatalkan." ∧
  (isActive <$> out.1 !! "42") = Some false.
Proof.
  intros store0 out.
  pose proof (startMeasurement_lookup 0 "42" None ∅) as Hget0.
  fold store0 in Hget0.
  assert (Hout : out = (<[ "42" := initialState 1 ]> store0,
                        "Pengukuran jarak dan rute dibatalkan.")).
  { unfold out. by rewrite (cancel_active _ _ _ _ Hget0). }
  rewrite Hout, Hget0. cbn [fst snd]. rewrite lookup_insert_eq. done.
Qed.

(** C3, as amended.  The cancel command answers "nothing to cancel" and
    changes nothing exactly when the user has no active measurement (no state,
    or a state that is not active).  With an active measurement, in
    [AWAITING_FIRST_POINT] as well as in [AWAITING_SECOND_POINT], it
    initialises the state again (no points: the first point is discarded and
    the step is [AWAITING_FIRST_POINT]; not active) and answers with the
    confirmation.  In a session a user in [AWAITING_SECOND_POINT] always has
    an active measurement. *)
Theorem cancel_resets_active_measurement
    (now : Z) (telegramId : string) (store : Store) :
  ((∀ state, store !! telegramId = Some state → isActive state = false) →
   cancelMeasurement now telegramId store
     = (store, "Tidak ada pengukuran aktif untuk dibatalkan.")) ∧
  (∀ state, store !! telegramId = Some state → isActive state = true →
   let out := cancelMeasurement now telegramId store in
   out.2 = "Pengukuran jarak dan rute dibatalkan." ∧
   out.1 = <[telegramId := initialState now]> store ∧
   (step <$> out.1 !! telegramId) = Some AWAITING_FIRST_POINT ∧
   (firstPoint <$> out.1 !! telegramId) = Some None) ∧
  (∀ events state,
     store = runAll events ∅ → store !! telegramId = Some state →
     step state = AWAITING_SECOND_POINT →
     let out := cancelMeasurement now telegramId store in
     out.2 = "Pengukuran jarak dan rute dibatalkan." ∧
     (step <$> out.1 !! telegramId) = Some AWAITING_FIRST_POINT ∧
     (firstPoint <$> out.1 !! telegramId) = Some None).
Proof.
  split; [apply cancel_not_active |].
  assert (Hactive : ∀ state, store !! telegramId = Some state →
            isActive state = true →
            let out := cancelMeasurement now telegramId store in
            out.2 = "Pengukuran jarak dan rute dibatalkan." ∧
            out.1 = <[telegramId := initialState now]> store ∧
            (step <$> out.1 !! telegramId) = Some AWAITING_FIRST_POINT ∧
            (firstPoint <$> out.1 !! telegramId) = Some None).
  { intros state Hget Hact out. unfold out.
    rewrite (cancel_active _ _ _ _ Hget Hact). cbn [fst snd].
    by rewrite lookup_insert_eq. }
  split; [exact Hactive |].
  intros events state -> Hget Hstep.
  pose proof (awaiting_second_is_active _ _ _ Hget Hstep) as Hact.
  destruct (Hactive state Hget Hact) as (H1 & _ & H3 & H4). done.
Qed.

(** C6, as amended.  In an active measurement: when the reverse-geocoding
    request answers without an address, the workflow uses the fixed text
    "Lokasi tidak diketahui" as the address of the point and goes on (the
    first point is stored and acknowledged, the second completes the
    measurement); when the request throws, the error is thrown again out of
    the handler and the state is left as it was. *)
Theorem geocoder_no_address_placeholder
    (now : Z) (telegramId : string) (lat lon : R) (store : Store)
    (state : UserMeasurementState) (display_name : option string) :
  store !! telegramId = Some state → isActive state = true →
  truthy display_name = None →
  let out :=
    processLocationForMeasurement (AxiosResponse display_name) now telegramId
      lat lon store in
  let point := mkLocationPoint lat lon (Some "Lokasi tidak diketahui") in
  (firstPoint state = None →
   out = (<[telegramId :=
             mkUserMeasurementState true (Some point) (secondPoint state) now
               (transportMode state)]> store,
          Resolved (ReplyFirstPoint
                      (firstPointMessage "Lokasi tidak diketahui" lat lon)))) ∧
  (∀ first, firstPoint state = Some first → secondPoint state = None →
   out = (<[telegramId := initialState now]> store,
          Resolved (ReplyMeasurementResult
                      (calculateRoute first point
                         (default foot (transportMode state)))))) ∧
  (∀ e,
     processLocationForMeasurement (AxiosError e) now telegramId lat lon store
     = (store, Rejected e)).
Proof.
  intros Hget Hactive Hname out point.
  assert (Haddr : resolvedAddress display_name = "Lokasi tidak diketahui").
  { unfold resolvedAddress, js_or. by rewrite Hname. }
  unfold out, point. rewrite <- Haddr. repeat split.
  - intros Hfirst. by apply process_first_point.
  - intros first Hfirst Hsecond. by apply process_second_point.
  - intros e. by eapply process_geocoder_error.
Qed.

End Measurement.

Section MeasurementExamples.
Import LocationService.
Local Existing Instance integerPrinter.

(** C2 as stated fails when the reverse-geocoding request of the second
    point throws: the call is rejected and the workflow stays in
    [AWAITING_SECOND_POINT]. *)
Lemma second_point_rejected_on_geocoder_error :
  let store0 := (startMeasurement 0 "42" (Some car) ∅).1 in
  let out1 :=
    processLocationForMeasurement (AxiosResponse (Some "Surabaya")) 1 "42"
      (-7.257056) 112.648 store0 in
  let out2 :=
    processLocationForMeasurement (AxiosError "timeout") 2 "42"
      (-7.6382862) 112.7372882 out1.1 in
  (step <$> store0 !! "42") = Some AWAITING_FIRST_POINT ∧
  (step <$> out1.1 !! "42") = Some AWAITING_SECOND_POINT ∧
  out2.2 = Rejected "timeout" ∧
  (step <$> out2.1 !! "42") = Some AWAITING_SECOND_POINT.
Proof.
  intros store0 out1 out2.
  pose proof (startMeasurement_lookup 0 "42" (Some car) ∅) as Hget0.
  fold store0 in Hget0.
  assert (Hout1 : out1.1 !! "42" =
            Some (mkUserMeasurementState true
                    (Some (mkLocationPoint (-7.257056) 112.648
                             (Some "Surabaya"))) None 1 (Some car))).
  { unfold out1. rewrite (process_first_point _ _ _ _ _ _ _ Hget0) by done.
    cbn [fst]. by rewrite lookup_insert_eq. }
  assert (Hout2 : out2 = (out1.1, Rejected "timeout")).
  { unfold out2. by rewrite (process_geocoder_error _ _ _ _ _ _ _ Hout1). }
  rewrite Hout2. cbn [fst snd]. rewrite Hget0, Hout1. done.
Qed.

(** C6 as stated fails: when the reverse-geocoding request throws, the error
    is thrown again by the handler. *)
Lemma geocoder_error_escapes_handler :
  let store0 := (startMeasurement 0 "42" None ∅).1 in
  processLocationForMeasurement (AxiosError "ECONNRESET") 1 "42"
    (-7.257056) 112.648 store0
  = (store0, Rejected "ECONNRESET").
Proof.
  intros store0.
  pose proof (startMeasurement_lookup 0 "42" None ∅) as Hget0.
  by rewrite (process_geocoder_error _ _ _ _ _ _ _ Hget0).
Qed.

(** /ukur_mobil, then the two points of the scenario, the second without an
    address: the reply is the result, 43.52 km, and the state is initial. *)
Lemma two_points_give_result_witness :
  let store0 := (startMeasurement 0 "42" (Some car) ∅).1 in
  let out1 :=
    processLocationForMeasurement (AxiosResponse (Some "Surabaya")) 1 "42"
      (-7.257056) 112.648 store0 in
  let out2 :=
    processLocationForMeasurement (AxiosResponse None) 2 "42"
      (-7.6382862) 112.7372882 out1.1 in
  out2.1 !! "42" = Some (initialState 2) ∧
  ∃ result, out2.2 = Resolved (ReplyMeasurementResult result) ∧
            route_distance result = "43.52 kilometer" ∧
            route_duration result = "52 menit".
Proof.
  intros store0 out1 out2.
  pose proof (startMeasurement_lookup 0 "42" (Some car) ∅) as Hget0.
  fold store0 in Hget0.
  assert (Hstep1 : (step <$> out1.1 !! "42") = Some AWAITING_SECOND_POINT).
  { unfold out1. rewrite (process_first_point _ _ _ _ _ _ _ Hget0) by done.
    cbn [fst]. by rewrite lookup_insert_eq. }
  destruct (two_points_give_result (Some "Surabaya") None 1 2 "42"
              (-7.257056) 112.648 (-7.6382862) 112.7372882 store0 _
              Hget0 eq_refl eq_refl Hstep1) as (Hreply & Hstate & _ & _).
  split; [exact Hstate |].
  eexists. split; [exact Hreply |].
  apply scenario_report.
Defined.

(** A first point whose reverse geocoding has no address. *)
Lemma geocoder_no_address_placeholder_witness :
  let store0 := (startMeasurement 0 "42" None ∅).1 in
  processLocationForMeasurement (AxiosResponse None) 1 "42" 0 0 store0
  = (<[ "42" :=
        mkUserMeasurementState true
          (Some (mkLocationPoint 0 0 (Some "Lokasi tidak diketahui")))
          None 1 (Some foot) ]> store0,
     Resolved (ReplyFirstPoint
                 (firstPointMessage "Lokasi tidak diketahui" 0 0))).
Proof.
  intros store0.
  pose proof (startMeasurement_lookup 0 "42" None ∅) as Hget0.
  fold store0 in Hget0.
  destruct (geocoder_no_address_placeholder 1 "42" 0 0 store0 _ None
              Hget0 eq_refl eq_refl) as (Hfirst & _ & _).
  exact (Hfirst eq_refl).
Defined.

End MeasurementExamples.

(** ** The insertion-ordered map *)

Section JsMapFacts.
Context {K V : Type} `{EqDecision K}.
Implicit Types (m : list (K * V)) (k : K) (v : V).

Lemma JsMap_get_set_eq m k v : JsMap.get k (JsMap.set k v m) = Some v.
Proof.
  induction m as [| [k' v'] m IH]; simpl.
  - by rewrite decide_True.
  - destruct (decide (k = k')) as [-> | Hne]; simpl.
    + by rewrite decide_True.
    + by rewrite decide_False.
Qed.

Lemma JsMap_get_set_ne m k k' v :
  k ≠ k' → JsMap.get k (JsMap.set k' v m) = JsMap.get k m.
Proof.
  intros Hne. induction m as [| [k'' v''] m IH]; simpl.
  - by rewrite decide_False.
  - destruct (decide (k' = k'')) as [-> | Hne']; simpl.
    + by rewrite !decide_False.
    + destruct (decide (k = k'')); [done | exact IH].
Qed.

Lemma JsMap_set_keys m k v :
  is_Some (JsMap.get k m) → (JsMap.set k v m).*1 = m.*1.
Proof.
  induction m as [| [k' v'] m IH]; simpl.
  - by intros [? ?].
  - destruct (decide (k = k')) as [-> | Hne]; simpl; [done |].
    intros Hsome. f_equal. by apply IH.
Qed.

Lemma JsMap_get_None m k : JsMap.get k m = None ↔ k ∉ m.*1.
Proof.
  induction m as [| [k' v'] m IH]; simpl.
  - split; [intros _; apply not_elem_of_nil | done].
  - rewrite not_elem_of_cons. destruct (decide (k = k')) as [-> | Hne].
    + split; [done | by intros [? _]].
    + rewrite IH. split; [by intros ? | by intros [_ ?]].
Qed.

Lemma JsMap_set_key_elem m k v k' :
  k' ∈ (JsMap.set k v m).*1 → k' = k ∨ k' ∈ m.*1.
Proof.
  induction m as [| [k'' v''] m IH]; simpl.
  - intros Hin. apply list_elem_of_singleton in Hin. by left.
  - destruct (decide (k = k'')) as [-> | Hne]; simpl.
    + intros Hin. by right.
    + intros Hin. apply elem_of_cons in Hin as [-> | Hin].
      * right. apply elem_of_cons. by left.
      * destruct (IH Hin) as [-> | Hm]; [by left |].
        right. apply elem_of_cons. by right.
Qed.

Lemma JsMap_set_NoDup m k v : NoDup m.*1 → NoDup (JsMap.set k v m).*1.
Proof.
  induction m as [| [k' v'] m IH]; simpl; intros Hnd.
  - apply NoDup_singleton.
  - apply list.NoDup_cons in Hnd as [Hnotin Hnd].
    destruct (decide (k = k')) as [-> | Hne]; simpl.
    + by apply list.NoDup_cons.
    + apply list.NoDup_cons. split; [| by apply IH].
      intros Hin. apply JsMap_set_key_elem in Hin as [-> | Hin]; done.
Qed.

(** With one entry per key, [get] finds every entry. *)
Lemma JsMap_get_elem m k v :
  NoDup m.*1 → (k, v) ∈ m → JsMap.get k m = Some v.
Proof.
  induction m as [| [k' v'] m IH]; simpl; intros Hnd Hin.
  - by apply elem_of_nil in Hin.
  - apply list.NoDup_cons in Hnd as [Hnotin Hnd].
    apply elem_of_cons in Hin as [Heq | Hin].
    + injection Heq as -> ->. by rewrite decide_True.
    + destruct (decide (k = k')) as [-> | Hne]; [| by apply IH].
      exfalso. apply Hnotin. apply list_elem_of_fmap. by exists (k', v).
Qed.

Lemma JsMap_elem_get m k v : JsMap.get k m = Some v → (k, v) ∈ m.
Proof.
  induction m as [| [k' v'] m IH]; simpl; [done |].
  destruct (decide (k = k')) as [-> | Hne].
  - intros [= ->]. apply elem_of_cons. by left.
  - intros Hget. apply elem_of_cons. right. by apply IH.
Qed.

End JsMapFacts.

(** ** The mode manager (C1, C7, C8) *)

Section ModeManagerFacts.
Import ModeManager.

(** Whether [setUserMode] cleans up: the user has a mode and it differs
    from the new one. *)
Lemma setUserMode_userModes (now userId : Z) (mode : BotMode) (w : World) :
  userModes (setUserMode now userId mode w)
  = JsMap.set userId
      (mkUserModeState userId mode (getUserMode userId w) now now)
      (userModes w).
Proof.
  unfold setUserMode, getUserMode.
  destruct (JsMap.get userId (userModes w) ≫= currentMode) as [prev |];
    [| done].
  destruct (bool_decide (Some prev ≠ mode)); [| done].
  unfold cleanupModeState, cleanupUserState, emit. done.
Qed.

Lemma setUserMode_switch (now userId : Z) (prev : Mode) (mode : BotMode)
    (w : World) :
  getUserMode userId w = Some prev → Some prev ≠ mode →
  trace (setUserMode now userId mode w)
    = trace w ++ [ModeCleanup userId (Some prev)] ∧
  featureStates (setUserMode now userId mode w)
    = <[prev := delete userId (featureStates w prev)]> (featureStates w).
Proof.
  intros Hmode Hne. unfold setUserMode. unfold getUserMode in Hmode.
  rewrite Hmode. by rewrite bool_decide_eq_true_2.
Qed.

Lemma setUserMode_no_switch (now userId : Z) (mode : BotMode) (w : World) :
  getUserMode userId w = None ∨ getUserMode userId w = mode →
  trace (setUserMode now userId mode w) = trace w ∧
  featureStates (setUserMode now userId mode w) = featureStates w.
Proof.
  unfold setUserMode, getUserMode.
  destruct (JsMap.get userId (userModes w) ≫= currentMode) as [prev |];
    [| done].
  intros [? | <-]; [done |].
  by rewrite bool_decide_eq_false_2 by (intros Hne; by apply Hne).
Qed.

Lemma getUserMode_setUserMode (now userId : Z) (mode : BotMode) (w : World) :
  getUserMode userId (setUserMode now userId mode w) = mode.
Proof.
  unfold getUserMode at 1. rewrite setUserMode_userModes.
  by rewrite JsMap_get_set_eq.
Qed.

Lemma get_setUserMode_other (now userId other : Z) (mode : BotMode)
    (w : World) :
  other ≠ userId →
  JsMap.get other (userModes (setUserMode now userId mode w))
    = JsMap.get other (userModes w).
Proof.
  intros Hne. rewrite setUserMode_userModes. by apply JsMap_get_set_ne.
Qed.

Lemma setUserMode_oneEntryPerUser (now userId : Z) (mode : BotMode)
    (w : World) :
  oneEntryPerUser w → oneEntryPerUser (setUserMode now userId mode w).
Proof.
  unfold oneEntryPerUser. rewrite setUserMode_userModes.
  apply JsMap_set_NoDup.
Qed.

(** *** The inactivity sweep *)

Lemma sweep_fold (now timeout : Z) (entries : list (Z * UserModeState))
    (acc : World) :
  NoDup entries.*1 →
  (∀ k s, (k, s) ∈ entries → JsMap.get k (userModes acc) = Some s) →
  let swept := fold_left (sweepStep now timeout) entries acc in
  (∀ k s, (k, s) ∈ entries → now - lastActivity s > timeout →
     getUserMode k swept = None) ∧
  (∀ k s, (k, s) ∈ entries → ¬ now - lastActivity s > timeout →
     JsMap.get k (userModes swept) = Some s) ∧
  (∀ k, k ∉ entries.*1 →
     JsMap.get k (userModes swept) = JsMap.get k (userModes acc)).
Proof.
  revert acc. induction entries as [| [k0 s0] entries IH]; intros acc Hnd Hacc.
  - cbn. split_and!; [| | done]; intros k s Hin; by apply elem_of_nil in Hin.
  - apply list.NoDup_cons in Hnd as [Hnotin Hnd]. cbn [fold_left].
    set (acc1 := sweepStep now timeout acc (k0, s0)).
    assert (Hother : ∀ k, k ≠ k0 →
              JsMap.get k (userModes acc1) = JsMap.get k (userModes acc)).
    { intros k Hne. unfold acc1, sweepStep. cbn [fst snd].
      destruct (bool_decide _); [by apply get_setUserMode_other | done]. }
    assert (Hacc1 : ∀ k s, (k, s) ∈ entries →
              JsMap.get k (userModes acc1) = Some s).
    { intros k s Hin. rewrite Hother.
      - apply Hacc. apply elem_of_cons. by right.
      - intros ->. apply Hnotin. apply list_elem_of_fmap. by exists (k0, s). }
    destruct (IH acc1 Hnd Hacc1) as (IHexp & IHkeep & IHout).
    split_and!.
    + intros k s Hin Hexp. apply elem_of_cons in Hin as [Heq | Hin];
        [| by eapply IHexp].
      injection Heq as -> ->. unfold getUserMode. rewrite IHout by done.
      unfold acc1, sweepStep. cbn [fst snd].
      rewrite bool_decide_eq_true_2 by done.
      fold (getUserMode k0 (setUserMode now k0 None acc)).
      apply getUserMode_setUserMode.
    + intros k s Hin Hkeep. apply elem_of_cons in Hin as [Heq | Hin];
        [| by eapply IHkeep].
      injection Heq as -> ->. rewrite IHout by done.
      unfold acc1, sweepStep. cbn [fst snd].
      rewrite bool_decide_eq_false_2 by done.
      apply Hacc. apply elem_of_cons. by left.
    + intros k Hk. apply not_elem_of_cons in Hk as [Hne Hk].
      rewrite IHout by done. by apply Hother.
Qed.

Lemma cleanupInactiveSessions_fold (now : Z) (timeoutMs : option Z)
    (w : World) :
  cleanupInactiveSessions now timeoutMs w
  = fold_left (sweepStep now (default defaultTimeoutMs timeoutMs))
              (userModes w) w.
Proof. reflexivity. Qed.

Lemma sweep_sessions (now : Z) (timeoutMs : option Z) (w : World) :
  oneEntryPerUser w →
  let timeout := default defaultTimeoutMs timeoutMs in
  let swept := cleanupInactiveSessions now timeoutMs w in
  ∀ userId,
    match JsMap.get userId (userModes w) with
    | Some s =>
        (now - lastActivity s > timeout → getUserMode userId swept = None) ∧
        (¬ now - lastActivity s > timeout →
         JsMap.get userId (userModes swept) = Some s)
    | None => JsMap.get userId (userModes swept) = None
    end.
Proof.
  intros Hnd timeout swept userId.
  destruct (sweep_fold now timeout (userModes w) w Hnd) as (Hexp & Hkeep & Hout).
  { intros k s Hin. by apply JsMap_get_elem. }
  unfold swept. rewrite cleanupInactiveSessions_fold. fold timeout.
  destruct (JsMap.get userId (userModes w)) as [s |] eqn:Hget.
  - apply JsMap_elem_get in Hget. split; intros ?; [by eapply Hexp | by eapply Hkeep].
  - rewrite Hout; [done |]. by apply JsMap_get_None.
Qed.

(** The feature states under the sweep: [setUserMode] only ever deletes the
    state of the user it is called for. *)
Lemma featureStates_setUserMode_other (now userId other : Z) (mode : BotMode)
    (m : Mode) (w : World) :
  other ≠ userId →
  featureStates (setUserMode now userId mode w) m !! other
    = featureStates w m !! other.
Proof.
  intros Hne. unfold setUserMode.
  destruct (JsMap.get userId (userModes w) ≫= currentMode) as [prev |];
    [| done].
  destruct (bool_decide (Some prev ≠ mode)); [| done]. cbn.
  destruct (decide (prev = m)) as [-> | Hm].
  - by rewrite fn_lookup_insert, lookup_delete_ne.
  - by rewrite fn_lookup_insert_ne.
Qed.

Lemma featureStates_setUserMode_absent (now userId k : Z) (mode : BotMode)
    (m : Mode) (w : World) :
  featureStates w m !! k = None →
  featureStates (setUserMode now userId mode w) m !! k = None.
Proof.
  intros Habsent. unfold setUserMode.
  destruct (JsMap.get userId (userModes w) ≫= currentMode) as [prev |];
    [| done].
  destruct (bool_decide (Some prev ≠ mode)); [| done]. cbn.
  destruct (decide (prev = m)) as [-> | Hm].
  - rewrite fn_lookup_insert. apply lookup_delete_None. by right.
  - by rewrite fn_lookup_insert_ne.
Qed.

Lemma featureStates_setUserMode_null (now userId : Z) (m : Mode) (w : World) :
  getUserMode userId w = Some m →
  featureStates (setUserMode now userId None w) m !! userId = None.
Proof.
  intros Hmode.
  destruct (setUserMode_switch now userId m None w Hmode ltac:(done))
    as [_ ->].
  by rewrite fn_lookup_insert, lookup_delete_eq.
Qed.

Lemma sweep_fold_featureStates_absent (now timeout : Z)
    (entries : list (Z * UserModeState)) (acc : World) (m : Mode) (k : Z) :
  featureStates acc m !! k = None →
  featureStates (fold_left (sweepStep now timeout) entries acc) m !! k = None.
Proof.
  revert acc. induction entries as [| entry entries IH]; intros acc Habsent;
    [done |].
  cbn [fold_left]. apply IH. unfold sweepStep.
  destruct (bool_decide _); [by apply featureStates_setUserMode_absent | done].
Qed.

Lemma sweep_fold_featureStates_keep (now timeout : Z)
    (entries : list (Z * UserModeState)) (acc : World) (m : Mode) (k : Z) :
  (∀ s, (k, s) ∈ entries → ¬ now - lastActivity s > timeout) →
  featureStates (fold_left (sweepStep now timeout) entries acc) m !! k
    = featureStates acc m !! k.
Proof.
  revert acc. induction entries as [| [k0 s0] entries IH]; intros acc Hkeep;
    [done |].
  cbn [fold_left]. rewrite IH.
  - unfold sweepStep. cbn [fst snd].
    destruct (decide (now - lastActivity s0 > timeout)) as [Hexp | Hfresh].
    + rewrite bool_decide_eq_true_2 by done.
      apply featureStates_setUserMode_other. intros ->.
      apply (Hkeep s0); [apply elem_of_cons; by left | done].
    + by rewrite bool_decide_eq_false_2.
  - intros s Hin. apply Hkeep. apply elem_of_cons. by right.
Qed.

Lemma sweep_fold_featureStates_expired (now timeout : Z)
    (entries : list (Z * UserModeState)) (acc : World) :
  NoDup entries.*1 →
  (∀ k s, (k, s) ∈ entries → JsMap.get k (userModes acc) = Some s) →
  ∀ k s m, (k, s) ∈ entries → now - lastActivity s > timeout →
    currentMode s = Some m →
    featureStates (fold_left (sweepStep now timeout) entries acc) m !! k = None.
Proof.
  revert acc. induction entries as [| [k0 s0] entries IH];
    intros acc Hnd Hacc k s m Hin Hexp Hmode.
  - by apply elem_of_nil in Hin.
  - apply list.NoDup_cons in Hnd as [Hnotin Hnd]. cbn [fold_left].
    apply elem_of_cons in Hin as [Heq | Hin].
    + injection Heq as -> ->.
      apply sweep_fold_featureStates_absent. unfold sweepStep. cbn [fst snd].
      rewrite bool_decide_eq_true_2 by done.
      apply featureStates_setUserMode_null. unfold getUserMode.
      rewrite (Hacc k0 s0); [done | apply elem_of_cons; by left].
    + apply (IH _ Hnd) with (s := s); [| done..].
      intros k' s' Hin'. unfold sweepStep. cbn [fst snd].
      assert (k' ≠ k0).
      { intros ->. apply Hnotin. apply list_elem_of_fmap. by exists (k0, s'). }
      destruct (bool_decide _); [rewrite get_setUserMode_other by done |];
        apply Hacc; apply elem_of_cons; by right.
Qed.

(** The sweep of the manager and the states of the features. *)
Lemma sweep_featureStates (now : Z) (timeoutMs : option Z) (w : World) :
  oneEntryPerUser w →
  let timeout := default defaultTimeoutMs timeoutMs in
  let swept := cleanupInactiveSessions now timeoutMs w in
  ∀ userId m,
    match JsMap.get userId (userModes w) with
    | Some s =>
        (now - lastActivity s > timeout → currentMode s = Some m →
         featureStates swept m !! userId = None) ∧
        (¬ now - lastActivity s > timeout →
         featureStates swept m !! userId = featureStates w m !! userId)
    | None => featureStates swept m !! userId = featureStates w m !! userId
    end.
Proof.
  intros Hnd timeout swept userId m. unfold swept.
  rewrite cleanupInactiveSessions_fold. fold timeout.
  destruct (JsMap.get userId (userModes w)) as [s |] eqn:Hget.
  - split.
    + intros Hexp Hmode.
      apply (sweep_fold_featureStates_expired now timeout (userModes w) w Hnd)
        with (s := s); [| by apply JsMap_elem_get | done..].
      intros k s' Hin. by apply JsMap_get_elem.
    + intros Hfresh. apply sweep_fold_featureStates_keep.
      intros s' Hin. apply (JsMap_get_elem _ _ _ Hnd) in Hin.
      rewrite Hget in Hin. by injection Hin as <-.
  - apply sweep_fold_featureStates_keep. intros s' Hin.
    apply (JsMap_get_elem _ _ _ Hnd) in Hin. congruence.
Qed.

End ModeManagerFacts.

Section ModeTransitions.
Import ModeManager.

Lemma emptyWorld_oneEntryPerUser : oneEntryPerUser emptyWorld.
Proof. apply NoDup_nil_2. Qed.

Lemma updateLastActivity_oneEntryPerUser (now userId : Z) (w : World) :
  oneEntryPerUser w → oneEntryPerUser (updateLastActivity now userId w).
Proof.
  unfold oneEntryPerUser, updateLastActivity.
  destruct (JsMap.get userId (userModes w)); [| done].
  apply JsMap_set_NoDup.
Qed.

Lemma cleanupInactiveSessions_oneEntryPerUser (now : Z) (timeoutMs : option Z)
    (w : World) :
  oneEntryPerUser w → oneEntryPerUser (cleanupInactiveSessions now timeoutMs w).
Proof.
  unfold cleanupInactiveSessions. generalize (userModes w) as entries.
  intros entries. revert w.
  induction entries as [| entry entries IH]; intros w Hw; [done |].
  cbn [fold_left]. apply IH. unfold sweepStep.
  destruct (bool_decide _); [by apply setUserMode_oneEntryPerUser | done].
Qed.

(** *** The handlers as they are written

    Every handler reaches one of the exported functions before it does
    anything else with the manager; the call throws. *)
Lemma transitionToMode_unbound (now userId : Z) (newMode : BotMode)
    (bot : TelegramBot) (chatId : Z) (w : World) :
  transitionToMode now userId newMode bot chatId w
  = if bot chatId transitionFailedNotice
    then (emit (SendMessage chatId transitionFailedNotice) w, Resolved false)
    else (w, Rejected "sendMessage failed").
Proof.
  unfold transitionToMode, try_catch, mbind, Async_bind, Exports.getUserMode,
    method, sendMessage, transitionFailedNotice.
  by destruct (bot chatId _).
Qed.

Lemma handleCommand_unbound (mode : Mode) (now : Z) (command : string)
    (userId : option Z) (chatId : Z) (bot : TelegramBot) (routeThrows : bool)
    (w : World) :
  handleCommand mode now command userId chatId bot routeThrows w
  = match presentUserId userId with
    | Some _ => (w, Rejected (TypeError_undefined "getUserMode"))
    | None => (w, Resolved tt)
    end.
Proof. unfold handleCommand. by destruct (presentUserId userId). Qed.

Lemma handleMessage_unbound (mode : Mode) (now : Z) (userId : option Z)
    (chatId : Z) (bot : TelegramBot) (processThrows : bool) (w : World) :
  handleMessage mode now userId chatId bot processThrows w
  = match presentUserId userId with
    | Some _ => (w, Rejected (TypeError_undefined "getUserMode"))
    | None => (w, Resolved tt)
    end.
Proof. unfold handleMessage. by destruct (presentUserId userId). Qed.

Lemma requireMode_unbound {A} (requiredMode : BotMode) (method : Async A)
    (now : Z) (userId : option Z) (chatId : Z) (bot : TelegramBot) (w : World) :
  requireMode requiredMode method now userId chatId bot w
  = match presentUserId userId with
    | Some _ => (w, Rejected (TypeError_undefined "userModes"))
    | None => (w, Resolved None)
    end.
Proof. unfold requireMode. by destruct (presentUserId userId). Qed.

(** [enterMode]: the notice of the refusal when access is refused, the
    notice of the failure in every other case; when a notice cannot be sent
    the failure notice is tried, and the call is rejected when that fails
    too. *)
Lemma enterMode_unbound (mode : Mode) (now userId : Z) (bot : TelegramBot)
    (chatId : Z) (access : Promise bool) (welcome : string) (w : World) :
  enterMode mode now userId bot chatId access welcome w
  = let failed :=
      if bot chatId enterFailedNotice
      then (emit (SendMessage chatId enterFailedNotice) w, Resolved tt)
      else (w, Rejected "sendMessage failed") in
    match access with
    | Resolved false =>
        if bot chatId noAccessNotice
        then (emit (SendMessage chatId noAccessNotice) w, Resolved tt)
        else failed
    | _ => failed
    end.
Proof.
  unfold enterMode, try_catch, mbind, Async_bind, Exports.setUserMode, method,
    sendMessage, enterFailedNotice, noAccessNotice.
  destruct access as [[|]|e]; cbn [negb]; repeat (destruct (bot chatId _)); done.
Qed.

(** The events of the sweep are cleanup events. *)
Lemma sweep_fold_events (now timeout : Z) (entries : list (Z * UserModeState))
    (acc : World) :
  ∃ events,
    trace (fold_left (sweepStep now timeout) entries acc) = trace acc ++ events ∧
    Forall (λ e, ¬ reachesFeature e) events.
Proof.
  revert acc. induction entries as [| [k s] entries IH]; intros acc.
  - exists []. by rewrite app_nil_r.
  - cbn [fold_left].
    destruct (IH (sweepStep now timeout acc (k, s))) as (events & -> & Hevents).
    unfold sweepStep. cbn [fst snd].
    destruct (bool_decide (now - lastActivity s > timeout)); [| by exists events].
    unfold setUserMode.
    destruct (JsMap.get k (userModes acc) ≫= currentMode) as [prev |];
      [| by exists events].
    destruct (bool_decide (Some prev ≠ None)); [| by exists events].
    cbn. exists (ModeCleanup k (Some prev) :: events).
    rewrite <- app_assoc. split; [done |].
    apply list.Forall_cons. split; [by intros [] | done].
Qed.

(** No call of a session passes anything to a feature, and the events of
    the past stay where they are. *)
Lemma runOp_trace (now : Z) (bot : TelegramBot) (op : Op) (w : World) :
  ∃ events,
    trace (runOp now bot op w) = trace w ++ events ∧
    Forall (λ e, ¬ reachesFeature e) events.
Proof.
  assert (∃ events : list Event,
            trace w = trace w ++ events ∧
            Forall (λ e, ¬ reachesFeature e) events) as Hnone
    by (exists []; by rewrite app_nil_r).
  assert (∀ chatId text, ∃ events : list Event,
            trace (emit (SendMessage chatId text) w) = trace w ++ events ∧
            Forall (λ e, ¬ reachesFeature e) events) as Hsent.
  { intros chatId text. exists [SendMessage chatId text]. split; [done |].
    apply Forall_singleton. by intros []. }
  destruct op as [mode userId chatId access welcome | userId newMode chatId
                 | mode command userId chatId routeThrows
                 | mode userId chatId processThrows | userId | timeoutMs];
    cbn [runOp].
  - rewrite enterMode_unbound. cbn zeta.
    destruct access as [[|]|e]; repeat (destruct (bot chatId _)); cbn [fst];
      first [apply Hsent | apply Hnone].
  - rewrite transitionToMode_unbound.
    destruct (bot chatId _); cbn [fst]; first [apply Hsent | apply Hnone].
  - rewrite handleCommand_unbound. by destruct (presentUserId userId).
  - rewrite handleMessage_unbound. by destruct (presentUserId userId).
  - unfold updateLastActivity.
    by destruct (JsMap.get userId (userModes w)).
  - apply sweep_fold_events.
Qed.

Lemma runOps_trace (ops : list (Z * TelegramBot * Op)) (w : World) :
  ∃ events,
    trace (runOps ops w) = trace w ++ events ∧
    Forall (λ e, ¬ reachesFeature e) events.
Proof.
  unfold runOps. revert w. induction ops as [| op ops IH]; intros w.
  - exists []. by rewrite app_nil_r.
  - cbn [fold_left].
    destruct (runOp_trace op.1.1 op.1.2 op.2 w) as (first & Hfirst & Hnone).
    destruct (IH (runOp op.1.1 op.1.2 op.2 w)) as (rest & -> & Hrest).
    exists (first ++ rest). rewrite Hfirst, <- app_assoc. split; [done |].
    by apply Forall_app.
Qed.

End ModeTransitions.

Section ModeClaims.
Import ModeManager.

(** C1 as stated fails for the idempotence of [setUserMode]: entering the
    mode the user is already in overwrites the session, with the previous
    mode set to that mode and new timestamps. *)
Lemma setUserMode_same_mode_overwrites_session :
  let w1 := setUserMode 100 7 (Some LOCATION) emptyWorld in
  let w2 := setUserMode 200 7 (Some LOCATION) w1 in
  JsMap.get 7 (userModes w1)
    = Some (mkUserModeState 7 (Some LOCATION) None 100 100) ∧
  JsMap.get 7 (userModes w2)
    = Some (mkUserModeState 7 (Some LOCATION) (Some LOCATION) 200 200) ∧
  JsMap.get 7 (userModes w2) ≠ JsMap.get 7 (userModes w1).
Proof. by vm_compute. Qed.

(** C1, as amended.  On the manager, [setUserMode(U, A)] followed by
    [setUserMode(U, B)] with [B] different from [A] emits the cleanup of
    mode A (the handler of A drops the state it holds for the user) and then
    records the session with the new mode, [previousMode = A] and both
    timestamps set to the time of the call.  The cleanup is done when the
    call returns: whatever the mode system does afterwards comes after it in
    the events.  [setUserMode(U, A)] again while A is the current mode
    triggers no cleanup and leaves the handler states as they are, but it is
    not idempotent: it overwrites the session with [previousMode = A] and
    new timestamps. *)
Theorem mode_switch_cleanup_and_reentry
    (now1 now2 userId : Z) (A : Mode) (B : BotMode) (w : World) :
  B ≠ Some A →
  let w1 := setUserMode now1 userId (Some A) w in
  let w2 := setUserMode now2 userId B w1 in
  let again := setUserMode now2 userId (Some A) w1 in
  (trace w2 = trace w1 ++ [ModeCleanup userId (Some A)] ∧
   featureStates w2 A !! userId = None ∧
   JsMap.get userId (userModes w2)
     = Some (mkUserModeState userId B (Some A) now2 now2)) ∧
  (∀ ops : list (Z * TelegramBot * Op),
     ∃ later, trace (runOps ops w2)
              = trace w1 ++ ModeCleanup userId (Some A) :: later) ∧
  (trace again = trace w1 ∧ featureStates again = featureStates w1 ∧
   JsMap.get userId (userModes again)
     = Some (mkUserModeState userId (Some A) (Some A) now2 now2)).
Proof.
  intros HAB w1 w2 again.
  assert (Hmode1 : getUserMode userId w1 = Some A)
    by apply getUserMode_setUserMode.
  assert (Htrace : trace w2 = trace w1 ++ [ModeCleanup userId (Some A)]).
  { unfold w2.
    by destruct (setUserMode_switch now2 userId A B w1 Hmode1 ltac:(done))
      as [-> _]. }
  split_and!.
  - done.
  - unfold w2.
    destruct (setUserMode_switch now2 userId A B w1 Hmode1 ltac:(done))
      as [_ ->].
    by rewrite fn_lookup_insert, lookup_delete_eq.
  - unfold w2. rewrite setUserMode_userModes, JsMap_get_set_eq.
    by rewrite Hmode1.
  - intros ops. destruct (runOps_trace ops w2) as (later & -> & _).
    exists later. rewrite Htrace. by rewrite <- app_assoc.
  - unfold again.
    by destruct (setUserMode_no_switch now2 userId (Some A) w1) as [-> _];
      [right |].
  - unfold again.
    by destruct (setUserMode_no_switch now2 userId (Some A) w1) as [_ ->];
      [right |].
  - unfold again. rewrite setUserMode_userModes, JsMap_get_set_eq.
    by rewrite Hmode1.
Qed.

(** LOCATION, then KML, for user 7. *)
Lemma mode_switch_cleanup_and_reentry_witness :
  let w1 := setUserMode 100 7 (Some LOCATION) emptyWorld in
  let w2 := setUserMode 200 7 (Some KML) w1 in
  trace w2 = trace w1 ++ [ModeCleanup 7 (Some LOCATION)] ∧
  featureStates w2 LOCATION !! 7 = None ∧
  JsMap.get 7 (userModes w2)
    = Some (mkUserModeState 7 (Some KML) (Some LOCATION) 200 200).
Proof.
  intros w1 w2.
  assert (Hne : Some KML ≠ Some LOCATION) by discriminate.
  destruct (mode_switch_cleanup_and_reentry 100 200 7 LOCATION (Some KML)
              emptyWorld Hne) as (Hswitched & _).
  exact Hswitched.
Defined.

(** C8 as stated fails for a session idle beyond the timeout that the sweep
    has not visited: [getUserMode] still reports its mode. *)
Lemma idle_session_keeps_its_mode :
  let w := setUserMode 0 7 (Some KML) emptyWorld in
  let now := 86400000 in
  (lastActivity <$> JsMap.get 7 (userModes w)) = Some 0 ∧
  now - 0 > defaultTimeoutMs ∧
  getUserMode 7 w = Some KML ∧
  getUserMode 7 (cleanupInactiveSessions now None w) = None.
Proof. by vm_compute. Qed.

(** C8, as amended.  [getUserMode] returns [null] (no mode) when the user
    has no session; for a session it returns the stored mode, whatever the
    time of the last activity.  A session idle beyond the timeout reports
    no mode once the sweep has run. *)
Theorem getUserMode_reads_stored_mode (userId : Z) (w : World) :
  (JsMap.get userId (userModes w) = None → getUserMode userId w = None) ∧
  (∀ session, JsMap.get userId (userModes w) = Some session →
     getUserMode userId w = currentMode session) ∧
  (∀ now timeoutMs session,
     oneEntryPerUser w →
     JsMap.get userId (userModes w) = Some session →
     now - lastActivity session > default defaultTimeoutMs timeoutMs →
     getUserMode userId (cleanupInactiveSessions now timeoutMs w) = None).
Proof.
  unfold getUserMode. split_and!.
  - by intros ->.
  - by intros session ->.
  - intros now timeoutMs session Hw Hget Hidle.
    pose proof (sweep_sessions now timeoutMs w Hw userId) as Hsweep.
    cbn zeta in Hsweep. rewrite Hget in Hsweep. by apply Hsweep.
Qed.

End ModeClaims.

(** ** The KML service (C10) *)

Section KmlFacts.
Import KmlService.

(** What the test of [addPoint] lets through. *)
Lemma outOfRange_spec (latitude longitude : number) :
  outOfRange latitude longitude = false ↔ passesRangeTest latitude longitude.
Proof.
  unfold outOfRange, passesRangeTest, withinOrNaN, Number_lt.
  destruct latitude as [lat | | |], longitude as [lon | | |];
    repeat (destruct (Rlt_dec _ _)); cbn; split;
    try done; try (intros; lra); try (intros [? ?]; done);
    try (intros [? ?]; lra).
Qed.

Lemma outOfRange_false (lat lon : R) :
  (-90 <= lat <= 90)%R → (-180 <= lon <= 180)%R →
  outOfRange (Finite lat) (Finite lon) = false.
Proof. intros Hlat Hlon. by apply outOfRange_spec. Qed.
Context `{JsNumberPrinter}.

Lemma fold_left_append {A} (f : A → string) (items : list A) (init : string) :
  fold_left (λ acc x, acc +:+ f x) items init
  = init +:+ concatStrings (f <$> items).
Proof.
  revert init. induction items as [| x items IH]; intros init; cbn.
  - by rewrite append_nil_r.
  - rewrite IH. by rewrite append_assoc.
Qed.

(** The loop over the saved lines, with its early [return] for a line of
    fewer than two coordinates, adds the placemarks of the other lines. *)
Lemma fold_left_lines (lines : list LineTrack) (init : string) :
  fold_left
    (λ acc line,
       if bool_decide (length (coordinates line) < 2)%nat then acc
       else acc +:+ lineStringPlacemark (escapeXml (line_name line))
                      (coordinates line))
    lines init
  = init +:+
    concatStrings
      ((λ line, lineStringPlacemark (escapeXml (line_name line))
                  (coordinates line))
       <$> filter (λ line, (2 ≤ length (coordinates line))%nat) lines).
Proof.
  revert init. induction lines as [| line lines IH]; intros init.
  - cbn. by rewrite append_nil_r.
  - cbn [fold_left]. rewrite IH.
    destruct (decide (length (coordinates line) < 2)%nat) as [Hlt | Hge].
    + rewrite bool_decide_eq_true_2 by done.
      rewrite filter_cons_False by lia. done.
    + rewrite bool_decide_eq_false_2 by done.
      rewrite filter_cons_True by lia. cbn. by rewrite append_assoc.
Qed.

Lemma createKmlContent_placemarks (userData : UserKmlData) (docName : string) :
  createKmlContent userData docName
  = kmlDocument docName
      (concatStrings (pointPlacemark <$> placemarks userData) +:+
       concatStrings
         (savedLinePlacemark
          <$> filter (λ line, (2 ≤ length (coordinates line))%nat)
                (lines userData)) +:+
       activeLinePlacemark userData).
Proof.
  unfold createKmlContent, activeLinePlacemark.
  rewrite fold_left_lines, fold_left_append. f_equal.
  fold savedLinePlacemark.
  destruct (activeLine userData) as [line |].
  - destruct (bool_decide (2 ≤ length (points line))%nat).
    + by rewrite !append_assoc.
    + by rewrite append_nil_r, !append_assoc.
  - by rewrite append_nil_r, !append_assoc.
Qed.

(** *** The invariant *)

Lemma linesValid_put (telegramId : string) (data : UserKmlData) (svc : Service) :
  linesValid svc →
  Forall (λ line, (2 ≤ length (coordinates line))%nat) (lines data) →
  linesValid (putUserKmlData telegramId data svc).
Proof.
  intros Hinv Hdata id d Hget. unfold putUserKmlData in Hget. cbn in Hget.
  destruct (decide (telegramId = id)) as [-> | Hne].
  - rewrite lookup_insert_eq in Hget. by injection Hget as <-.
  - rewrite lookup_insert_ne in Hget by done. by eapply Hinv.
Qed.

Lemma linesValid_names (svc : Service) (names : gmap string string) :
  linesValid svc → linesValid (mkService (userKmlData svc) names).
Proof. done. Qed.

Lemma linesValid_init (telegramId : string) (svc : Service) :
  linesValid svc → linesValid (initUserKmlData telegramId svc).1.
Proof.
  intros Hinv. apply (linesValid_put telegramId defaultData svc Hinv).
  constructor.
Qed.

Lemma getUserKmlData_spec (telegramId : string) (svc : Service) :
  linesValid svc →
  linesValid (getUserKmlData telegramId svc).1 ∧
  Forall (λ line, (2 ≤ length (coordinates line))%nat)
         (lines (getUserKmlData telegramId svc).2).
Proof.
  intros Hinv. unfold getUserKmlData.
  destruct (userKmlData svc !! telegramId) as [data |] eqn:Hget; cbn.
  - split; [done | by eapply Hinv].
  - split; [by apply linesValid_init | constructor].
Qed.

Lemma getUserKmlData_present (telegramId : string) (svc : Service)
    (data : UserKmlData) :
  userKmlData svc !! telegramId = Some data →
  getUserKmlData telegramId svc = (svc, data).
Proof. intros Hget. unfold getUserKmlData. by rewrite Hget. Qed.

Ltac kml_start telegramId svc Hinv :=
  let Hinv1 := fresh "Hinv1" in
  let Hlines := fresh "Hlines" in
  destruct (getUserKmlData_spec telegramId svc Hinv) as [Hinv1 Hlines];
  destruct (getUserKmlData telegramId svc) as [svc1 userData];
  cbn [fst snd] in Hinv1, Hlines.

Ltac kml_put := first
  [ assumption
  | apply linesValid_put; [kml_put | cbn; try assumption]
  | apply linesValid_names; kml_put ].

Lemma pickPointName_linesValid (telegramId : string) (userData : UserKmlData)
    (numbered : string) (svc : Service) :
  linesValid svc →
  linesValid (pickPointName telegramId userData numbered svc).1.
Proof.
  intros Hinv. unfold pickPointName.
  by destruct (truthy (nextPointNames svc !! telegramId)).
Qed.

Lemma run_linesValid (now : Z) (telegramId : string) (cmd : Command)
    (svc : Service) :
  linesValid svc → linesValid (run now telegramId cmd svc).1.
Proof.
  intros Hinv.
  destruct cmd as [userFound | pointName | pointName | lat lon pointName
                  | lat lon | lineName | | | | docName |];
    cbn [run text document fst].
  - unfold handleKmlCommand. destruct userFound; cbn [fst]; [| done].
    by apply linesValid_init.
  - unfold setAlwaysPoint. kml_start telegramId svc Hinv.
    destruct (nonBlank pointName); cbn [fst]; kml_put.
  - done.
  - unfold addPoint. kml_start telegramId svc Hinv.
    destruct (outOfRange lat lon); [done |].
    destruct (activeLine userData) as [line |].
    + unfold pushOnActiveLine. cbn [fst]. kml_put.
    + destruct (truthy pointName); cbn [fst].
      * unfold pushPlacemark. kml_put.
      * pose proof (pickPointName_linesValid telegramId userData "Titik "
                      svc1 Hinv1) as Hpick.
        destruct (pickPointName _ _ _ _) as [svc2 finalName]. cbn [fst] in *.
        unfold pushPlacemark. kml_put.
  - unfold handleLocation. kml_start telegramId svc Hinv.
    destruct (activeLine userData) as [line |].
    + unfold pushOnActiveLine. cbn [fst]. kml_put.
    + pose proof (pickPointName_linesValid telegramId userData
                    "Titik Terlampir " svc1 Hinv1) as Hpick.
      destruct (pickPointName _ _ _ _) as [svc2 finalName]. cbn [fst] in *.
      unfold pushPlacemark. kml_put.
  - unfold startLine. kml_start telegramId svc Hinv.
    destruct (activeLine userData); cbn [fst]; kml_put.
  - unfold endLine. kml_start telegramId svc Hinv.
    destruct (activeLine userData) as [line |]; [| done].
    destruct (decide (length (points line) < 2)%nat) as [Hlt | Hge].
    + by rewrite bool_decide_eq_true_2.
    + rewrite bool_decide_eq_false_2 by done. cbn [fst].
      apply linesValid_put; [done |]. cbn.
      apply Forall_app. split; [done |]. constructor; [cbn; lia | constructor].
  - unfold cancelLine. kml_start telegramId svc Hinv.
    destruct (activeLine userData); cbn [fst]; kml_put.
  - unfold getMyData. kml_start telegramId svc Hinv.
    repeat match goal with
           | |- context [let '(_, _) := ?x in _] => destruct x
           | |- context [match ?x with _ => _ end] => destruct x
           end; done.
  - unfold createKml. kml_start telegramId svc Hinv.
    by destruct (_ && _).
  - unfold clearData. cbn [fst]. apply linesValid_names.
    by apply linesValid_init.
Qed.

Lemma runAll_linesValid (events : list (Z * string * Command)) :
  linesValid (runAll events emptyService).
Proof.
  unfold runAll.
  assert (Hgen : ∀ svc, linesValid svc →
            linesValid
              (fold_left (λ acc ev, (run ev.1.1 ev.1.2 ev.2 acc).1) events svc)).
  { induction events as [| ev events IH]; intros svc Hinv; [done |].
    cbn [fold_left]. apply IH. by apply run_linesValid. }
  apply Hgen. intros id data Hget. cbn in Hget. by rewrite lookup_empty in Hget.
Qed.

Lemma endLine_too_few_points (now : Z) (telegramId : string) (svc : Service)
    (data : UserKmlData) (line : ActiveLine) :
  userKmlData svc !! telegramId = Some data →
  activeLine data = Some line →
  (length (points line) < 2)%nat →
  endLine now telegramId svc = (svc, tooFewPointsWarning line).
Proof.
  intros Hget Hline Hshort. unfold endLine.
  rewrite (getUserKmlData_present _ _ _ Hget), Hline.
  by rewrite bool_decide_eq_true_2.
Qed.

End KmlFacts.

Section KmlClaims.
Import KmlService.
Context `{JsNumberPrinter}.

(** C10.  Every line in the finished lines of a user has at least two
    coordinates: this holds in every state the service reaches from its
    start, and every command keeps it.  [endLine] on an active line of
    fewer than two points answers with the warning and leaves the service
    as it is (the line is neither saved nor dropped).  The generated KML
    has a [LineString] placemark for exactly the saved lines of at least two
    coordinates, and one for the active line when it has at least two
    points. *)
Theorem finished_lines_have_two_points :
  (∀ events : list (Z * string * Command),
     linesValid (runAll events emptyService)) ∧
  (∀ (now : Z) (telegramId : string) (cmd : Command) (svc : Service),
     linesValid svc → linesValid (run now telegramId cmd svc).1) ∧
  (∀ (now : Z) (telegramId : string) (svc : Service) (data : UserKmlData)
     (line : ActiveLine),
     userKmlData svc !! telegramId = Some data →
     activeLine data = Some line →
     (length (points line) < 2)%nat →
     endLine now telegramId svc = (svc, tooFewPointsWarning line)) ∧
  (∀ (userData : UserKmlData) (docName : string),
     createKmlContent userData docName
     = kmlDocument docName
         (concatStrings (pointPlacemark <$> placemarks userData) +:+
          concatStrings
            (savedLinePlacemark
             <$> filter (λ line, (2 ≤ length (coordinates line))%nat)
                   (lines userData)) +:+
          activeLinePlacemark userData)) ∧
  (∀ (userData : UserKmlData) (line : ActiveLine),
     activeLine userData = Some line → (length (points line) < 2)%nat →
     activeLinePlacemark userData = "").
Proof.
  split_and!.
  - apply runAll_linesValid.
  - apply run_linesValid.
  - apply endLine_too_few_points.
  - apply createKmlContent_placemarks.
  - intros userData line Hline Hshort. unfold activeLinePlacemark.
    rewrite Hline. by rewrite bool_decide_eq_false_2 by lia.
Qed.

End KmlClaims.

(** ** Further properties of the calculator and the workflow *)

Section Further.
Local Open Scope R_scope.
Import LocationService.

Lemma haversine_a_symmetric (lat1 lon1 lat2 lon2 : R) :
  haversine_a lat1 lon1 lat2 lon2 = haversine_a lat2 lon2 lat1 lon1.
Proof.
  unfold haversine_a.
  replace ((lat1 - lat2) * PI / 180 / 2)
    with (- ((lat2 - lat1) * PI / 180 / 2)) by lra.
  replace ((lon1 - lon2) * PI / 180 / 2)
    with (- ((lon2 - lon1) * PI / 180 / 2)) by lra.
  rewrite !sin_neg. ring.
Qed.

(** X1.  The distance does not depend on the order of the two points. *)
Theorem calculateDistance_symmetric (lat1 lon1 lat2 lon2 : R) :
  calculateDistance lat1 lon1 lat2 lon2 = calculateDistance lat2 lon2 lat1 lon1.
Proof.
  unfold calculateDistance. by rewrite haversine_a_symmetric.
Qed.

(** The scenario by car: between 3133 s and 3134 s, a little over 52
    minutes, reported as "43.52 kilometer" and "52 menit". *)
Theorem scenario_by_car_52_minutes `{JsNumberPrinter} :
  let d := calculateDistance (-7.257056) 112.648 (-7.6382862) 112.7372882 in
  3133 < estimatedTime d car < 3134 ∧
  formatDistance d = "43.52 kilometer" ∧
  formatDuration (estimatedTime d car) = "52 menit".
Proof. apply scenario_report. Qed.

End Further.

Section FurtherWorkflow.
Import LocationService.
Context `{JsNumberPrinter}.

(** X2.  A point sent when no measurement is active (no state, or a state that
    is not active, as after a completed or cancelled measurement) is
    answered with [null] and changes nothing; no request is made. *)
Theorem point_ignored_without_active_measurement
    (http : AxiosOutcome) (now : Z) (telegramId : string) (lat lon : R)
    (store : Store) :
  (store !! telegramId = None →
   processLocationForMeasurement http now telegramId lat lon store
     = (store, Resolved ReplyNull)) ∧
  (∀ now0 http0 lat0 lon0 state first,
     store !! telegramId = Some state → isActive state = true →
     firstPoint state = Some first → secondPoint state = None →
     let finished :=
       (processLocationForMeasurement (AxiosResponse http0) now0 telegramId
          lat0 lon0 store).1 in
     processLocationForMeasurement http now telegramId lat lon finished
       = (finished, Resolved ReplyNull)) ∧
  (∀ now0 state,
     store !! telegramId = Some state → isActive state = true →
     let cancelled := (cancelMeasurement now0 telegramId store).1 in
     processLocationForMeasurement http now telegramId lat lon cancelled
       = (cancelled, Resolved ReplyNull)).
Proof.
  split_and!.
  - intros Hnone. apply process_not_active. intros state Hget. congruence.
  - intros now0 http0 lat0 lon0 state first Hget Hactive Hfirst Hsecond.
    rewrite (process_second_point _ _ _ _ _ _ _ _ Hget Hactive Hfirst Hsecond).
    cbn [fst]. apply process_not_active. intros st Hst.
    rewrite lookup_insert_eq in Hst. by injection Hst as <-.
  - intros now0 state Hget Hactive.
    rewrite (cancel_active _ _ _ _ Hget Hactive). cbn [fst].
    apply process_not_active. intros st Hst.
    rewrite lookup_insert_eq in Hst. by injection Hst as <-.
Qed.

End FurtherWorkflow.

(** ** Examples *)

Section Examples.
Local Existing Instance integerPrinter.


(** /ukur, a first point, /batal. *)
Lemma cancel_resets_active_measurement_witness :
  let store0 := (LocationService.startMeasurement 0 "42" None ∅).1 in
  let store1 :=
    (LocationService.processLocationForMeasurement
       (LocationService.AxiosResponse (Some "Surabaya")) 1 "42" 0 0 store0).1 in
  let out := LocationService.cancelMeasurement 2 "42" store1 in
  (LocationService.step <$> store1 !! "42")
    = Some LocationService.AWAITING_SECOND_POINT ∧
  out.2 = "Pengukuran jarak dan rute dibatalkan." ∧
  (LocationService.step <$> out.1 !! "42")
    = Some LocationService.AWAITING_FIRST_POINT ∧
  (LocationService.firstPoint <$> out.1 !! "42") = Some None.
Proof.
  intros store0 store1 out.
  pose proof (startMeasurement_lookup 0 "42" None ∅) as Hget0.
  fold store0 in Hget0.
  assert (Hget1 : store1 !! "42" =
            Some (LocationService.mkUserMeasurementState true
                    (Some (LocationService.mkLocationPoint 0 0
                             (Some "Surabaya"))) None 1
                    (Some LocationService.foot))).
  { unfold store1. rewrite (process_first_point _ _ _ _ _ _ _ Hget0) by done.
    cbn [fst]. by rewrite lookup_insert_eq. }
  destruct (cancel_resets_active_measurement 2 "42" store1)
    as (_ & Hactive & _).
  destruct (Hactive _ Hget1 eq_refl) as (Hreply & _ & Hstep & Hfirst).
  rewrite Hget1. done.
Defined.

(** A session left idle for a day, before and after the sweep. *)
Lemma getUserMode_reads_stored_mode_witness :
  let w := ModeManager.setUserMode 0 7 (Some ModeManager.KML)
             ModeManager.emptyWorld in
  ModeManager.getUserMode 9 w = None ∧
  ModeManager.getUserMode 7 w = Some ModeManager.KML ∧
  ModeManager.getUserMode 7
    (ModeManager.cleanupInactiveSessions 86400000 None w) = None.
Proof.
  intros w.
  destruct (getUserMode_reads_stored_mode 9 w) as (Hnone & _ & _).
  destruct (getUserMode_reads_stored_mode 7 w) as (_ & Hsome & Hswept).
  split_and!.
  - by apply Hnone.
  - by rewrite (Hsome (ModeManager.mkUserModeState 7 (Some ModeManager.KML)
                         None 0 0)).
  - apply (Hswept 86400000 None
             (ModeManager.mkUserModeState 7 (Some ModeManager.KML) None 0 0)).
    + apply setUserMode_oneEntryPerUser, emptyWorld_oneEntryPerUser.
    + done.
    + by vm_compute.
Defined.

(** /startline, one location, /endline: the warning, nothing changed. *)
Lemma finished_lines_have_two_points_witness :
  let svc1 := (KmlService.startLine "42" (Some "Jalan") KmlService.emptyService).1 in
  let svc2 := (KmlService.handleLocation 5 "42" 0 0 svc1).1 in
  let line := KmlService.mkActiveLine "Jalan" [KmlService.mkGeoPoint 0 0] in
  KmlService.endLine 9 "42" svc2
    = (svc2, KmlService.tooFewPointsWarning line) ∧
  KmlService.linesValid svc2.
Proof.
  intros svc1 svc2 line.
  destruct finished_lines_have_two_points as (_ & Hrun & Hshort & _).
  split.
  - apply (Hshort 9 "42" svc2
             (KmlService.mkUserKmlData [] []
                (Some line) None) line).
    + assert (Hget1 : KmlService.userKmlData svc1 !! "42" =
                Some (KmlService.mkUserKmlData [] []
                        (Some (KmlService.mkActiveLine "Jalan" [])) None)).
      { change svc1 with
          (KmlService.putUserKmlData "42"
             (KmlService.mkUserKmlData [] []
                (Some (KmlService.mkActiveLine "Jalan" [])) None)
             (KmlService.initUserKmlData "42" KmlService.emptyService).1).
        unfold KmlService.putUserKmlData. cbn [KmlService.userKmlData].
        by rewrite lookup_insert_eq. }
      unfold svc2, KmlService.handleLocation.
      rewrite (getUserKmlData_present _ _ _ Hget1).
      cbn [KmlService.activeLine]. unfold KmlService.pushOnActiveLine.
      cbn [fst KmlService.putUserKmlData KmlService.userKmlData].
      by rewrite lookup_insert_eq.
    + done.
    + cbn. lia.
  - apply (Hrun 5 "42" (KmlService.HandleLocation 0 0) svc1).
    apply (Hrun 0 "42" (KmlService.StartLine (Some "Jalan"))
             KmlService.emptyService).
    intros id data Hget. cbn in Hget. by rewrite lookup_empty in Hget.
Defined.

End Examples.

(** ** Reports at the unit thresholds; measurements over time and across users *)

Section Thresholds.
Local Open Scope R_scope.
Import LocationService.
Context `{JsNumberPrinter}.

(** X5.  The unit of a report is chosen before the number is rounded: a
    distance from 999.5 m up to 1000 m is reported as "1000 meter" and
    1000 m as "1.00 kilometer"; a duration from 59.5 s up to 60 s as
    "60 detik" and 60 s as "1 menit"; the last minute before an hour as
    "59 menit" and the hour as "1 jam 0 menit". *)
Theorem unit_is_chosen_before_rounding :
  (∀ d, 999.5 <= d < 1000 → formatDistance d = "1000 meter") ∧
  formatDistance 1000 = "1.00 kilometer" ∧
  (∀ s, 59.5 <= s < 60 → formatDuration s = "60 detik") ∧
  formatDuration 60 = "1 menit" ∧
  (∀ s, 3540 <= s < 3600 → formatDuration s = "59 menit") ∧
  formatDuration 3600 = "1 jam 0 menit".
Proof.
  repeat split.
  - intros d Hd. unfold formatDistance. destruct (Rlt_dec d 1000); [|lra].
    rewrite (Math_round_eq d 1000) by lra. reflexivity.
  - destruct (formatDistance_kilometers 1000 ltac:(lra) ltac:(lra))
      as (whole & tenths & hundredths & Hdigits & Hvalue & ->).
    pose proof (hundredths_digits whole tenths hundredths 100 _ _ Hdigits
                  Hvalue ltac:(lra) ltac:(lra)) as Hn.
    assert (whole = 1%Z ∧ tenths = 0%Z ∧ hundredths = 0%Z) as (-> & -> & ->)
      by lia.
    reflexivity.
  - intros s Hs. unfold formatDuration. destruct (Rlt_dec s 60); [|lra].
    rewrite (Math_round_eq s 60) by lra. reflexivity.
  - unfold formatDuration. destruct (Rlt_dec 60 60); [lra|].
    destruct (Rlt_dec 60 3600); [|lra].
    rewrite (Math_floor_eq (60 / 60) 1) by lra. reflexivity.
  - intros s Hs. unfold formatDuration. destruct (Rlt_dec s 60); [lra|].
    destruct (Rlt_dec s 3600); [|lra].
    rewrite (Math_floor_eq (s / 60) 59) by lra. reflexivity.
  - unfold formatDuration. destruct (Rlt_dec 3600 60); [lra|].
    destruct (Rlt_dec 3600 3600); [lra|].
    rewrite (Math_floor_eq (3600 / 3600) 1) by lra.
    assert (Number_rem 3600 3600 = 0) as ->.
    { unfold Number_rem. rewrite Math_trunc_nonneg by lra.
      fold (Math_floor (3600 / 3600)).
      rewrite (Math_floor_eq (3600 / 3600) 1) by lra. lra. }
    rewrite (Math_floor_eq (0 / 60) 0) by lra. reflexivity.
Qed.

(** X6.  The time stamp of a measurement is written and never read: the
    reply to a point and the reply to a cancellation are the same whatever
    the clock shows and whatever time stamp the state carries.  A
    measurement that was started is not ended by the passing of time. *)
Theorem measurement_ignores_the_clock
    (http : AxiosOutcome) (now now' stamp' : Z) (telegramId : string)
    (lat lon : R) (store : Store) (state : UserMeasurementState) :
  store !! telegramId = Some state →
  let store' :=
    <[telegramId := mkUserMeasurementState (isActive state) (firstPoint state)
                      (secondPoint state) stamp' (transportMode state)]> store in
  let out := processLocationForMeasurement http now telegramId lat lon store in
  let out' := processLocationForMeasurement http now' telegramId lat lon store' in
  out.2 = out'.2 ∧
  (isActive <$> out.1 !! telegramId) = (isActive <$> out'.1 !! telegramId) ∧
  (firstPoint <$> out.1 !! telegramId) = (firstPoint <$> out'.1 !! telegramId) ∧
  (secondPoint <$> out.1 !! telegramId) = (secondPoint <$> out'.1 !! telegramId) ∧
  (cancelMeasurement now telegramId store).2
    = (cancelMeasurement now' telegramId store').2.
Proof.
  intros Hstate store' out out'. subst out out'.
  unfold processLocationForMeasurement, cancelMeasurement.
  subst store'. rewrite Hstate, lookup_insert_eq. cbn [isActive firstPoint
    secondPoint transportMode timestamp].
  destruct (isActive state) eqn:Hactive; cbn [negb].
  2:{ cbn [fst snd]. rewrite Hstate, lookup_insert_eq. cbn. by rewrite Hactive. }
  destruct (getAddressFromCoordinates http lat lon) as [addressData|e].
  2:{ cbn [fst snd]. rewrite Hstate, lookup_insert_eq. cbn. by rewrite Hactive. }
  destruct (firstPoint state) as [first|] eqn:Hfirst.
  - destruct (secondPoint state) as [second|] eqn:Hsecond.
    + cbn [fst snd]. rewrite Hstate, lookup_insert_eq. cbn.
      by rewrite Hactive, Hfirst, Hsecond.
    + cbn [fst snd]. unfold initUserMeasurementState.
      rewrite !lookup_insert_eq. done.
  - cbn [fst snd]. rewrite !lookup_insert_eq. done.
Qed.

(** X7.  The measurements of two users do not touch each other. *)
Theorem measurements_are_per_user
    (now : Z) (telegramId other : string) (cmd : Command) (store : Store) :
  other ≠ telegramId →
  run now telegramId cmd store !! other = store !! other.
Proof.
  intros Hne.
  destruct cmd as [|transportMode|http lat lon|]; cbn [run fst].
  - unfold handleLocationCommand, initUserMeasurementState. cbn [fst].
    by rewrite lookup_insert_ne.
  - unfold startMeasurement, initUserMeasurementState. cbn [fst].
    rewrite lookup_insert_eq. by rewrite !lookup_insert_ne.
  - unfold processLocationForMeasurement.
    destruct (store !! telegramId) as [state|]; [|done].
    destruct (isActive state); cbn [negb]; [|done].
    destruct (getAddressFromCoordinates http lat lon); [|done].
    destruct (firstPoint state); [destruct (secondPoint state)|];
      cbn [fst]; unfold initUserMeasurementState;
      by rewrite ?lookup_insert_ne.
  - unfold cancelMeasurement.
    destruct (store !! telegramId) as [state|]; [|done].
    destruct (isActive state); cbn [fst]; unfold initUserMeasurementState;
      by rewrite ?lookup_insert_ne.
Qed.

End Thresholds.

(** ** The calendar of [Date]

    The functions of [JsDate] against the definitions of ECMAScript they
    stand for, and against the Gregorian calendar. *)

Section DateFacts.
Import JsDate.

Lemma div_step (x c : Z) :
  0 < c → (x + 1) `div` c = x `div` c + (if decide ((x + 1) `mod` c = 0) then 1 else 0).
Proof.
  intros Hc. case_decide as Hm.
  - apply Z.mod_divide in Hm; [|lia]. destruct Hm as [k Hk].
    assert (x = (k - 1) * c + (c - 1)) as -> by lia.
    replace ((k - 1) * c + (c - 1) + 1) with (k * c) by lia.
    rewrite Z.div_mul by lia.
    rewrite (Z.div_add_l (k - 1) c (c - 1)) by lia.
    rewrite (Z.div_small (c - 1) c) by lia. lia.
  - pose proof (Z.div_mod x c ltac:(lia)) as Hx.
    pose proof (Z.mod_pos_bound x c Hc) as Hb.
    assert (x `mod` c + 1 < c) as Hlt.
    { destruct (decide (x `mod` c + 1 = c)) as [Heq|]; [|lia].
      exfalso. apply Hm.
      rewrite Hx. replace (c * x `div` c + x `mod` c + 1) with ((x `div` c + 1) * c) by lia.
      apply Z.mod_mul. lia. }
    symmetry. rewrite Z.add_0_r. apply (Z.div_unique_pos _ _ _ (x `mod` c + 1)); lia.
Qed.

Lemma mod_multiple (y a b : Z) :
  0 < a → 0 < b → y `mod` (a * b) = 0 → y `mod` a = 0.
Proof.
  intros Ha Hb Hm. apply Z.mod_divide in Hm; [|lia]. destruct Hm as [k ->].
  replace (k * (a * b)) with (k * b * a) by lia. apply Z.mod_mul. lia.
Qed.

Lemma DayFromYear_step (y : Z) : DayFromYear (y + 1) = DayFromYear y + DaysInYear y.
Proof.
  unfold DayFromYear, DaysInYear.
  pose proof (div_step (y - 1969) 4 ltac:(lia)) as H4.
  pose proof (div_step (y - 1901) 100 ltac:(lia)) as H100.
  pose proof (div_step (y - 1601) 400 ltac:(lia)) as H400.
  replace ((y - 1969 + 1) `mod` 4) with (y `mod` 4) in H4
    by (replace (y - 1969 + 1) with (y + (-492) * 4) by lia;
        symmetry; apply Z.mod_add; lia).
  replace ((y - 1901 + 1) `mod` 100) with (y `mod` 100) in H100
    by (replace (y - 1901 + 1) with (y + (-19) * 100) by lia;
        symmetry; apply Z.mod_add; lia).
  replace ((y - 1601 + 1) `mod` 400) with (y `mod` 400) in H400
    by (replace (y - 1601 + 1) with (y + (-4) * 400) by lia;
        symmetry; apply Z.mod_add; lia).
  replace (y + 1 - 1969) with (y - 1969 + 1) by lia.
  replace (y + 1 - 1901) with (y - 1901 + 1) by lia.
  replace (y + 1 - 1601) with (y - 1601 + 1) by lia.
  rewrite H4, H100, H400. clear H4 H100 H400.
  pose proof (mod_multiple y 4 25 ltac:(lia) ltac:(lia)) as H25.
  pose proof (mod_multiple y 100 4 ltac:(lia) ltac:(lia)) as H44.
  change (4 * 25) with 100 in H25. change (100 * 4) with 400 in H44.
  generalize dependent (y `mod` 4). generalize dependent (y `mod` 100).
  generalize dependent (y `mod` 400).
  intros m400 m100 H44 m4 H25.
  generalize ((y - 1969) `div` 4) ((y - 1901) `div` 100) ((y - 1601) `div` 400).
  intros q4 q100 q400.
  repeat case_decide; lia.
Qed.

Lemma DaysInYear_cases (y : Z) : DaysInYear y = 365 ∨ DaysInYear y = 366.
Proof. unfold DaysInYear. repeat case_decide; auto. Qed.

Lemma DayFromYear_strict (y y' : Z) : y < y' → DayFromYear y < DayFromYear y'.
Proof.
  intros Hlt.
  assert (∀ n : nat, DayFromYear y < DayFromYear (y + 1 + Z.of_nat n)) as Hn.
  { induction n as [|n IH].
    - rewrite Z.add_0_r, DayFromYear_step. destruct (DaysInYear_cases y); lia.
    - replace (y + 1 + Z.of_nat (S n)) with (y + 1 + Z.of_nat n + 1) by lia.
      rewrite DayFromYear_step. destruct (DaysInYear_cases (y + 1 + Z.of_nat n)); lia. }
  specialize (Hn (Z.to_nat (y' - y - 1))).
  replace (y + 1 + Z.of_nat (Z.to_nat (y' - y - 1))) with y' in Hn by lia. exact Hn.
Qed.

Lemma DayFromYear_mono (y y' : Z) : y ≤ y' → DayFromYear y ≤ DayFromYear y'.
Proof.
  intros Hle. destruct (decide (y = y')) as [->|]; [lia|].
  apply Z.lt_le_incl, DayFromYear_strict. lia.
Qed.

Lemma DayFromYear_estimate (d : Z) :
  let y := 1970 + (d * 10000) `div` 3652425 in
  DayFromYear (y - 1) ≤ d < DayFromYear (y + 2).
Proof.
  intros y. subst y. unfold DayFromYear.
  set (q := (d * 10000) `div` 3652425).
  pose proof (Z.div_mod (d * 10000) 3652425 ltac:(lia)) as Hq.
  pose proof (Z.mod_pos_bound (d * 10000) 3652425 ltac:(lia)) as Hr.
  fold q in Hq.
  set (r := (d * 10000) `mod` 3652425) in *.
  split.
  - pose proof (Z.div_mod (1970 + q - 1 - 1969) 4 ltac:(lia)).
    pose proof (Z.mod_pos_bound (1970 + q - 1 - 1969) 4 ltac:(lia)).
    pose proof (Z.div_mod (1970 + q - 1 - 1901) 100 ltac:(lia)).
    pose proof (Z.mod_pos_bound (1970 + q - 1 - 1901) 100 ltac:(lia)).
    pose proof (Z.div_mod (1970 + q - 1 - 1601) 400 ltac:(lia)).
    pose proof (Z.mod_pos_bound (1970 + q - 1 - 1601) 400 ltac:(lia)).
    lia.
  - pose proof (Z.div_mod (1970 + q + 2 - 1969) 4 ltac:(lia)).
    pose proof (Z.mod_pos_bound (1970 + q + 2 - 1969) 4 ltac:(lia)).
    pose proof (Z.div_mod (1970 + q + 2 - 1901) 100 ltac:(lia)).
    pose proof (Z.mod_pos_bound (1970 + q + 2 - 1901) 100 ltac:(lia)).
    pose proof (Z.div_mod (1970 + q + 2 - 1601) 400 ltac:(lia)).
    pose proof (Z.mod_pos_bound (1970 + q + 2 - 1601) 400 ltac:(lia)).
    lia.
Qed.

Lemma Day_bounds (t : Z) : Day t * msPerDay ≤ t < (Day t + 1) * msPerDay.
Proof.
  unfold Day, msPerDay.
  pose proof (Z.div_mod t 86400000 ltac:(lia)).
  pose proof (Z.mod_pos_bound t 86400000 ltac:(lia)). lia.
Qed.

(** [YearFromTime] is the year of the definition: the largest [y] with
    [TimeFromYear y ≤ t]. *)
Lemma YearFromDay_bounds (t : Z) :
  DayFromYear (YearFromTime t) ≤ Day t < DayFromYear (YearFromTime t + 1).
Proof.
  unfold YearFromTime, TimeFromYear.
  set (y := 1970 + _).
  pose proof (DayFromYear_estimate (Day t)) as Hest. cbn zeta in Hest. fold y in Hest.
  pose proof (DayFromYear_step (y - 1)) as H1.
  pose proof (DayFromYear_step y) as H2.
  pose proof (DayFromYear_step (y + 1)) as H3.
  replace (y - 1 + 1) with y in H1 by lia.
  replace (y + 1 + 1) with (y + 2) in H3 by lia.
  pose proof (Day_bounds t) as Ht. unfold msPerDay in *.
  repeat case_decide; replace (y - 1 + 1) with y by lia;
    replace (y + 1 + 1) with (y + 2) by lia; lia.
Qed.

Lemma YearFromTime_largest (t : Z) :
  TimeFromYear (YearFromTime t) ≤ t ∧
  ∀ y, TimeFromYear y ≤ t → y ≤ YearFromTime t.
Proof.
  pose proof (YearFromDay_bounds t) as [Hlo Hhi].
  pose proof (Day_bounds t) as Ht. unfold TimeFromYear, msPerDay in *.
  split; [lia|].
  intros y Hy.
  destruct (decide (y ≤ YearFromTime t)) as [|Hgt]; [done|].
  pose proof (DayFromYear_mono (YearFromTime t + 1) y ltac:(lia)). lia.
Qed.

Lemma YearFromTime_unique (t y : Z) :
  DayFromYear y ≤ Day t < DayFromYear (y + 1) → YearFromTime t = y.
Proof.
  intros [Hlo Hhi].
  pose proof (YearFromDay_bounds t) as [Hlo' Hhi'].
  destruct (Z.lt_trichotomy (YearFromTime t) y) as [Hlt|[Heq|Hgt]]; [|done|].
  - pose proof (DayFromYear_mono (YearFromTime t + 1) y ltac:(lia)). lia.
  - pose proof (DayFromYear_mono (y + 1) (YearFromTime t) ltac:(lia)). lia.
Qed.

Lemma DayWithinYear_range (t : Z) :
  0 ≤ DayWithinYear t < DaysInYear (YearFromTime t).
Proof.
  unfold DayWithinYear.
  pose proof (YearFromDay_bounds t) as [Hlo Hhi].
  rewrite DayFromYear_step in Hhi. lia.
Qed.

Lemma InLeapYear_days (t : Z) : DaysInYear (YearFromTime t) = 365 + InLeapYear t.
Proof.
  unfold InLeapYear. destruct (DaysInYear_cases (YearFromTime t));
    case_decide; lia.
Qed.

Ltac norm_succ :=
  repeat match goal with
  | |- context [match ?a + 1 with _ => _ end] =>
      let v := eval vm_compute in (a + 1) in change (a + 1) with v
  | H : context [match ?a + 1 with _ => _ end] |- _ =>
      let v := eval vm_compute in (a + 1) in change (a + 1) with v in H
  end.

Lemma InLeapYear_cases (t : Z) : InLeapYear t = 0 ∨ InLeapYear t = 1.
Proof. unfold InLeapYear. case_decide; auto. Qed.

Lemma MonthFromTime_range (t : Z) : 0 ≤ MonthFromTime t ≤ 11.
Proof. unfold MonthFromTime. repeat case_decide; lia. Qed.

(** The fields a date shows are those of a day of the calendar. *)
Lemma DateFromTime_range (t : Z) :
  1 ≤ DateFromTime t ≤
  Calendar.daysInMonth (YearFromTime t) (MonthFromTime t + 1).
Proof.
  pose proof (DayWithinYear_range t) as Hd.
  rewrite InLeapYear_days in Hd.
  assert (Calendar.isLeapYear (YearFromTime t) = bool_decide (InLeapYear t = 1)) as Hleap.
  { unfold Calendar.isLeapYear, InLeapYear, DaysInYear.
    pose proof (mod_multiple (YearFromTime t) 4 25 ltac:(lia) ltac:(lia)) as H25.
    pose proof (mod_multiple (YearFromTime t) 100 4 ltac:(lia) ltac:(lia)) as H44.
    change (4 * 25) with 100 in H25. change (100 * 4) with 400 in H44.
    repeat case_decide; apply bool_decide_ext; lia. }
  unfold DateFromTime, MonthFromTime, Calendar.daysInMonth.
  rewrite Hleap. clear Hleap.
  pose proof (InLeapYear_cases t) as Hc.
  generalize dependent (InLeapYear t). generalize (DayWithinYear t).
  intros d leap Hd [-> | ->];
    repeat case_decide; norm_succ; cbn; lia.
Qed.

Lemma HourFromTime_range (t : Z) : 0 ≤ HourFromTime t ≤ 23.
Proof. unfold HourFromTime. pose proof (Z.mod_pos_bound (t `div` msPerHour) 24 ltac:(lia)). lia. Qed.

Lemma MinFromTime_range (t : Z) : 0 ≤ MinFromTime t ≤ 59.
Proof. unfold MinFromTime. pose proof (Z.mod_pos_bound (t `div` msPerMinute) 60 ltac:(lia)). lia. Qed.


Lemma isLeapYear_DaysInYear (y : Z) :
  Calendar.isLeapYear y = bool_decide (DaysInYear y ≠ 365).
Proof.
  unfold Calendar.isLeapYear, DaysInYear.
  pose proof (mod_multiple y 4 25 ltac:(lia) ltac:(lia)) as H25.
  pose proof (mod_multiple y 100 4 ltac:(lia) ltac:(lia)) as H44.
  change (4 * 25) with 100 in H25. change (100 * 4) with 400 in H44.
  repeat case_decide; apply bool_decide_ext; lia.
Qed.

Lemma month_cases (mn : Z) :
  0 ≤ mn ≤ 11 →
  mn = 0 ∨ mn = 1 ∨ mn = 2 ∨ mn = 3 ∨ mn = 4 ∨ mn = 5 ∨ mn = 6 ∨ mn = 7 ∨
  mn = 8 ∨ mn = 9 ∨ mn = 10 ∨ mn = 11.
Proof. lia. Qed.

Lemma Day_MakeDate (day time : Z) :
  0 ≤ time < msPerDay → Day (MakeDate day time) = day.
Proof.
  intros Ht. unfold Day, MakeDate. symmetry.
  apply (Z.div_unique_pos _ _ _ time); unfold msPerDay in *; lia.
Qed.

(** A date built from the fields of a day of the calendar shows these
    fields. *)
Lemma MakeDate_fields (year mn date hours minutes : Z) :
  0 ≤ mn ≤ 11 → 1 ≤ date ≤ Calendar.daysInMonth year (mn + 1) →
  0 ≤ hours ≤ 23 → 0 ≤ minutes ≤ 59 →
  let t := MakeDate (MakeDay year mn date) (MakeTime hours minutes 0 0) in
  YearFromTime t = year ∧ MonthFromTime t = mn ∧ DateFromTime t = date ∧
  HourFromTime t = hours ∧ MinFromTime t = minutes.
Proof.
  intros Hmn Hdate Hh Hm t.
  assert (0 ≤ MakeTime hours minutes 0 0 < msPerDay) as Htime.
  { unfold MakeTime, msPerHour, msPerMinute, msPerDay. lia. }
  assert (Day t = MakeDay year mn date) as Hday by (apply Day_MakeDate, Htime).
  set (leap := if decide (DaysInYear year = 365) then 0 else 1).
  assert (MakeDay year mn date = DayFromYear year + monthStart mn leap + date - 1)
    as HMakeDay.
  { unfold MakeDay. rewrite Z.div_small, Z.mod_small, Z.add_0_r by lia. done. }
  assert (DaysInYear year = 365 + leap) as Hdays.
  { subst leap. destruct (DaysInYear_cases year); case_decide; lia. }
  assert (0 ≤ monthStart mn leap + date - 1 < 365 + leap) as Hwithin.
  { unfold Calendar.daysInMonth in Hdate. rewrite isLeapYear_DaysInYear in Hdate.
    subst leap.
    destruct (month_cases mn Hmn) as [->|[->|[->|[->|[->|[->|[->|[->|[->|[->|[->| ->]]]]]]]]]]];
      norm_succ; cbn in Hdate |- *; repeat case_decide; try case_bool_decide; lia. }
  assert (YearFromTime t = year) as Hyear.
  { apply YearFromTime_unique. rewrite DayFromYear_step. lia. }
  assert (InLeapYear t = leap) as Hleap.
  { unfold InLeapYear. rewrite Hyear. done. }
  assert (DayWithinYear t = monthStart mn leap + date - 1) as Hdwy.
  { unfold DayWithinYear. rewrite Hyear. lia. }
  split; [done|].
  assert (MonthFromTime t = mn) as Hmonth.
  { unfold MonthFromTime. rewrite Hdwy, Hleap.
    unfold Calendar.daysInMonth in Hdate. rewrite isLeapYear_DaysInYear in Hdate.
    assert (leap = 0 ∨ leap = 1) as Hl by (subst leap; case_decide; auto).
    assert (bool_decide (DaysInYear year ≠ 365) = bool_decide (leap = 1)) as Hb
      by (apply bool_decide_ext; lia).
    rewrite Hb in Hdate. clearbody leap. clear -Hmn Hdate Hl.
    destruct Hl as [-> | ->];
    destruct (month_cases mn Hmn) as [->|[->|[->|[->|[->|[->|[->|[->|[->|[->|[->| ->]]]]]]]]]]];
      norm_succ; cbn in Hdate |- *; repeat case_decide;
      try case_bool_decide; lia. }
  split; [done|]. split.
  { unfold DateFromTime. rewrite Hmonth, Hdwy, Hleap.
    clearbody leap. clear -Hmn.
    destruct (month_cases mn Hmn) as [->|[->|[->|[->|[->|[->|[->|[->|[->|[->|[->| ->]]]]]]]]]]];
      cbn; lia. }
  subst t. unfold MakeDate, MakeTime, HourFromTime, MinFromTime,
    msPerDay, msPerHour, msPerMinute.
  generalize (MakeDay year mn date). intros D. split.
  - replace (D * 86400000 + (hours * 3600000 + minutes * 60000 + 0 * 1000 + 0))
      with ((D * 24 + hours) * 3600000 + minutes * 60000) by lia.
    rewrite (Z.div_add_l _ 3600000) by lia.
    rewrite (Z.div_small (minutes * 60000)) by lia.
    rewrite Z.add_0_r, Z.add_comm, Z.mod_add by lia.
    apply Z.mod_small. lia.
  - replace (D * 86400000 + (hours * 3600000 + minutes * 60000 + 0 * 1000 + 0))
      with ((D * 1440 + hours * 60 + minutes) * 60000) by lia.
    rewrite Z.div_mul by lia.
    replace (D * 1440 + hours * 60 + minutes) with (minutes + (D * 24 + hours) * 60) by lia.
    rewrite Z.mod_add by lia. apply Z.mod_small. lia.
Qed.


(** [MakeDay] finds the day the definition asks for: the day number of the
    first of the month is the one whose year is [ym], whose month is [mn]
    and whose date is 1. *)
Lemma MakeDay_first (year month : Z) :
  let t := MakeDate (MakeDay year month 1) 0 in
  YearFromTime t = year + month `div` 12 ∧
  MonthFromTime t = month `mod` 12 ∧
  DateFromTime t = 1.
Proof.
  intros t.
  pose proof (Z.mod_pos_bound month 12 ltac:(lia)) as Hmn.
  assert (MakeDay year month 1
          = MakeDay (year + month `div` 12) (month `mod` 12) 1) as Hday.
  { unfold MakeDay. rewrite (Z.div_small (month `mod` 12)) by lia.
    rewrite Zmod_mod, Z.add_0_r. done. }
  assert (1 ≤ Calendar.daysInMonth (year + month `div` 12) (month `mod` 12 + 1))
    as Hlen.
  { unfold Calendar.daysInMonth.
    repeat match goal with
    | |- context [match ?x with _ => _ end] => destruct x
    end; lia. }
  destruct (MakeDate_fields (year + month `div` 12) (month `mod` 12) 1 0 0)
    as (Hy & Hm & Hd & _); [lia|lia|lia|lia|].
  subst t. rewrite Hday.
  change (MakeTime 0 0 0 0) with 0 in *. done.
Qed.

End DateFacts.

(** ** Digits and the pattern of [parseCustomDate] *)

Section Digits.

Local Ltac zlia := Z.div_mod_to_equations; lia.

Lemma digit_cases (d : Z) :
  0 ≤ d ≤ 9 →
  d = 0 ∨ d = 1 ∨ d = 2 ∨ d = 3 ∨ d = 4 ∨ d = 5 ∨ d = 6 ∨ d = 7 ∨ d = 8 ∨ d = 9.
Proof. lia. Qed.

Lemma digitValue_digitChar (d : Z) :
  0 ≤ d ≤ 9 → digitValue (Calendar.digitChar d) = Some d.
Proof.
  intros Hd.
  destruct (digit_cases d Hd) as [->|[->|[->|[->|[->|[->|[->|[->|[->| ->]]]]]]]]];
    reflexivity.
Qed.

Lemma digitValue_inv (c : Ascii.ascii) (d : Z) :
  digitValue c = Some d → 0 ≤ d ≤ 9 ∧ c = Calendar.digitChar d.
Proof.
  unfold digitValue, Calendar.digitChar. cbv zeta.
  pose proof (ascii_nat_embedding c) as Hemb.
  revert Hemb. generalize (nat_of_ascii c). intros n Hemb.
  case_decide as Hc; [|done].
  intros [= <-]. split; [lia|].
  rewrite <- Hemb. f_equal. lia.
Qed.

Lemma twoDigits_value (n : Z) :
  0 ≤ n ≤ 99 → digitsValue 0 (Calendar.twoDigits n) = Some n.
Proof.
  intros Hn. unfold Calendar.twoDigits. cbn [digitsValue].
  rewrite !digitValue_digitChar by zlia. f_equal. zlia.
Qed.

Lemma twoDigits_inv (a b : Ascii.ascii) (n : Z) :
  digitsValue 0 [a; b] = Some n → 0 ≤ n ≤ 99 ∧ [a; b] = Calendar.twoDigits n.
Proof.
  cbn [digitsValue].
  destruct (digitValue a) as [da|] eqn:Ha; [|done].
  destruct (digitValue b) as [db|] eqn:Hb; [|done].
  apply digitValue_inv in Ha as [Hda ->]. apply digitValue_inv in Hb as [Hdb ->].
  intros [= <-]. split; [lia|]. unfold Calendar.twoDigits.
  replace ((10 * (10 * 0 + da) + db) `div` 10) with da by zlia.
  replace ((10 * (10 * 0 + da) + db) `mod` 10) with db by zlia.
  done.
Qed.

Lemma fourDigits_value (n : Z) :
  0 ≤ n ≤ 9999 → digitsValue 0 (Calendar.fourDigits n) = Some n.
Proof.
  intros Hn. unfold Calendar.fourDigits. cbn [digitsValue].
  rewrite !digitValue_digitChar by zlia. f_equal. zlia.
Qed.

Lemma fourDigits_inv (a b c d : Ascii.ascii) (n : Z) :
  digitsValue 0 [a; b; c; d] = Some n →
  0 ≤ n ≤ 9999 ∧ [a; b; c; d] = Calendar.fourDigits n.
Proof.
  cbn [digitsValue].
  destruct (digitValue a) as [da|] eqn:Ha; [|done].
  destruct (digitValue b) as [db|] eqn:Hb; [|done].
  destruct (digitValue c) as [dc|] eqn:Hc; [|done].
  destruct (digitValue d) as [dd|] eqn:Hd; [|done].
  apply digitValue_inv in Ha as [Hda ->]. apply digitValue_inv in Hb as [Hdb ->].
  apply digitValue_inv in Hc as [Hdc ->]. apply digitValue_inv in Hd as [Hdd ->].
  intros [= <-]. split; [lia|]. unfold Calendar.fourDigits.
  set (n := 10 * (10 * (10 * (10 * 0 + da) + db) + dc) + dd).
  replace (n `div` 1000) with da by zlia.
  replace ((n `div` 100) `mod` 10) with db by zlia.
  replace ((n `div` 10) `mod` 10) with dc by zlia.
  replace (n `mod` 10) with dd by zlia.
  done.
Qed.

Import GeotagsService.

Lemma matchCustomDate_format (year month day hours minutes : Z) :
  0 ≤ year ≤ 9999 → 0 ≤ month ≤ 99 → 0 ≤ day ≤ 99 → 0 ≤ hours ≤ 99 →
  0 ≤ minutes ≤ 99 →
  matchCustomDate (Calendar.formatDateTime year month day hours minutes)
  = Some (year, month, day, hours, minutes).
Proof.
  intros Hy Hm Hd Hh Hn.
  unfold matchCustomDate, Calendar.formatDateTime.
  rewrite String.list_ascii_of_string_of_list_ascii.
  pose proof (fourDigits_value year Hy) as Ey.
  pose proof (twoDigits_value month Hm) as Em.
  pose proof (twoDigits_value day Hd) as Ed.
  pose proof (twoDigits_value hours Hh) as Eh.
  pose proof (twoDigits_value minutes Hn) as En.
  unfold Calendar.fourDigits, Calendar.twoDigits in *.
  cbn [app]. rewrite decide_True by done.
  rewrite Ey, Em, Ed, Eh, En. done.
Qed.

Lemma matchCustomDate_inv (s : string) (year month day hours minutes : Z) :
  matchCustomDate s = Some (year, month, day, hours, minutes) →
  (0 ≤ year ≤ 9999 ∧ 0 ≤ month ≤ 99 ∧ 0 ≤ day ≤ 99 ∧ 0 ≤ hours ≤ 99 ∧
   0 ≤ minutes ≤ 99) ∧
  s = Calendar.formatDateTime year month day hours minutes.
Proof.
  unfold matchCustomDate.
  destruct (String.list_ascii_of_string s)
    as [|y1 [|y2 [|y3 [|y4 [|s1 [|m1 [|m2 [|s2 [|d1 [|d2 [|s3 [|h1 [|h2 [|s4
        [|n1 [|n2 [|]]]]]]]]]]]]]]]]] eqn:Hs; try done.
  case_decide as Hsep; [|done]. destruct Hsep as (-> & -> & -> & ->).
  destruct (digitsValue 0 [y1; y2; y3; y4]) as [y|] eqn:Ey; [|done].
  destruct (digitsValue 0 [m1; m2]) as [m|] eqn:Em; [|done].
  destruct (digitsValue 0 [d1; d2]) as [d|] eqn:Ed; [|done].
  destruct (digitsValue 0 [h1; h2]) as [h|] eqn:Eh; [|done].
  destruct (digitsValue 0 [n1; n2]) as [n|] eqn:En; [|done].
  intros [= <- <- <- <- <-].
  apply fourDigits_inv in Ey as [Hy Ey]. apply twoDigits_inv in Em as [Hm Em].
  apply twoDigits_inv in Ed as [Hd Ed]. apply twoDigits_inv in Eh as [Hh Eh].
  apply twoDigits_inv in En as [Hn En].
  split; [done|].
  rewrite <- (String.string_of_list_ascii_of_string s), Hs.
  unfold Calendar.formatDateTime. f_equal.
  rewrite <- Ey, <- Em, <- Ed, <- Eh, <- En. done.
Qed.

End Digits.

Section CustomDate.
Import JsDate GeotagsService.
Context `{Host}.

Lemma LocalTime_UTC (t : Z) : LocalTime (UTC t) = t.
Proof. unfold LocalTime, UTC. lia. Qed.

Lemma MakeDay_year_bound (year mn date : Z) :
  0 ≤ year ≤ 9999 → 0 ≤ mn ≤ 11 → 1 ≤ date ≤ 31 →
  -1000000 ≤ MakeDay year mn date ≤ 3000000.
Proof.
  intros Hy Hmn Hd. unfold MakeDay.
  rewrite Z.div_small, Z.mod_small, Z.add_0_r by lia.
  assert (-720000 ≤ DayFromYear year ≤ 2940000) as Hdy.
  { unfold DayFromYear. Z.div_mod_to_equations. lia. }
  assert (0 ≤ monthStart mn (if decide (DaysInYear year = 365) then 0 else 1) ≤ 335).
  { destruct (month_cases mn Hmn) as [->|[->|[->|[->|[->|[->|[->|[->|[->|[->|[->| ->]]]]]]]]]]];
      cbn; try case_decide; lia. }
  lia.
Qed.

Lemma daysInMonth_le (year month : Z) : Calendar.daysInMonth year month ≤ 31.
Proof.
  unfold Calendar.daysInMonth.
  repeat match goal with |- context [match ?x with _ => _ end] => destruct x end; lia.
Qed.

(** The date built from valid fields, and what [parseCustomDate] does with
    the fields of a matched string. *)
Lemma parseCustomDate_fields (s : string) (year month day hours minutes t : Z) :
  Z.abs LocalTZA ≤ msPerDay →
  matchCustomDate s = Some (year, month, day, hours, minutes) →
  parseCustomDate s = Some t ↔
  100 ≤ year ∧ Calendar.validDateTime year month day hours minutes ∧
  t = UTC (MakeDate (MakeDay year (month - 1) day) (MakeTime hours minutes 0 0)).
Proof.
  intros Htz Hmatch.
  pose proof (matchCustomDate_inv _ _ _ _ _ _ Hmatch) as [(Hy & Hm & Hd & Hh & Hn) _].
  unfold parseCustomDate. rewrite Hmatch.
  unfold newDate, getFullYear, getMonth, getDate, getHours, getMinutes.
  set (T := MakeDate (MakeDay (MakeFullYear year) (month - 1) day)
                     (MakeTime hours minutes 0 0)).
  split.
  - unfold TimeClip. case_decide as Hclip; [done|].
    case_bool_decide as Hshow; [|done]. intros [= <-].
    rewrite LocalTime_UTC in Hshow.
    destruct Hshow as (Hyear & Hmonth & Hdate & Hhours & Hminutes).
    pose proof (MonthFromTime_range T) as Hmr.
    pose proof (DateFromTime_range T) as Hdr.
    pose proof (HourFromTime_range T) as Hhr.
    pose proof (MinFromTime_range T) as Hnr.
    rewrite Hyear, Hmonth, Hdate in Hdr. rewrite Hmonth in Hmr.
    rewrite Hhours in Hhr. rewrite Hminutes in Hnr.
    replace (month - 1 + 1) with month in Hdr by lia.
    assert (100 ≤ year) as Hcentury.
    { destruct (decide (100 ≤ year)) as [|Hsmall]; [done|]. exfalso.
      assert (MakeFullYear year = 1900 + year) as Hfull
        by (unfold MakeFullYear; rewrite decide_True by lia; done).
      pose proof (YearFromTime_largest T) as [_ Hlargest].
      specialize (Hlargest (1900 + year)).
      assert (TimeFromYear (1900 + year) ≤ T) as Hle.
      { subst T. rewrite Hfull. unfold TimeFromYear, MakeDate, MakeDay, MakeTime,
          msPerDay, msPerHour, msPerMinute.
        rewrite Z.div_small, Z.mod_small, Z.add_0_r by lia.
        assert (0 ≤ monthStart (month - 1)
                      (if decide (DaysInYear (1900 + year) = 365) then 0 else 1)).
        { destruct (month_cases (month - 1) Hmr)
            as [->|[->|[->|[->|[->|[->|[->|[->|[->|[->|[->| ->]]]]]]]]]]];
            cbn; try case_decide; lia. }
        lia. }
      specialize (Hlargest Hle). lia. }
    split; [done|]. split; [unfold Calendar.validDateTime; lia|].
    subst T. unfold MakeFullYear. rewrite decide_False by lia. done.
  - intros (Hcentury & (Hmv & Hdv & Hhv & Hnv) & ->).
    assert (MakeFullYear year = year) as Hfull
      by (unfold MakeFullYear; rewrite decide_False by lia; done).
    subst T. rewrite Hfull.
    pose proof (daysInMonth_le year month) as Hle.
    pose proof (MakeDay_year_bound year (month - 1) day ltac:(lia) ltac:(lia)
                  ltac:(lia)) as Hbound.
    unfold TimeClip. rewrite decide_False.
    2:{ unfold UTC, MakeDate, MakeTime, msPerDay, msPerHour, msPerMinute in *. lia. }
    rewrite LocalTime_UTC.
    destruct (MakeDate_fields year (month - 1) day hours minutes)
      as (-> & -> & -> & -> & ->);
      [lia | replace (month - 1 + 1) with month by lia; lia | lia | lia |].
    rewrite bool_decide_true by done. done.
Qed.

End CustomDate.

(** ** The geotags mode *)

Section GeotagsFacts.
Import GeotagsService.
Context `{JsNumberPrinter} `{JsDate.Host}.

Lemma stateOf_present (now : Z) (telegramId : string) (svc : Service)
    (state : UserGeotagsState) :
  userStates svc !! telegramId = Some state →
  stateOf now telegramId svc = (svc, state).
Proof.
  intros Hstate. unfold stateOf, getUserState. rewrite Hstate. by destruct svc.
Qed.

Lemma stateOf_lookup (now : Z) (telegramId : string) (svc : Service) :
  userStates (stateOf now telegramId svc).1 !! telegramId
  = Some (stateOf now telegramId svc).2.
Proof.
  unfold stateOf, getUserState.
  destruct (userStates svc !! telegramId) as [state|] eqn:Hstate; cbn.
  - done.
  - apply lookup_insert_eq.
Qed.

Lemma stateOf_other (now : Z) (telegramId other : string) (svc : Service) :
  other ≠ telegramId →
  userStates (stateOf now telegramId svc).1 !! other = userStates svc !! other.
Proof.
  intros Hne. unfold stateOf, getUserState.
  destruct (userStates svc !! telegramId) as [state|] eqn:Hstate; cbn.
  - done.
  - by apply lookup_insert_ne.
Qed.

Lemma stateOf_processedPhotos (now : Z) (telegramId : string) (svc : Service) :
  processedPhotos (stateOf now telegramId svc).1 = processedPhotos svc.
Proof.
  unfold stateOf, getUserState.
  by destruct (userStates svc !! telegramId).
Qed.

Lemma stateOf_timestamp (now : Z) (telegramId : string) (svc : Service)
    (state : UserGeotagsState) :
  userStates svc !! telegramId = Some state →
  (stateOf now telegramId svc).2 = state.
Proof. intros Hstate. by rewrite (stateOf_present _ _ _ _ Hstate). Qed.

(** Opens a command: the state found for the user, then the branches. *)
Ltac geo_open now telegramId svc :=
  let Hlk := fresh "Hlookup" in
  let Hot := fresh "Hother" in
  let Hph := fresh "Hphotos" in
  pose proof (stateOf_lookup now telegramId svc) as Hlk;
  pose proof (λ other, stateOf_other now telegramId other svc) as Hot;
  pose proof (stateOf_processedPhotos now telegramId svc) as Hph;
  destruct (stateOf now telegramId svc) as [svc1 state]; cbn [fst snd] in *.

Ltac sticky_done :=
  unfold stickyConsistent in *; cbn; intros;
  repeat match goal with
  | Hst : ?P → _, Hp : ?P |- _ => specialize (Hst Hp)
  end;
  first [done | congruence].

Lemma statesConsistent_put (telegramId : string) (state : UserGeotagsState)
    (svc : Service) :
  statesConsistent svc → stickyConsistent state →
  statesConsistent (putUserState telegramId state svc).
Proof.
  intros Hinv Hstate other state'. cbn.
  destruct (decide (other = telegramId)) as [->|Hne].
  - rewrite lookup_insert_eq. by intros [= <-].
  - rewrite lookup_insert_ne by done. apply Hinv.
Qed.

Lemma statesConsistent_process (now : Z) (telegramId photoFileId : string)
    (location : R * R) (customDateTime : option Z) (svc : Service) :
  statesConsistent svc →
  statesConsistent
    (processPhotoWithGeotag now telegramId photoFileId location customDateTime svc).
Proof. done. Qed.

Lemma statesConsistent_stateOf (now : Z) (telegramId : string) (svc : Service) :
  statesConsistent svc →
  statesConsistent (stateOf now telegramId svc).1 ∧
  stickyConsistent (stateOf now telegramId svc).2.
Proof.
  intros Hinv. unfold stateOf, getUserState.
  destruct (userStates svc !! telegramId) as [state|] eqn:Hstate; cbn.
  - split; [done|]. by apply (Hinv telegramId).
  - split; [|done]. intros other state'. cbn.
    destruct (decide (other = telegramId)) as [->|Hne].
    + rewrite lookup_insert_eq. by intros [= <-].
    + rewrite lookup_insert_ne by done. apply Hinv.
Qed.

Lemma run_statesConsistent (now : Z) (telegramId : string) (cmd : Command)
    (svc : Service) :
  statesConsistent svc → statesConsistent (run now telegramId cmd svc).1.
Proof.
  intros Hinv.
  destruct cmd as [userFound| |timeString|photoFileId|latitude longitude];
    cbn [run].
  - unfold handleGeotagsCommand. destruct userFound; [|done].
    intros other state'. cbn.
    destruct (decide (other = telegramId)) as [->|Hne].
    + rewrite lookup_insert_eq. by intros [= <-].
    + rewrite lookup_insert_ne by done. apply Hinv.
  - unfold toggleAlwaysTag.
    destruct (statesConsistent_stateOf now telegramId svc Hinv) as [Hinv1 Hst].
    destruct (stateOf now telegramId svc) as [svc1 state]; cbn [fst snd] in *.
    destruct (alwaysTagLocation state); cbn [fst];
      apply statesConsistent_put; done.
  - unfold setCustomTime.
    destruct (statesConsistent_stateOf now telegramId svc Hinv) as [Hinv1 Hst].
    destruct (stateOf now telegramId svc) as [svc1 state]; cbn [fst snd] in *.
    destruct (truthy timeString) as [ts|]; [|done].
    case_decide; [by apply statesConsistent_put|].
    destruct (parseCustomDate ts); [by apply statesConsistent_put|done].
  - unfold handlePhoto.
    destruct (statesConsistent_stateOf now telegramId svc Hinv) as [Hinv1 Hst].
    destruct (stateOf now telegramId svc) as [svc1 state]; cbn [fst snd] in *.
    destruct (alwaysTagLocation state) eqn:Hloc;
      [destruct (isTrue (isWaitingForStickyLocation state)) eqn:Hwait|];
      cbn [fst]; try (apply statesConsistent_put; [done|]);
      try done.
    all: sticky_done.
  - unfold handleLocation, processPending.
    destruct (statesConsistent_stateOf now telegramId svc Hinv) as [Hinv1 Hst].
    destruct (stateOf now telegramId svc) as [svc1 state]; cbn [fst snd] in *.
    destruct (isTrue (isWaitingForStickyLocation state)) eqn:Hwait;
      [|destruct (alwaysTagLocation state) eqn:Hloc];
      cbn [pendingPhotoFileId alwaysTagLocation isWaitingForStickyLocation
           customDateTime timestamp];
      destruct (truthy (pendingPhotoFileId state)); cbn [fst];
      repeat (first [apply statesConsistent_process | apply statesConsistent_put]);
      try done.
    all: sticky_done.
Qed.


Lemma runAll_statesConsistent (events : list (Z * string * Command)) :
  statesConsistent (runAll events emptyService).
Proof.
  unfold runAll.
  assert (statesConsistent emptyService) as Hinit by (intros telegramId state; done).
  revert Hinit. generalize emptyService.
  induction events as [|ev events IH]; intros svc Hinv; cbn [fold_left]; [done|].
  apply IH, run_statesConsistent, Hinv.
Qed.

(** X8.  In every state the service reaches, a user who is asked for a
    sticky location has none stored.  A photo of a user with a stored sticky
    location is therefore processed at once, with that location and the
    custom time of the user (the clock when none is set), and is not kept
    as pending. *)
Theorem sticky_location_excludes_waiting :
  (∀ events : list (Z * string * Command),
     statesConsistent (runAll events emptyService)) ∧
  (∀ (now : Z) (telegramId : string) (cmd : Command) (svc : Service),
     statesConsistent svc → statesConsistent (run now telegramId cmd svc).1) ∧
  (∀ (now : Z) (telegramId photoFileId : string) (svc : Service)
     (state : UserGeotagsState) (location : R * R),
     statesConsistent svc →
     userStates svc !! telegramId = Some state →
     alwaysTagLocation state = Some location →
     handlePhoto now telegramId photoFileId svc
     = (mkService (userStates svc)
          (processedPhotos svc ++
           [mkProcessedPhoto telegramId photoFileId location
              (default now (customDateTime state))]),
        "✔️ Foto diterima dan diproses dengan lokasi AlwaysTag.")).
Proof.
  split; [apply runAll_statesConsistent|].
  split; [apply run_statesConsistent|].
  intros now telegramId photoFileId svc state location Hinv Hstate Hloc.
  unfold handlePhoto. rewrite (stateOf_present _ _ _ _ Hstate), Hloc.
  destruct (isTrue (isWaitingForStickyLocation state)) eqn:Hwait; [|done].
  pose proof (Hinv _ _ Hstate Hwait). congruence.
Qed.

(** X9.  Standard mode, one photo and one location: the photo sent last
    waits for the next location and is processed with it, once; a photo that
    was still waiting before it is dropped, and a further location finds
    nothing to process. *)
Theorem photo_waits_for_one_location
    (now1 now2 now3 : Z) (telegramId photoFileId : string)
    (lat lon lat' lon' : R) (svc : Service) (state : UserGeotagsState) :
  userStates svc !! telegramId = Some state →
  alwaysTagLocation state = None →
  isTrue (isWaitingForStickyLocation state) = false →
  photoFileId ≠ "" →
  let out1 := handlePhoto now1 telegramId photoFileId svc in
  let out2 := handleLocation now2 telegramId lat lon out1.1 in
  let out3 := handleLocation now3 telegramId lat' lon' out2.1 in
  processedPhotos out1.1 = processedPhotos svc ∧
  out1.2 = "✔️ Foto diterima! Sekarang, silakan kirim lokasi Anda." ∧
  processedPhotos out2.1
  = processedPhotos svc ++
    [mkProcessedPhoto telegramId photoFileId (lat, lon)
       (default now2 (customDateTime state))] ∧
  out2.2 = "✔️ Foto telah diproses dengan lokasi yang diterima." ∧
  (pendingPhotoFileId <$> userStates out2.1 !! telegramId) = Some None ∧
  out3.1 = out2.1 ∧
  out3.2 = "📌 Lokasi diterima. Mohon kirim foto terlebih dahulu untuk mode standar atau aktifkan /alwaystag.".
Proof.
  intros Hstate Hloc Hwait Hphoto out1 out2 out3.
  assert (out1 =
    (putUserState telegramId
       (mkUserGeotagsState (Some photoFileId) None
          (isWaitingForStickyLocation state) (customDateTime state)
          (timestamp state)) svc,
     "✔️ Foto diterima! Sekarang, silakan kirim lokasi Anda.")) as Hout1.
  { subst out1. unfold handlePhoto.
    rewrite (stateOf_present _ _ _ _ Hstate), Hloc, Hwait. done. }
  assert (truthy (Some photoFileId) = Some photoFileId) as Htruthy
    by (by destruct photoFileId).
  set (cleared := mkUserGeotagsState None None (isWaitingForStickyLocation state)
                    (customDateTime state) (timestamp state)).
  assert (out2 =
    (mkService (<[telegramId := cleared]> (userStates svc))
       (processedPhotos svc ++
        [mkProcessedPhoto telegramId photoFileId (lat, lon)
           (default now2 (customDateTime state))]),
     "✔️ Foto telah diproses dengan lokasi yang diterima.")) as Hout2.
  { subst out2. rewrite Hout1. cbn [fst]. unfold handleLocation.
    erewrite stateOf_present; [|apply lookup_insert_eq].
    cbn [isWaitingForStickyLocation alwaysTagLocation]. rewrite Hwait.
    unfold processPending. cbn [pendingPhotoFileId]. rewrite Htruthy.
    unfold processPhotoWithGeotag, putUserState. cbn.
    by rewrite insert_insert_eq. }
  assert (out3 =
    (out2.1, "📌 Lokasi diterima. Mohon kirim foto terlebih dahulu untuk mode standar atau aktifkan /alwaystag.")) as Hout3.
  { subst out3. rewrite Hout2. cbn [fst]. unfold handleLocation.
    erewrite stateOf_present; [|apply lookup_insert_eq].
    subst cleared. cbn [isWaitingForStickyLocation alwaysTagLocation].
    rewrite Hwait. done. }
  rewrite Hout3, Hout2, Hout1. cbn [fst snd].
  repeat split; try done.
  cbn. by rewrite lookup_insert_eq.
Qed.


(** X10.  One command processes at most one photo: a photo of the user who
    sent the command, which is the photo just sent or the one that was
    waiting, stamped with the custom time of the user, or with the clock when
    no custom time is set; photos processed before stay as they are. *)
Theorem processed_photo_provenance
    (now : Z) (telegramId : string) (cmd : Command) (svc : Service) :
  let state := (stateOf now telegramId svc).2 in
  ∃ new : list ProcessedPhoto,
    processedPhotos (run now telegramId cmd svc).1 = processedPhotos svc ++ new ∧
    (length new ≤ 1)%nat ∧
    ∀ photo, photo ∈ new →
      photo_telegramId photo = telegramId ∧
      photo_timestamp photo = default now (customDateTime state) ∧
      (cmd = HandlePhoto (photo_fileId photo) ∧
       alwaysTagLocation state = Some (photo_location photo)
       ∨
       pendingPhotoFileId state = Some (photo_fileId photo) ∧
       ∃ latitude longitude,
         cmd = HandleLocation latitude longitude ∧
         photo_location photo = (latitude, longitude)).
Proof.
  intros state. subst state.
  destruct cmd as [userFound| |timeString|photoFileId|latitude longitude];
    cbn [run].
  - exists []. rewrite app_nil_r. split; [|split; [cbn; lia|intros ? []%elem_of_nil]].
    unfold handleGeotagsCommand. by destruct userFound.
  - exists []. rewrite app_nil_r. split; [|split; [cbn; lia|intros ? []%elem_of_nil]].
    unfold toggleAlwaysTag. geo_open now telegramId svc.
    by destruct (alwaysTagLocation state).
  - exists []. rewrite app_nil_r. split; [|split; [cbn; lia|intros ? []%elem_of_nil]].
    unfold setCustomTime. geo_open now telegramId svc.
    destruct (truthy timeString) as [ts|]; [|done].
    case_decide; [done|]. by destruct (parseCustomDate ts).
  - unfold handlePhoto. geo_open now telegramId svc.
    destruct (alwaysTagLocation state) as [location|] eqn:Hloc;
      [destruct (isTrue (isWaitingForStickyLocation state))|].
    + exists []. rewrite app_nil_r.
      split; [done|split; [cbn; lia|intros ? []%elem_of_nil]].
    + eexists [_]. cbn [fst]. unfold processPhotoWithGeotag. cbn [processedPhotos].
      rewrite Hphotos. split; [done|]. split; [cbn; lia|].
      intros photo ->%list_elem_of_singleton. cbn. auto.
    + exists []. rewrite app_nil_r.
      split; [done|split; [cbn; lia|intros ? []%elem_of_nil]].
  - unfold handleLocation, processPending. geo_open now telegramId svc.
    destruct (isTrue (isWaitingForStickyLocation state));
      [|destruct (alwaysTagLocation state)];
      cbn [pendingPhotoFileId customDateTime];
      (destruct (truthy (pendingPhotoFileId state)) as [pending|] eqn:Hpending;
       [ eexists [_]; cbn [fst processPhotoWithGeotag processedPhotos putUserState];
         unfold processPhotoWithGeotag; cbn [processedPhotos];
         rewrite Hphotos; split; [done|]; split; [cbn; lia|];
         intros photo ->%list_elem_of_singleton; cbn;
         split; [done|]; split; [done|]; right;
         split; [|by eauto];
         destruct (pendingPhotoFileId state) as [[|]|]; cbn in Hpending; congruence
       | exists []; rewrite app_nil_r; cbn [fst processedPhotos putUserState];
         split; [done|split; [cbn; lia|intros ? []%elem_of_nil]] ]).
Qed.


Lemma run_timestamp (now : Z) (telegramId : string) (cmd : Command)
    (svc : Service) (state : UserGeotagsState) :
  cmd ≠ HandleGeotagsCommand true →
  userStates svc !! telegramId = Some state →
  ∃ state', userStates (run now telegramId cmd svc).1 !! telegramId = Some state' ∧
            timestamp state' = timestamp state.
Proof.
  intros Hcmd Hstate.
  destruct cmd as [userFound| |timeString|photoFileId|latitude longitude];
    cbn [run].
  - destruct userFound; [done|]. by exists state.
  - unfold toggleAlwaysTag. rewrite (stateOf_present _ _ _ _ Hstate).
    destruct (alwaysTagLocation state); cbn; rewrite lookup_insert_eq; by eexists.
  - unfold setCustomTime. rewrite (stateOf_present _ _ _ _ Hstate).
    destruct (truthy timeString) as [ts|]; [|by exists state].
    case_decide; [cbn; rewrite lookup_insert_eq; by eexists|].
    destruct (parseCustomDate ts); [cbn; rewrite lookup_insert_eq; by eexists|].
    by exists state.
  - unfold handlePhoto. rewrite (stateOf_present _ _ _ _ Hstate).
    destruct (alwaysTagLocation state);
      [destruct (isTrue (isWaitingForStickyLocation state))|];
      cbn; rewrite ?lookup_insert_eq; by eexists.
  - unfold handleLocation, processPending.
    rewrite (stateOf_present _ _ _ _ Hstate).
    destruct (isTrue (isWaitingForStickyLocation state));
      [|destruct (alwaysTagLocation state)];
      cbn [pendingPhotoFileId];
      destruct (truthy (pendingPhotoFileId state));
      cbn; rewrite ?lookup_insert_eq; by eexists.
Qed.

(** X11.  The time stamp of a state is the time of the command that
    created it, and nothing the user does afterwards refreshes it: after any
    series of photos, locations, /alwaystag and /set_time of the user, the
    state still carries the first time stamp, so the sweep
    [cleanupExpiredStates] removes it (pending photo, sticky location and
    custom time included) once [STATE_TIMEOUT] has passed since that first
    command, however recent the last activity. *)
Theorem activity_does_not_refresh_timestamp
    (telegramId : string) (svc : Service) (state : UserGeotagsState)
    (cmds : list (Z * Command)) :
  userStates svc !! telegramId = Some state →
  Forall (λ c, c.2 ≠ HandleGeotagsCommand true) cmds →
  let svc' := runAll ((λ c, (c.1, telegramId, c.2)) <$> cmds) svc in
  (timestamp <$> userStates svc' !! telegramId) = Some (timestamp state) ∧
  ∀ sweepTime,
    sweepTime - timestamp state > STATE_TIMEOUT →
    cleanupExpiredStates sweepTime (userStates svc') !! telegramId = None.
Proof.
  intros Hstate Hcmds svc'.
  assert (∃ state', userStates svc' !! telegramId = Some state' ∧
                    timestamp state' = timestamp state) as (state' & Hstate' & Htime).
  { subst svc'. unfold runAll. revert svc state Hstate.
    induction Hcmds as [|c cmds Hc _ IH]; intros svc state Hstate.
    - by exists state.
    - cbn [fmap list_fmap fold_left fst snd].
      destruct (run_timestamp c.1 telegramId c.2 svc state Hc Hstate)
        as (state1 & Hstate1 & Htime1).
      destruct (IH _ _ Hstate1) as (state2 & Hstate2 & Htime2).
      exists state2. split; [done|]. congruence. }
  split; [by rewrite Hstate', <- Htime|].
  intros sweepTime Hold. unfold cleanupExpiredStates.
  apply map_lookup_filter_None. right. intros state'' Hstate''.
  rewrite Hstate' in Hstate''. injection Hstate'' as <-.
  cbn. unfold expired. rewrite Htime. rewrite bool_decide_true by done. done.
Qed.

(** X12.  The states of two users do not touch each other: a command of
    one user leaves the state of every other user as it is. *)
Theorem geotags_states_are_per_user
    (now : Z) (telegramId other : string) (cmd : Command) (svc : Service) :
  other ≠ telegramId →
  userStates (run now telegramId cmd svc).1 !! other = userStates svc !! other.
Proof.
  intros Hne.
  destruct cmd as [userFound| |timeString|photoFileId|latitude longitude];
    cbn [run].
  - unfold handleGeotagsCommand. destruct userFound; [|done].
    cbn. by rewrite lookup_insert_ne.
  - unfold toggleAlwaysTag. geo_open now telegramId svc.
    destruct (alwaysTagLocation state); cbn; rewrite lookup_insert_ne by done; auto.
  - unfold setCustomTime. geo_open now telegramId svc.
    destruct (truthy timeString) as [ts|]; [|auto].
    case_decide; [cbn; rewrite lookup_insert_ne by done; auto|].
    destruct (parseCustomDate ts); [cbn; rewrite lookup_insert_ne by done; auto|auto].
  - unfold handlePhoto. geo_open now telegramId svc.
    destruct (alwaysTagLocation state);
      [destruct (isTrue (isWaitingForStickyLocation state))|];
      cbn; rewrite ?lookup_insert_ne by done; auto.
  - unfold handleLocation, processPending. geo_open now telegramId svc.
    destruct (isTrue (isWaitingForStickyLocation state));
      [|destruct (alwaysTagLocation state)];
      cbn [pendingPhotoFileId];
      destruct (truthy (pendingPhotoFileId state));
      cbn; rewrite ?lookup_insert_ne by done; auto.
Qed.

(** X13.  /alwaystag switches the sticky mode on only as a request for a
    location: while no sticky location is stored, a second /alwaystag does
    not switch the request off again, it repeats it (same state, same
    reply), and a photo sent meanwhile is kept as pending.  With a sticky
    location stored, /alwaystag forgets the location, and the next photo
    waits for a location again. *)
Theorem alwaystag_toggle
    (now1 now2 now3 : Z) (telegramId photoFileId : string) (svc : Service)
    (state : UserGeotagsState) :
  userStates svc !! telegramId = Some state →
  let out1 := toggleAlwaysTag now1 telegramId svc in
  let out2 := toggleAlwaysTag now2 telegramId out1.1 in
  let photo := handlePhoto now3 telegramId photoFileId out1.1 in
  processedPhotos photo.1 = processedPhotos svc ∧
  (pendingPhotoFileId <$> userStates photo.1 !! telegramId)
    = Some (Some photoFileId) ∧
  (alwaysTagLocation <$> userStates out1.1 !! telegramId) = Some None ∧
  (alwaysTagLocation state = None →
   (isWaitingForStickyLocation <$> userStates out1.1 !! telegramId)
     = Some (Some true) ∧
   out2 = out1) ∧
  (is_Some (alwaysTagLocation state) →
   (isWaitingForStickyLocation <$> userStates out1.1 !! telegramId)
     = Some None ∧
   out1.2 = "📍 AlwaysTag mode NONAKTIF. Setiap foto akan memerlukan lokasi baru.").
Proof.
  intros Hstate out1 out2 photo. subst out2 photo out1.
  destruct (alwaysTagLocation state) as [location|] eqn:Hloc.
  - assert (toggleAlwaysTag now1 telegramId svc =
      (putUserState telegramId
         (mkUserGeotagsState (pendingPhotoFileId state) None None
            (customDateTime state) (timestamp state)) svc,
       "📍 AlwaysTag mode NONAKTIF. Setiap foto akan memerlukan lokasi baru."))
      as ->.
    { unfold toggleAlwaysTag.
      by rewrite (stateOf_present _ _ _ _ Hstate), Hloc. }
    cbn [fst snd].
    unfold handlePhoto. erewrite stateOf_present; [|apply lookup_insert_eq].
    cbn. rewrite !lookup_insert_eq. cbn.
    repeat split; try done.
  - set (waiting := mkUserGeotagsState (pendingPhotoFileId state) None (Some true)
                      (customDateTime state) (timestamp state)).
    assert (∀ now svc0, userStates svc0 !! telegramId = Some state ∨
                        userStates svc0 !! telegramId = Some waiting →
      toggleAlwaysTag now telegramId svc0 =
      (putUserState telegramId waiting svc0,
       "📍 AlwaysTag mode AKTIF.
Silakan kirim lokasi yang ingin Anda gunakan untuk beberapa foto ke depan. Untuk menonaktifkan, ketik /alwaystag lagi."))
      as Htoggle.
    { intros now svc0 [Hs | Hs]; unfold toggleAlwaysTag;
        rewrite (stateOf_present _ _ _ _ Hs); [by rewrite Hloc|done]. }
    rewrite (Htoggle now1 svc) by auto. cbn [fst snd].
    rewrite Htoggle by (right; apply lookup_insert_eq).
    unfold handlePhoto. erewrite stateOf_present; [|apply lookup_insert_eq].
    cbn. rewrite !lookup_insert_eq. cbn.
    repeat split; try done.
    unfold putUserState. cbn. by rewrite insert_insert_eq.
Qed.

End GeotagsFacts.

(** ** The custom time of the geotags mode *)

Section CustomTime.
Import JsDate GeotagsService.
Context `{JsNumberPrinter} `{Host}.

(** X14.  [parseCustomDate] accepts exactly the strings [YYYY-MM-DD HH:MM]
    that name a day of the Gregorian calendar in a year from 100 to 9999 and
    a time of day from 00:00 to 23:59 (the 29th of February only in leap
    years, no 24:00, no month 13, no year below 100), and returns the time
    value of that local time.  The time zone is a fixed offset from UTC of
    at most a day. *)
Theorem parseCustomDate_accepts_calendar_dates (s : string) (t : Z) :
  Z.abs LocalTZA ≤ msPerDay →
  parseCustomDate s = Some t ↔
  ∃ year month day hours minutes,
    s = Calendar.formatDateTime year month day hours minutes ∧
    100 ≤ year ≤ 9999 ∧
    Calendar.validDateTime year month day hours minutes ∧
    t = MakeDate (MakeDay year (month - 1) day) (MakeTime hours minutes 0 0)
        - LocalTZA.
Proof.
  intros Htz. split.
  - intros Hparse.
    destruct (matchCustomDate s) as [[[[[year month] day] hours] minutes]|]
      eqn:Hmatch.
    2:{ unfold parseCustomDate in Hparse. by rewrite Hmatch in Hparse. }
    pose proof (matchCustomDate_inv _ _ _ _ _ _ Hmatch)
      as [(Hy & Hm & Hd & Hh & Hn) Hs].
    destruct (proj1 (parseCustomDate_fields s year month day hours minutes t
                       Htz Hmatch) Hparse) as (Hcentury & Hvalid & Ht).
    exists year, month, day, hours, minutes.
    split; [done|]. split; [lia|]. split; [done|]. exact Ht.
  - intros (year & month & day & hours & minutes & -> & Hy & Hvalid & ->).
    pose proof Hvalid as (Hm & Hd & Hh & Hn).
    pose proof (daysInMonth_le year month).
    apply (parseCustomDate_fields _ year month day hours minutes); [done| |].
    + apply matchCustomDate_format; lia.
    + split; [lia|]. split; [done|]. done.
Qed.

Lemma toLowerCase_reset (timeString : string) :
  toLowerCase timeString = "reset" → truthy (Some timeString) = Some timeString.
Proof. by destruct timeString. Qed.

(** X15.  /set_time and the photos that follow, for a user with a sticky
    location.  After /set_time with a valid date the next photo is stamped
    with that date, whatever the clock shows; a /set_time that is rejected
    changes nothing, the date set before stays in force; after
    /set_time reset, in any letter case, the photo is stamped with the
    clock. *)
Theorem custom_time_stamps_photos
    (now1 now2 : Z) (telegramId photoFileId timeString : string)
    (svc : Service) (state : UserGeotagsState) (location : R * R) :
  userStates svc !! telegramId = Some state →
  alwaysTagLocation state = Some location →
  isTrue (isWaitingForStickyLocation state) = false →
  let set := setCustomTime now1 telegramId (Some timeString) svc in
  let photo := handlePhoto now2 telegramId photoFileId set.1 in
  let stamped := λ time,
    processedPhotos photo.1
    = processedPhotos svc ++
      [mkProcessedPhoto telegramId photoFileId location time] in
  (∀ date, toLowerCase timeString ≠ "reset" →
     parseCustomDate timeString = Some date →
     stamped date ∧
     set.2 = "⏱️ Waktu manual diatur ke: " +:+ Date_toLocaleString date) ∧
  (toLowerCase timeString ≠ "reset" → parseCustomDate timeString = None →
   set.1 = svc ∧ stamped (default now2 (customDateTime state))) ∧
  (toLowerCase timeString = "reset" → stamped now2).
Proof.
  intros Hstate Hloc Hwait set photo stamped. subst stamped photo set.
  assert (∀ custom svc0 state0,
    userStates svc0 !! telegramId = Some state0 →
    alwaysTagLocation state0 = Some location →
    isTrue (isWaitingForStickyLocation state0) = false →
    customDateTime state0 = custom →
    processedPhotos (handlePhoto now2 telegramId photoFileId svc0).1
    = processedPhotos svc0 ++
      [mkProcessedPhoto telegramId photoFileId location (default now2 custom)])
    as Hphoto.
  { intros custom svc0 state0 Hs Hl Hw <-. unfold handlePhoto.
    by rewrite (stateOf_present _ _ _ _ Hs), Hl, Hw. }
  unfold setCustomTime. rewrite (stateOf_present _ _ _ _ Hstate).
  split; [|split].
  - intros date Hreset Hparse.
    assert (truthy (Some timeString) = Some timeString) as ->.
    { destruct timeString; [|done]. by vm_compute in Hparse. }
    rewrite decide_False by done. rewrite Hparse. cbn [fst snd].
    split; [|done].
    erewrite Hphoto; [|apply lookup_insert_eq|done..].
    cbn. by rewrite ?Hparse.
  - intros Hreset Hparse.
    destruct (truthy (Some timeString)) as [ts|] eqn:Hts.
    + assert (ts = timeString) as -> by (destruct timeString; cbn in Hts; congruence).
      rewrite decide_False by done. rewrite Hparse. cbn [fst].
      split; [done|]. by erewrite Hphoto.
    + cbn [fst]. split; [done|]. by erewrite Hphoto.
  - intros Hreset. rewrite (toLowerCase_reset _ Hreset).
    rewrite decide_True by done. cbn [fst].
    erewrite Hphoto; [|apply lookup_insert_eq|done..]. done.
Qed.

End CustomTime.

(** ** Further properties of the KML service *)

Section EscapeFacts.
Import KmlService.

Lemma chars_app (a b : string) :
  String.list_ascii_of_string (a +:+ b)
  = String.list_ascii_of_string a ++ String.list_ascii_of_string b.
Proof.
  induction a as [|x a IH]; [reflexivity|].
  change (x :: String.list_ascii_of_string (a +:+ b)
          = x :: (String.list_ascii_of_string a ++ String.list_ascii_of_string b)).
  by rewrite IH.
Qed.

Lemma escapeChar_cases (c : Ascii.ascii) :
  (c = "<"%char ∧ escapeChar c = "&lt;") ∨
  (c = ">"%char ∧ escapeChar c = "&gt;") ∨
  (c = "&"%char ∧ escapeChar c = "&amp;") ∨
  (c = "'"%char ∧ escapeChar c = "&apos;") ∨
  (c = Ascii.ascii_of_nat 34 ∧ escapeChar c = "&quot;") ∨
  ((¬ markup c ∧ c ≠ "&"%char) ∧ escapeChar c = String c EmptyString).
Proof.
  unfold escapeChar, markup.
  repeat case_decide; subst; auto 10.
  do 5 right. split; [|done]. split; [|done]. intros [?|[?|[?|?]]]; done.
Qed.

Lemma escapeXml_no_markup (unsafe : string) (c : Ascii.ascii) :
  c ∈ String.list_ascii_of_string (escapeXml unsafe) → ¬ markup c.
Proof.
  induction unsafe as [|x unsafe IH]; cbn [escapeXml].
  - by intros ?%elem_of_nil.
  - rewrite chars_app, elem_of_app. intros [Hc | Hc]; [|by apply IH].
    destruct (escapeChar_cases x)
      as [[_ Hx]|[[_ Hx]|[[_ Hx]|[[_ Hx]|[[_ Hx]|[[Hx' _] Hx]]]]]];
      rewrite Hx in Hc; cbn in Hc;
      repeat (apply elem_of_cons in Hc as [-> | Hc]);
      try (by apply elem_of_nil in Hc);
      try (unfold markup; intros [?|[?|[?|?]]]; done).
    done.
Qed.

Lemma escapeXml_injective (a b : string) : escapeXml a = escapeXml b → a = b.
Proof.
  revert b. induction a as [|x a IH]; intros [|y b]; cbn [escapeXml].
  - done.
  - destruct (escapeChar_cases y)
      as [[_ ->]|[[_ ->]|[[_ ->]|[[_ ->]|[[_ ->]|[_ ->]]]]]]; done.
  - destruct (escapeChar_cases x)
      as [[_ ->]|[[_ ->]|[[_ ->]|[[_ ->]|[[_ ->]|[_ ->]]]]]]; done.
  - intros Heq.
    destruct (escapeChar_cases x)
      as [[-> Hx]|[[-> Hx]|[[-> Hx]|[[-> Hx]|[[-> Hx]|[[Hmx Hax] Hx]]]]]];
    destruct (escapeChar_cases y)
      as [[-> Hy]|[[-> Hy]|[[-> Hy]|[[-> Hy]|[[-> Hy]|[[Hmy Hay] Hy]]]]]];
      rewrite ?Hx, ?Hy in Heq; cbv [String.append] in Heq;
      try discriminate Heq;
      try (injection Heq as Heq; f_equal; by apply IH);
      try (injection Heq as -> Heq; f_equal; by apply IH);
      try (injection Heq as <- _; done);
      try (injection Heq as -> _; done).
Qed.


Lemma escapeXml_plain (unsafe : string) :
  (∀ c, c ∈ String.list_ascii_of_string unsafe → ¬ markup c ∧ c ≠ "&"%char) →
  escapeXml unsafe = unsafe.
Proof.
  induction unsafe as [|x unsafe IH]; intros Hplain; [done|].
  cbn [escapeXml]. rewrite IH.
  - destruct (Hplain x) as [Hx Hamp]; [left|].
    destruct (escapeChar_cases x)
      as [[-> _]|[[-> _]|[[-> _]|[[-> _]|[[-> _]|[_ ->]]]]]]; try done;
      exfalso; apply Hx; unfold markup; auto.
  - intros c Hc. apply Hplain. by right.
Qed.

(** X16.  [escapeXml] leaves no character in a name that could open or
    close markup or an attribute value (no [<], [>], ['] and no double
    quote); it changes nothing in a name without these characters and [&];
    and it keeps different names different. *)
Theorem escapeXml_removes_markup (unsafe : string) :
  (∀ c, c ∈ String.list_ascii_of_string (escapeXml unsafe) → ¬ markup c) ∧
  ((∀ c, c ∈ String.list_ascii_of_string unsafe → ¬ markup c ∧ c ≠ "&"%char) →
   escapeXml unsafe = unsafe) ∧
  (∀ other, escapeXml unsafe = escapeXml other → unsafe = other).
Proof.
  split; [apply escapeXml_no_markup|]. split; [apply escapeXml_plain|].
  intros other. apply escapeXml_injective.
Qed.

End EscapeFacts.

Section KmlSessions.
Import KmlService.
Context `{JsNumberPrinter}.

Lemma getUserKmlData_lookup (telegramId : string) (svc : Service) :
  userKmlData (getUserKmlData telegramId svc).1 !! telegramId
  = Some (getUserKmlData telegramId svc).2.
Proof.
  unfold getUserKmlData.
  destruct (userKmlData svc !! telegramId) eqn:Hget; cbn; [done|].
  apply lookup_insert_eq.
Qed.

Lemma getUserKmlData_other (telegramId other : string) (svc : Service) :
  other ≠ telegramId →
  userKmlData (getUserKmlData telegramId svc).1 !! other
  = userKmlData svc !! other.
Proof.
  intros Hne. unfold getUserKmlData.
  destruct (userKmlData svc !! telegramId); cbn; [done|].
  by apply lookup_insert_ne.
Qed.

Lemma getUserKmlData_names (telegramId : string) (svc : Service) :
  nextPointNames (getUserKmlData telegramId svc).1 = nextPointNames svc.
Proof. unfold getUserKmlData. by destruct (userKmlData svc !! telegramId). Qed.

Ltac kml_open telegramId svc :=
  let Hlk := fresh "Hlookup" in
  let Hot := fresh "Hother" in
  let Hnm := fresh "Hnames" in
  pose proof (getUserKmlData_lookup telegramId svc) as Hlk;
  pose proof (λ other, getUserKmlData_other telegramId other svc) as Hot;
  pose proof (getUserKmlData_names telegramId svc) as Hnm;
  destruct (getUserKmlData telegramId svc) as [svc1 userData];
  cbn [fst snd] in *.

Lemma pickPointName_frame (telegramId : string) (userData : UserKmlData)
    (numbered : string) (svc : Service) :
  userKmlData (pickPointName telegramId userData numbered svc).1
  = userKmlData svc ∧
  ∀ other, other ≠ telegramId →
    nextPointNames (pickPointName telegramId userData numbered svc).1 !! other
    = nextPointNames svc !! other.
Proof.
  unfold pickPointName.
  destruct (truthy (nextPointNames svc !! telegramId)); cbn; [|done].
  split; [done|]. intros other Hne. by apply lookup_delete_ne.
Qed.

Lemma getMyData_service (telegramId : string) (svc : Service) :
  (getMyData telegramId svc).1 = (getUserKmlData telegramId svc).1.
Proof.
  unfold getMyData. destruct (getUserKmlData telegramId svc) as [svc1 userData].
  repeat match goal with
  | |- context [let '(_, _) := ?x in _] => destruct x
  end. done.
Qed.

Lemma createKml_service (telegramId : string) (docName : option string)
    (svc : Service) :
  (createKml telegramId docName svc).1 = (getUserKmlData telegramId svc).1.
Proof.
  unfold createKml. destruct (getUserKmlData telegramId svc) as [svc1 userData].
  by destruct (_ && _).
Qed.

Ltac kml_unfold :=
  rewrite ?getMyData_service, ?createKml_service;
  unfold handleKmlCommand, setAlwaysPoint, setNextPointName, addPoint,
    handleLocation, startLine, endLine, cancelLine,
    clearData, pushOnActiveLine, pushPlacemark, initUserKmlData,
    putUserKmlData.

Ltac kml_pick telegramId :=
  match goal with
  | |- context [pickPointName telegramId ?userData ?numbered ?svc] =>
      let Hdata := fresh "Hpickdata" in
      let Hnm := fresh "Hpicknames" in
      destruct (pickPointName_frame telegramId userData numbered svc)
        as [Hdata Hnm];
      destruct (pickPointName telegramId userData numbered svc)
        as [svc2 pickedName];
      cbn [fst snd] in Hdata, Hnm
  end.

Ltac kml_branches :=
  repeat match goal with
  | |- context [match truthy ?x with _ => _ end] => destruct (truthy x) eqn:?
  | |- context [match nonBlank ?x with _ => _ end] => destruct (nonBlank x) eqn:?
  | |- context [match activeLine ?x with _ => _ end] =>
      destruct (activeLine x) eqn:?
  | |- context [if outOfRange ?a ?b then _ else _] =>
      destruct (outOfRange a b) eqn:?
  | |- context [if bool_decide ?P then _ else _] => destruct (bool_decide P) eqn:?
  | |- context [if ?x && ?y then _ else _] => destruct (x && y) eqn:?
  | |- context [if ?x then _ else _] => is_var x; destruct x
  end.

(** X17.  The data of two users do not touch each other: a command of one
    user changes neither the points and lines nor the pending point name of
    another. *)
Theorem kml_data_is_per_user
    (now : Z) (telegramId other : string) (cmd : Command) (svc : Service) :
  other ≠ telegramId →
  userKmlData (run now telegramId cmd svc).1 !! other = userKmlData svc !! other ∧
  nextPointNames (run now telegramId cmd svc).1 !! other
  = nextPointNames svc !! other.
Proof.
  intros Hne.
  destruct cmd as [userFound | pointName | pointName | lat lon pointName
                  | lat lon | lineName | | | | docName |];
    cbn [run text document fst]; kml_unfold;
    try kml_open telegramId svc;
    kml_branches; try kml_pick telegramId;
    cbn; rewrite ?Hpickdata;
    rewrite ?lookup_insert_ne, ?lookup_delete_ne by done;
    rewrite ?Hpicknames by done;
    rewrite ?Hnames; auto.
Qed.


(** X18.  Saved points and saved lines are only ever lost to /cleardata
    and to /kml (the command that enters the mode puts the data of a known
    user back to empty, as /cleardata does): every other command keeps the
    saved points and the saved lines and at most adds one at the end. *)
Theorem saved_data_is_kept
    (now : Z) (telegramId : string) (cmd : Command) (svc : Service)
    (data : UserKmlData) :
  userKmlData svc !! telegramId = Some data →
  ∃ data',
    userKmlData (run now telegramId cmd svc).1 !! telegramId = Some data' ∧
    match cmd with
    | ClearData | HandleKmlCommand true => data' = defaultData
    | _ =>
        (placemarks data' = placemarks data ∨
         ∃ point, placemarks data' = placemarks data ++ [point]) ∧
        (lines data' = lines data ∨
         ∃ line, lines data' = lines data ++ [line])
    end.
Proof.
  intros Hdata.
  destruct cmd as [userFound | pointName | pointName | lat lon pointName
                  | lat lon | lineName | | | | docName |];
    cbn [run text document fst];
    rewrite ?getMyData_service, ?createKml_service;
    unfold handleKmlCommand, setAlwaysPoint, setNextPointName, addPoint,
      handleLocation, startLine, endLine, cancelLine, clearData;
    rewrite ?(getUserKmlData_present _ _ _ Hdata);
    kml_branches; try kml_pick telegramId;
    unfold pushOnActiveLine, pushPlacemark, initUserKmlData, putUserKmlData;
    cbn [fst snd userKmlData nextPointNames];
    rewrite ?Hpickdata, ?lookup_insert_eq;
    (eexists; split; [reflexivity || eassumption|]);
    cbn; eauto.
Qed.


(** X19.  The name given with /addpoint is used for one point: the next
    individual point that comes without a name of its own takes it, and the
    point after that is named by the persistent name or by its number again.
    A point that goes to the line being drawn, and a point that brings its
    own name, leave the name waiting. *)
Theorem next_point_name_is_used_once
    (now1 now2 : Z) (telegramId nextName : string) (lat lon lat' lon' : R)
    (svc : Service) (data : UserKmlData) :
  userKmlData svc !! telegramId = Some data →
  nextName ≠ "" →
  let named := (setNextPointName telegramId nextName svc).1 in
  let out1 := handleLocation now1 telegramId lat lon named in
  let out2 := handleLocation now2 telegramId lat' lon' out1.1 in
  (activeLine data = None →
   (placemarks <$> userKmlData out1.1 !! telegramId)
     = Some (placemarks data ++ [mkNamedPoint lat lon nextName now1]) ∧
   nextPointNames out1.1 !! telegramId = None ∧
   (placemarks <$> userKmlData out2.1 !! telegramId)
     = Some (placemarks data ++
             [mkNamedPoint lat lon nextName now1;
              mkNamedPoint lat' lon'
                (js_or (persistentPointName data)
                   ("Titik Terlampir " +:+
                    pretty (length (placemarks data) + 2)%nat)) now2])) ∧
  (is_Some (activeLine data) →
   nextPointNames out1.1 !! telegramId = Some nextName ∧
   (placemarks <$> userKmlData out1.1 !! telegramId) = Some (placemarks data)) ∧
  (∀ ownName, ownName ≠ "" → -90 <= lat <= 90 → -180 <= lon <= 180 →
     activeLine data = None →
     let own := addPoint now1 telegramId lat lon (Some ownName) named in
     nextPointNames own.1 !! telegramId = Some nextName ∧
     (placemarks <$> userKmlData own.1 !! telegramId)
       = Some (placemarks data ++ [mkNamedPoint lat lon ownName now1]))%R.
Proof.
  intros Hdata Hname named out1 out2.
  assert (truthy (Some nextName) = Some nextName) as Htruthy
    by (by destruct nextName).
  assert (userKmlData named !! telegramId = Some data) as Hnamed by done.
  assert (nextPointNames named !! telegramId = Some nextName) as Hnext
    by apply lookup_insert_eq.
  split; [|split].
  - intros Hline.
    assert (out1 =
      (mkService
         (<[telegramId :=
              mkUserKmlData
                (placemarks data ++ [mkNamedPoint lat lon nextName now1])
                (lines data) (activeLine data) (persistentPointName data)]>
            (userKmlData svc))
         (delete telegramId (nextPointNames named)),
       "📍 Lokasi individual " +:+ quoted nextName +:+ " " +:+
       latLonText lat lon 5 +:+ " telah disimpan!")) as Hout1.
    { subst out1. unfold handleLocation.
      rewrite (getUserKmlData_present _ _ _ Hnamed), Hline.
      unfold pickPointName. rewrite Hnext, Htruthy.
      unfold pushPlacemark, putUserKmlData. cbn. by rewrite Hline. }
    subst out2. rewrite Hout1. cbn [fst snd userKmlData nextPointNames].
    rewrite lookup_insert_eq, lookup_delete_eq. cbn [fmap option_fmap option_map].
    split; [done|]. split; [done|].
    unfold handleLocation. erewrite getUserKmlData_present;
      [|cbn; apply lookup_insert_eq].
    cbn [activeLine]. rewrite Hline.
    unfold pickPointName. cbn [nextPointNames]. rewrite lookup_delete_eq.
    cbn [truthy fst snd pushPlacemark putUserKmlData userKmlData placemarks
         persistentPointName].
    unfold pushPlacemark, putUserKmlData. cbn [userKmlData placemarks].
    rewrite lookup_insert_eq. cbn [fmap option_fmap option_map placemarks].
    rewrite <- app_assoc. cbn [app].
    rewrite length_app. cbn [length].
    replace (length (placemarks data) + 1 + 1)%nat
      with (length (placemarks data) + 2)%nat by lia.
    done.
  - intros [line Hline]. subst out1. unfold handleLocation.
    rewrite (getUserKmlData_present _ _ _ Hnamed), Hline.
    unfold pushOnActiveLine, putUserKmlData. cbn [fst userKmlData nextPointNames].
    rewrite lookup_insert_eq. split; [apply lookup_insert_eq|done].
  - intros ownName Hown Hlat Hlon Hline own. subst own. unfold addPoint.
    rewrite (getUserKmlData_present _ _ _ Hnamed), Hline.
    rewrite outOfRange_false by done.
    assert (truthy (Some ownName) = Some ownName) as -> by (by destruct ownName).
    cbn [fst snd]. unfold pushPlacemark, putUserKmlData.
    cbn [userKmlData nextPointNames].
    rewrite lookup_insert_eq. split; [apply lookup_insert_eq|done].
Qed.


Lemma draw_points (telegramId name : string) (pts : list (Z * number * number))
    (svc : Service) (data : UserKmlData) (acc : list GeoPoint) :
  userKmlData svc !! telegramId = Some data →
  activeLine data = Some (mkActiveLine name acc) →
  userKmlData
    (fold_left (λ acc p, (handleLocation p.1.1 telegramId p.1.2 p.2 acc).1)
               pts svc) !! telegramId
  = Some (mkUserKmlData (placemarks data) (lines data)
            (Some (mkActiveLine name
                     (acc ++ ((λ p, mkGeoPoint p.1.2 p.2) <$> pts))))
            (persistentPointName data)).
Proof.
  revert svc data acc.
  induction pts as [|p pts IH]; intros svc data acc Hdata Hline; cbn [fold_left].
  - cbn. rewrite app_nil_r, Hdata, <- Hline. by destruct data.
  - rewrite (IH _
      (mkUserKmlData (placemarks data) (lines data)
         (Some (mkActiveLine name (acc ++ [mkGeoPoint p.1.2 p.2])))
         (persistentPointName data))
      (acc ++ [mkGeoPoint p.1.2 p.2])).
    + rewrite fmap_cons. cbn [placemarks lines persistentPointName].
      by rewrite <- app_assoc.
    + unfold handleLocation. rewrite (getUserKmlData_present _ _ _ Hdata), Hline.
      unfold pushOnActiveLine, putUserKmlData. cbn [fst userKmlData].
      apply lookup_insert_eq.
    + done.
Qed.

(** X20.  A line is made of the points sent between /startline and
    /endline, in the order they were sent: /endline saves them under the
    name given to /startline when there are at least two, and otherwise
    refuses and leaves the line open; the individual points are not
    touched. *)
Theorem line_collects_its_points
    (endTime : Z) (telegramId name : string)
    (pts : list (Z * number * number))
    (svc : Service) (data : UserKmlData) :
  userKmlData svc !! telegramId = Some data →
  activeLine data = None →
  name ≠ "" →
  let started := (startLine telegramId (Some name) svc).1 in
  let drawn :=
    fold_left (λ acc p, (handleLocation p.1.1 telegramId p.1.2 p.2 acc).1)
              pts started in
  let out := endLine endTime telegramId drawn in
  let coords := (λ p, mkGeoPoint p.1.2 p.2) <$> pts in
  ((2 ≤ length pts)%nat →
   userKmlData out.1 !! telegramId
   = Some (mkUserKmlData (placemarks data)
             (lines data ++ [mkLineTrack name coords endTime]) None
             (persistentPointName data))) ∧
  ((length pts < 2)%nat →
   out = (drawn, tooFewPointsWarning (mkActiveLine name coords)) ∧
   userKmlData drawn !! telegramId
   = Some (mkUserKmlData (placemarks data) (lines data)
             (Some (mkActiveLine name coords)) (persistentPointName data))).
Proof.
  intros Hdata Hline Hname started drawn out coords.
  assert (userKmlData started !! telegramId
          = Some (mkUserKmlData (placemarks data) (lines data)
                    (Some (mkActiveLine name [])) (persistentPointName data)))
    as Hstarted.
  { subst started. unfold startLine.
    rewrite (getUserKmlData_present _ _ _ Hdata), Hline.
    assert (js_or (Some name) ("Garis " +:+ pretty (length (lines data) + 1)%nat)
            = name) as -> by (by destruct name).
    cbn. apply lookup_insert_eq. }
  pose proof (draw_points telegramId name pts started _ [] Hstarted eq_refl)
    as Hdrawn.
  fold drawn in Hdrawn. cbn [app placemarks lines persistentPointName] in Hdrawn.
  fold coords in Hdrawn.
  subst out. unfold endLine.
  rewrite (getUserKmlData_present _ _ _ Hdrawn). cbn [activeLine points].
  assert (length coords = length pts) as Hlen by (subst coords; apply length_fmap).
  split; intros Hpts.
  - rewrite bool_decide_false by lia. cbn. apply lookup_insert_eq.
  - rewrite bool_decide_true by lia. done.
Qed.

Lemma app_empty (a b : string) : a +:+ b = "" → a = "" ∧ b = "".
Proof. by destruct a. Qed.

Lemma lineStringPlacemark_nonempty (title : string) (coords : list GeoPoint) :
  lineStringPlacemark title coords ≠ "".
Proof. unfold lineStringPlacemark. by intros [? _]%app_empty. Qed.

Lemma pointPlacemark_nonempty (point : NamedPoint) : pointPlacemark point ≠ "".
Proof. unfold pointPlacemark. by intros [? _]%app_empty. Qed.

(** X21.  /createkml fails exactly when there is nothing to export: no
    individual point, no saved line, no line being drawn with two points or
    more.  When it succeeds, the document it returns holds at least one
    placemark: an empty document is never handed out.  (Every saved line has
    two points, the invariant of the service.) *)
Theorem createKml_exports_something
    (telegramId : string) (docName : option string) (svc : Service)
    (data : UserKmlData) :
  linesValid svc →
  userKmlData svc !! telegramId = Some data →
  let result := (createKml telegramId docName svc).2 in
  (success result = false ↔
   placemarks data = [] ∧ lines data = [] ∧
   ∀ line, activeLine data = Some line → (length (points line) < 2)%nat) ∧
  (success result = false → kmlContent result = None) ∧
  (success result = true →
   ∃ body, body ≠ "" ∧
     kmlContent result
     = Some (kmlDocument (js_or docName ("KML Data - User " +:+ telegramId))
               body)).
Proof.
  intros Hinv Hdata result. subst result. unfold createKml.
  rewrite (getUserKmlData_present _ _ _ Hdata).
  pose proof (Hinv _ _ Hdata) as Hlines.
  destruct (placemarks data) as [|point points] eqn:Hpoints;
    cbn [length bool_decide negb andb].
  2:{ rewrite bool_decide_true by lia. cbn [negb andb snd success kmlContent].
      split; [split; [done|by intros [? _]]|]. split; [done|]. intros _.
      eexists. split; [|by rewrite createKmlContent_placemarks].
      rewrite Hpoints. cbn [fmap list_fmap concatStrings foldr].
      intros [[Hp _]%app_empty _]%app_empty. by apply pointPlacemark_nonempty in Hp. }
  rewrite bool_decide_false by lia. cbn [negb andb].
  destruct (lines data) as [|line lines] eqn:Hsaved; cbn [length].
  2:{ rewrite bool_decide_true by lia. cbn [negb andb snd success kmlContent].
      split; [split; [done|by intros (_ & ? & _)]|]. split; [done|]. intros _.
      eexists. split; [|by rewrite createKmlContent_placemarks].
      rewrite Hsaved. rewrite ?Hsaved in Hlines.
      apply list.Forall_cons in Hlines as [Hline _].
      rewrite filter_cons_True by done.
      cbn [fmap list_fmap concatStrings foldr].
      intros [_ [[Hp _]%app_empty _]%app_empty]%app_empty.
      by apply lineStringPlacemark_nonempty in Hp. }
  rewrite bool_decide_false by lia. cbn [negb andb].
  destruct (activeLine data) as [line|] eqn:Hactive.
  - destruct (bool_decide (2 ≤ length (points line))%nat) eqn:Hvalid;
      cbn [negb snd success kmlContent].
    + apply bool_decide_eq_true in Hvalid.
      split; [split; [done|]|].
      { intros (_ & _ & Hshort). specialize (Hshort _ eq_refl). lia. }
      split; [done|]. intros _.
      eexists. split; [|by rewrite createKmlContent_placemarks].
      unfold activeLinePlacemark. rewrite Hactive, bool_decide_true by done.
      intros [_ [_ Hp]%app_empty]%app_empty.
      by apply lineStringPlacemark_nonempty in Hp.
    + apply bool_decide_eq_false in Hvalid.
      split; [split; [|done]|done].
      intros _. split; [done|]. split; [done|]. intros ? [= <-]. lia.
  - cbn [negb snd success kmlContent].
    split; [split; [|done]|done]. intros _. by split.
Qed.

End KmlSessions.

Section KmlRange.
Import KmlService.
Context `{JsNumberPrinter}.

Lemma coordinatesPass_put (telegramId : string) (data : UserKmlData)
    (svc : Service) :
  coordinatesPass svc → dataPasses data →
  coordinatesPass (putUserKmlData telegramId data svc).
Proof.
  intros Hinv Hdata other data'. cbn.
  destruct (decide (other = telegramId)) as [->|Hne].
  - rewrite lookup_insert_eq. by intros [= <-].
  - rewrite lookup_insert_ne by done. apply Hinv.
Qed.

Lemma dataPasses_default : dataPasses defaultData.
Proof. split; [constructor|]. split; [constructor|]. by intros line [=]. Qed.

Lemma coordinatesPass_getUserKmlData (telegramId : string) (svc : Service) :
  coordinatesPass svc →
  coordinatesPass (getUserKmlData telegramId svc).1 ∧
  dataPasses (getUserKmlData telegramId svc).2.
Proof.
  intros Hinv. unfold getUserKmlData.
  destruct (userKmlData svc !! telegramId) as [data|] eqn:Hdata; cbn [fst snd].
  - split; [done|]. by apply (Hinv telegramId).
  - split; [|apply dataPasses_default].
    apply (coordinatesPass_put telegramId defaultData svc Hinv),
      dataPasses_default.
Qed.

Lemma coordinatesPass_names (svc : Service) (names : gmap string string) :
  coordinatesPass svc → coordinatesPass (mkService (userKmlData svc) names).
Proof. done. Qed.

Lemma pickPointName_coordinatesPass (telegramId : string)
    (userData : UserKmlData) (numbered : string) (svc : Service) :
  coordinatesPass svc →
  coordinatesPass (pickPointName telegramId userData numbered svc).1.
Proof.
  intros Hinv. unfold pickPointName.
  by destruct (truthy (nextPointNames svc !! telegramId)).
Qed.

Lemma pushOnActiveLine_coordinatesPass (telegramId : string)
    (userData : UserKmlData) (line : ActiveLine) (latitude longitude : number)
    (svc : Service) :
  coordinatesPass svc → dataPasses userData →
  activeLine userData = Some line → passesRangeTest latitude longitude →
  coordinatesPass
    (pushOnActiveLine telegramId userData line latitude longitude svc).1.
Proof.
  intros Hinv (Hpoints & Hlines & Hactive) Hline Hrange.
  unfold pushOnActiveLine. cbn [fst].
  apply coordinatesPass_put; [done|].
  split; [done|]. split; [done|]. cbn. intros ? [= <-]. cbn.
  apply Forall_app. split; [by apply Hactive|]. by apply Forall_singleton.
Qed.

Lemma pushPlacemark_coordinatesPass (now : Z) (telegramId : string)
    (userData : UserKmlData) (latitude longitude : number) (pointName : string)
    (svc : Service) :
  coordinatesPass svc → dataPasses userData →
  passesRangeTest latitude longitude →
  coordinatesPass
    (pushPlacemark now telegramId userData latitude longitude pointName svc).
Proof.
  intros Hinv (Hpoints & Hlines & Hactive) Hrange. unfold pushPlacemark.
  apply coordinatesPass_put; [done|].
  split; [|by split]. cbn.
  apply Forall_app. split; [done|]. by apply Forall_singleton.
Qed.

Lemma run_coordinatesPass (now : Z) (telegramId : string) (cmd : Command)
    (svc : Service) :
  coordinatesPass svc → locationPasses cmd →
  coordinatesPass (run now telegramId cmd svc).1.
Proof.
  intros Hinv Hcmd.
  destruct (coordinatesPass_getUserKmlData telegramId svc Hinv)
    as [Hinv1 Hdata].
  destruct cmd as [userFound | pointName | pointName | lat lon pointName
                  | lat lon | lineName | | | | docName |];
    cbn [run text document fst locationPasses] in *.
  - unfold handleKmlCommand. destruct userFound; cbn [fst]; [|done].
    apply (coordinatesPass_put telegramId defaultData svc Hinv),
      dataPasses_default.
  - unfold setAlwaysPoint.
    destruct (getUserKmlData telegramId svc) as [svc1 userData];
      cbn [fst snd] in *.
    destruct Hdata as (Hpoints & Hlines & Hactive).
    destruct (nonBlank pointName); cbn [fst];
      apply coordinatesPass_put; done.
  - done.
  - unfold addPoint.
    destruct (getUserKmlData telegramId svc) as [svc1 userData];
      cbn [fst snd] in *.
    destruct (outOfRange lat lon) eqn:Htest; [done|].
    apply outOfRange_spec in Htest as Hrange.
    destruct (activeLine userData) as [line|] eqn:Hline.
    + pose proof (pushOnActiveLine_coordinatesPass telegramId userData line
                    lat lon svc1 Hinv1 Hdata Hline Hrange) as Hpush.
      destruct (pushOnActiveLine telegramId userData line lat lon svc1). done.
    + destruct (truthy pointName) as [p|].
      * cbn [fst]. by apply pushPlacemark_coordinatesPass.
      * pose proof (pickPointName_coordinatesPass telegramId userData
                      "Titik " svc1 Hinv1) as Hpick.
        destruct (pickPointName telegramId userData "Titik " svc1)
          as [svc2 name]. cbn [fst] in *.
        by apply pushPlacemark_coordinatesPass.
  - unfold handleLocation.
    destruct (getUserKmlData telegramId svc) as [svc1 userData];
      cbn [fst snd] in *.
    destruct (activeLine userData) as [line|] eqn:Hline.
    + by apply pushOnActiveLine_coordinatesPass.
    + pose proof (pickPointName_coordinatesPass telegramId userData
                    "Titik Terlampir " svc1 Hinv1) as Hpick.
      destruct (pickPointName telegramId userData "Titik Terlampir " svc1)
        as [svc2 name]. cbn [fst] in *.
      by apply pushPlacemark_coordinatesPass.
  - unfold startLine.
    destruct (getUserKmlData telegramId svc) as [svc1 userData];
      cbn [fst snd] in *.
    destruct Hdata as (Hpoints & Hlines & Hactive).
    destruct (activeLine userData); cbn [fst]; [done|].
    apply coordinatesPass_put; [done|].
    split; [done|]. split; [done|]. cbn. intros ? [= <-]. constructor.
  - unfold endLine.
    destruct (getUserKmlData telegramId svc) as [svc1 userData];
      cbn [fst snd] in *.
    destruct Hdata as (Hpoints & Hlines & Hactive).
    destruct (activeLine userData) as [line|] eqn:Hline; [|done].
    destruct (bool_decide (length (points line) < 2)%nat); cbn [fst]; [done|].
    apply coordinatesPass_put; [done|].
    split; [done|]. split; [|by intros ? [=]]. cbn.
    apply Forall_app. split; [done|]. apply Forall_singleton. by apply Hactive.
  - unfold cancelLine.
    destruct (getUserKmlData telegramId svc) as [svc1 userData];
      cbn [fst snd] in *.
    destruct Hdata as (Hpoints & Hlines & Hactive).
    destruct (activeLine userData) as [line|]; cbn [fst]; [|done].
    apply coordinatesPass_put; [done|].
    split; [done|]. split; [done|]. by intros ? [=].
  - by rewrite getMyData_service.
  - by rewrite createKml_service.
  - unfold clearData. cbn [fst].
    apply coordinatesPass_names.
    apply (coordinatesPass_put telegramId defaultData svc Hinv),
      dataPasses_default.
Qed.

(** X22.  Every coordinate the service stores is one that the range test
    of /add lets through, as long as the locations that come as attachments
    are: a latitude from -90 to 90 or NaN, a longitude from -180 to 180 or
    NaN, for the individual points, the saved lines and the line being
    drawn, after every series of commands.  A point given as text is
    refused, and nothing is stored, exactly when one of its coordinates is
    a number outside its range or an infinity.  NaN is not refused, since
    every comparison with NaN is false: /add with NaN coordinates stores a
    point whose coordinates are NaN.  [handleLocation] stores the location
    it is given as it is. *)
Theorem stored_coordinates_pass_the_range_test :
  (∀ events : list (Z * string * Command),
     Forall (λ ev, locationPasses ev.2) events →
     coordinatesPass (runAll events emptyService)) ∧
  (∀ (now : Z) (telegramId : string) (cmd : Command) (svc : Service),
     coordinatesPass svc → locationPasses cmd →
     coordinatesPass (run now telegramId cmd svc).1) ∧
  (∀ (now : Z) (telegramId : string) (latitude longitude : number)
     (pointName : option string) (svc : Service),
     (¬ passesRangeTest latitude longitude →
      addPoint now telegramId latitude longitude pointName svc
      = ((getUserKmlData telegramId svc).1,
         "Koordinat tidak valid atau di luar jangkauan.")) ∧
     (passesRangeTest latitude longitude →
      (addPoint now telegramId latitude longitude pointName svc).2
      ≠ "Koordinat tidak valid atau di luar jangkauan.")) ∧
  (∀ (now : Z) (telegramId : string),
     passesRangeTest NaN NaN ∧
     (placemarks <$>
        userKmlData (addPoint now telegramId NaN NaN (Some "P") emptyService).1
          !! telegramId)
     = Some [mkNamedPoint NaN NaN "P" now]).
Proof.
  split_and!.
  - intros events Hevents. unfold runAll.
    assert (coordinatesPass emptyService) as Hinit
      by (intros telegramId data; done).
    revert Hinit. generalize emptyService.
    induction Hevents as [|ev events Hev _ IH]; intros svc Hinv; [done|].
    cbn [fold_left]. apply IH. by apply run_coordinatesPass.
  - apply run_coordinatesPass.
  - intros now telegramId latitude longitude pointName svc. unfold addPoint.
    destruct (getUserKmlData telegramId svc) as [svc1 userData]. cbn [fst].
    destruct (outOfRange latitude longitude) eqn:Htest.
    + split; [done|]. intros Hpass. apply outOfRange_spec in Hpass. congruence.
    + apply outOfRange_spec in Htest. split; [done|]. intros _.
      destruct (activeLine userData) as [line|].
      * destruct (pushOnActiveLine _ _ _ _ _ _) as [svc2 message] eqn:Hpush.
        unfold pushOnActiveLine in Hpush. injection Hpush as _ <-.
        cbn [snd]. destruct (truthy pointName); cbn [String.app]; by intros [=].
      * destruct (match truthy pointName with
                  | Some p => (svc1, p)
                  | None => pickPointName telegramId userData "Titik " svc1
                  end) as [svc2 finalPointName].
        cbn [snd String.app]. by intros [=].
  - intros now telegramId. split; [done|].
    unfold addPoint, getUserKmlData, initUserKmlData, emptyService.
    cbn [userKmlData]. rewrite lookup_empty.
    cbn. by rewrite lookup_insert_eq.
Qed.

End KmlRange.

(** ** Sessions of the mode system *)

Section ModeSessions.
Import ModeManager.

Lemma getUserMode_emit (userId : Z) (e : Event) (w : World) :
  getUserMode userId (emit e w) = getUserMode userId w.
Proof. done. Qed.

Lemma get_updateLastActivity_other (now userId other : Z) (w : World) :
  other ≠ userId →
  JsMap.get other (userModes (updateLastActivity now userId w))
  = JsMap.get other (userModes w).
Proof.
  intros Hne. unfold updateLastActivity.
  destruct (JsMap.get userId (userModes w)); [|done].
  cbn. by apply JsMap_get_set_ne.
Qed.

Lemma getUserMode_updateLastActivity (now userId user : Z) (w : World) :
  getUserMode user (updateLastActivity now userId w) = getUserMode user w.
Proof.
  unfold getUserMode.
  destruct (decide (user = userId)) as [->|Hne].
  - unfold updateLastActivity.
    destruct (JsMap.get userId (userModes w)) as [state|] eqn:Hget.
    + cbn [userModes]. by rewrite JsMap_get_set_eq.
    + by rewrite Hget.
  - by rewrite get_updateLastActivity_other.
Qed.

Lemma featureStates_updateLastActivity (now userId : Z) (w : World) :
  featureStates (updateLastActivity now userId w) = featureStates w.
Proof.
  unfold updateLastActivity. by destruct (JsMap.get userId (userModes w)).
Qed.

Lemma getUserMode_setUserMode_other (now userId other : Z) (mode : BotMode)
    (w : World) :
  other ≠ userId →
  getUserMode other (setUserMode now userId mode w) = getUserMode other w.
Proof. intros Hne. unfold getUserMode. by rewrite get_setUserMode_other. Qed.

Lemma featureStates_setUserMode_Some (now userId user : Z) (mode : BotMode)
    (m : Mode) (state : FeatureState) (w : World) :
  featureStates (setUserMode now userId mode w) m !! user = Some state →
  featureStates w m !! user = Some state ∧
  (user = userId → getUserMode userId w = Some m → mode = Some m).
Proof.
  unfold setUserMode. fold (getUserMode userId w).
  destruct (getUserMode userId w) as [prev|] eqn:Hprev; [|by intros ?; split].
  destruct (bool_decide (Some prev ≠ mode)) eqn:Hswitch; cbn.
  - destruct (decide (prev = m)) as [->|Hm].
    + rewrite fn_lookup_insert. rewrite lookup_delete_Some.
      intros [Hne Hstate]. split; [done|]. by intros ->.
    + rewrite fn_lookup_insert_ne by done. intros Hstate. split; [done|].
      intros _ [= ->]. done.
  - apply bool_decide_eq_false in Hswitch. apply dec_stable in Hswitch.
    intros Hstate. split; [done|]. intros _ [= ->]. done.
Qed.

Lemma setUserMode_featureStateOnlyInMode (now userId : Z) (mode : BotMode)
    (w : World) :
  featureStateOnlyInMode w → featureStateOnlyInMode (setUserMode now userId mode w).
Proof.
  intros Hinv m user state Hstate.
  apply featureStates_setUserMode_Some in Hstate as [Hstate Hsame].
  specialize (Hinv _ _ _ Hstate).
  destruct (decide (user = userId)) as [->|Hne].
  - rewrite getUserMode_setUserMode. by apply Hsame.
  - by rewrite getUserMode_setUserMode_other.
Qed.

Lemma emit_featureStateOnlyInMode (e : Event) (w : World) :
  featureStateOnlyInMode w → featureStateOnlyInMode (emit e w).
Proof. done. Qed.

Lemma updateLastActivity_featureStateOnlyInMode (now userId : Z) (w : World) :
  featureStateOnlyInMode w →
  featureStateOnlyInMode (updateLastActivity now userId w).
Proof.
  intros Hinv m user state.
  rewrite featureStates_updateLastActivity, getUserMode_updateLastActivity.
  apply Hinv.
Qed.

Lemma initializeUserState_featureStateOnlyInMode (mode : Mode) (now userId : Z)
    (w : World) :
  featureStateOnlyInMode w → getUserMode userId w = Some mode →
  featureStateOnlyInMode (initializeUserState mode now userId w).
Proof.
  intros Hinv Hmode m user state. unfold initializeUserState. cbn.
  change (getUserMode user {| userModes := userModes w;
            featureStates := <[mode:=<[userId:={| feature_userId := userId;
              feature_mode := mode; startTime := now |}]> (featureStates w mode)]>
              (featureStates w); trace := trace w |})
    with (getUserMode user w).
  destruct (decide (mode = m)) as [->|Hm].
  - rewrite fn_lookup_insert.
    destruct (decide (user = userId)) as [->|Hne]; [done|].
    rewrite lookup_insert_ne by done. apply Hinv.
  - rewrite fn_lookup_insert_ne by done. apply Hinv.
Qed.

Lemma sweep_featureStateOnlyInMode (now : Z) (timeoutMs : option Z) (w : World) :
  featureStateOnlyInMode w →
  featureStateOnlyInMode (cleanupInactiveSessions now timeoutMs w).
Proof.
  unfold cleanupInactiveSessions. generalize (userModes w) at 1. intros entries.
  revert w. induction entries as [|entry entries IH]; intros w Hinv; [done|].
  cbn [fold_left]. apply IH. unfold sweepStep.
  destruct (bool_decide _); [|done].
  by apply setUserMode_featureStateOnlyInMode.
Qed.

(** The calls that go through a handler or the transition manager leave
    the sessions and the handler states as they are. *)
Lemma runOp_handler_frame (now : Z) (bot : TelegramBot) (op : Op) (w : World) :
  match op with
  | UpdateLastActivity _ | CleanupInactiveSessions _ => True
  | _ =>
      userModes (runOp now bot op w) = userModes w ∧
      featureStates (runOp now bot op w) = featureStates w
  end.
Proof.
  destruct op as [mode userId chatId access welcome | userId newMode chatId
                 | mode command userId chatId routeThrows
                 | mode userId chatId processThrows | userId | timeoutMs];
    cbn [runOp]; [| | | | done | done].
  - rewrite enterMode_unbound. cbn zeta.
    destruct access as [[|]|e]; repeat (destruct (bot chatId _)); done.
  - rewrite transitionToMode_unbound. by destruct (bot chatId _).
  - rewrite handleCommand_unbound. by destruct (presentUserId userId).
  - rewrite handleMessage_unbound. by destruct (presentUserId userId).
Qed.

Lemma featureStateOnlyInMode_frame (w w' : World) :
  userModes w' = userModes w → featureStates w' = featureStates w →
  featureStateOnlyInMode w → featureStateOnlyInMode w'.
Proof.
  intros Hmodes Hstates Hinv mode user state.
  unfold getUserMode. rewrite Hmodes, Hstates. apply Hinv.
Qed.

Lemma runOp_featureStateOnlyInMode (now : Z) (bot : TelegramBot) (op : Op)
    (w : World) :
  featureStateOnlyInMode w → featureStateOnlyInMode (runOp now bot op w).
Proof.
  intros Hinv. pose proof (runOp_handler_frame now bot op w) as Hframe.
  destruct op as [mode userId chatId access welcome | userId newMode chatId
                 | mode command userId chatId routeThrows
                 | mode userId chatId processThrows | userId | timeoutMs];
    [destruct Hframe as [Hmodes Hstates];
     by apply (featureStateOnlyInMode_frame w).. | |].
  - by apply updateLastActivity_featureStateOnlyInMode.
  - by apply sweep_featureStateOnlyInMode.
Qed.

(** X23.  A handler holds a state for a user only while the user is in the
    handler's mode: whatever handlers are entered, transitions made,
    commands and messages handled and sweeps run, a state of mode M for user
    U exists only while the current mode of U is M. *)
Theorem feature_state_only_in_current_mode :
  (∀ ops : list (Z * TelegramBot * Op),
     featureStateOnlyInMode (runOps ops emptyWorld)) ∧
  (∀ (now : Z) (bot : TelegramBot) (op : Op) (w : World),
     featureStateOnlyInMode w → featureStateOnlyInMode (runOp now bot op w)) ∧
  (∀ (now userId : Z) (mode : BotMode) (w : World),
     featureStateOnlyInMode w →
     featureStateOnlyInMode (setUserMode now userId mode w)).
Proof.
  split; [|split].
  - intros ops. unfold runOps.
    assert (featureStateOnlyInMode emptyWorld) as Hinit by (intros ? ? ?; done).
    revert Hinit. generalize emptyWorld.
    induction ops as [|op ops IH]; intros w Hinv; [done|].
    cbn [fold_left]. apply IH. by apply runOp_featureStateOnlyInMode.
  - apply runOp_featureStateOnlyInMode.
  - apply setUserMode_featureStateOnlyInMode.
Qed.


Lemma sweepStep_other (now timeout other : Z) (entry : Z * UserModeState)
    (acc : World) :
  other ≠ entry.1 →
  JsMap.get other (userModes (sweepStep now timeout acc entry))
  = JsMap.get other (userModes acc).
Proof.
  intros Hne. unfold sweepStep. destruct (bool_decide _); [|done].
  by apply get_setUserMode_other.
Qed.

Lemma presentUserId_Some (userId : option Z) (uid : Z) :
  presentUserId userId = Some uid → userId = Some uid.
Proof. destruct userId as [[| |]|]; cbn; congruence. Qed.

(** X24.  The sessions of two users do not touch each other: a handler
    entered, a transition, a command, a message or a refresh of the activity
    time of one user leaves the session and the handler states of every other
    user as they are.  (The sweep is the one call that is about every
    user.) *)
Theorem mode_sessions_are_per_user
    (now : Z) (bot : TelegramBot) (op : Op) (other : Z) (w : World) :
  ¬ concerns op other →
  JsMap.get other (userModes (runOp now bot op w))
  = JsMap.get other (userModes w) ∧
  ∀ mode, featureStates (runOp now bot op w) mode !! other
          = featureStates w mode !! other.
Proof.
  intros Hother. pose proof (runOp_handler_frame now bot op w) as Hframe.
  destruct op as [mode userId chatId access welcome | userId newMode chatId
                 | mode command userId chatId routeThrows
                 | mode userId chatId processThrows | userId | timeoutMs];
    cbn [runOp concerns] in *;
    [by destruct Hframe as [-> ->].. | | done].
  assert (other ≠ userId) as Hne by congruence.
  rewrite featureStates_updateLastActivity.
  split; [by apply get_updateLastActivity_other|done].
Qed.


Lemma sweep_fold_idle (now timeout : Z) (entries : list (Z * UserModeState))
    (acc : World) :
  Forall (λ entry, ¬ now - lastActivity entry.2 > timeout) entries →
  fold_left (sweepStep now timeout) entries acc = acc.
Proof.
  revert acc. induction entries as [|entry entries IH]; intros acc Hidle; [done|].
  apply list.Forall_cons in Hidle as [Hentry Hidle].
  cbn [fold_left]. unfold sweepStep at 2.
  rewrite bool_decide_false by done. by apply IH.
Qed.

Lemma sweep_fold_trace (now timeout : Z) (entries : list (Z * UserModeState))
    (acc : World) (user : Z) :
  (∀ s, (user, s) ∈ entries → ¬ now - lastActivity s > timeout) →
  ∃ events,
    trace (fold_left (sweepStep now timeout) entries acc) = trace acc ++ events ∧
    Forall (λ e, ∀ mode, e ≠ ModeCleanup user mode) events.
Proof.
  revert acc. induction entries as [|[k s] entries IH]; intros acc Hkeep.
  - exists []. by rewrite app_nil_r.
  - cbn [fold_left].
    destruct (IH (sweepStep now timeout acc (k, s))) as (events & -> & Hevents).
    { intros s' Hin. apply Hkeep. by right. }
    unfold sweepStep. cbn [fst snd].
    destruct (bool_decide (now - lastActivity s > timeout)) eqn:Hexpired;
      [|by exists events].
    apply bool_decide_eq_true in Hexpired.
    assert (k ≠ user) as Hne.
    { intros ->. apply (Hkeep s); [by left|done]. }
    unfold setUserMode.
    destruct (JsMap.get k (userModes acc) ≫= currentMode) as [prev|];
      [|by exists events].
    destruct (bool_decide (Some prev ≠ None)); [|by exists events].
    cbn. exists (ModeCleanup k (Some prev) :: events).
    rewrite <- app_assoc. split; [done|].
    apply list.Forall_cons. split; [|done]. intros mode [= ? _]. done.
Qed.

Lemma sweepStep_get (now timeout : Z) (entry : Z * UserModeState) (acc : World)
    (k : Z) :
  JsMap.get k (userModes (sweepStep now timeout acc entry))
  = if bool_decide (now - lastActivity entry.2 > timeout ∧ k = entry.1)
    then Some (mkUserModeState k None (getUserMode k acc) now now)
    else JsMap.get k (userModes acc).
Proof.
  unfold sweepStep.
  destruct (bool_decide (now - lastActivity entry.2 > timeout)) eqn:Hexpired.
  - apply bool_decide_eq_true in Hexpired. rewrite setUserMode_userModes.
    destruct (decide (k = entry.1)) as [->|Hne].
    + rewrite bool_decide_true by done. apply JsMap_get_set_eq.
    + rewrite bool_decide_false by (intros [_ ?]; done).
      by apply JsMap_get_set_ne.
  - apply bool_decide_eq_false in Hexpired.
    by rewrite bool_decide_false by (intros [? _]; done).
Qed.

Lemma sweep_fold_reset (now timeout : Z) (entries : list (Z * UserModeState))
    (acc : World) (k : Z) (s0 s : UserModeState) :
  NoDup entries.*1 →
  (∀ k' s', (k', s') ∈ entries → JsMap.get k' (userModes acc) = Some s') →
  (k, s0) ∈ entries →
  now - lastActivity s0 > timeout →
  JsMap.get k (userModes (fold_left (sweepStep now timeout) entries acc)) = Some s →
  lastActivity s = now.
Proof.
  revert acc. induction entries as [|[k' s'] entries IH];
    intros acc Hnodup Hacc Hin Hold Hget.
  - by apply elem_of_nil in Hin.
  - cbn [fold_left] in Hget. cbn [fmap list_fmap fst] in Hnodup.
    apply list.NoDup_cons in Hnodup as [Hnotin Hnodup].
    apply elem_of_cons in Hin as [[= -> ->]|Hin].
    + (* [k] is reset here and no later entry is about [k] *)
      assert (JsMap.get k'
                (userModes (fold_left (sweepStep now timeout) entries
                              (sweepStep now timeout acc (k', s'))))
              = JsMap.get k' (userModes (sweepStep now timeout acc (k', s'))))
        as Hrest.
      { clear -Hnotin. generalize (sweepStep now timeout acc (k', s')).
        induction entries as [|entry entries IH]; intros acc'; [done|].
        cbn [fold_left]. rewrite IH.
        - apply sweepStep_other. intros ->. apply Hnotin.
          cbn [fmap list_fmap]. left.
        - intros Hin. apply Hnotin. cbn [fmap list_fmap]. by right. }
      rewrite Hrest, sweepStep_get in Hget. cbn [fst snd] in Hget.
      rewrite bool_decide_true in Hget by done. by injection Hget as <-.
    + apply (IH (sweepStep now timeout acc (k', s'))); try done.
      intros k'' s'' Hin''. rewrite sweepStep_get. cbn [fst snd].
      rewrite bool_decide_false.
      * apply Hacc. by right.
      * intros [_ ->]. apply Hnotin. apply list_elem_of_fmap.
        by exists (k', s'').
Qed.

(** A session the sweep visits stays in the map: it is overwritten with no
    mode, its old mode as the previous one and the time of the sweep. *)
Lemma sweep_fold_expired (now timeout : Z) (entries : list (Z * UserModeState))
    (acc : World) (k : Z) (s0 : UserModeState) :
  NoDup entries.*1 →
  (∀ k' s', (k', s') ∈ entries → JsMap.get k' (userModes acc) = Some s') →
  (k, s0) ∈ entries →
  now - lastActivity s0 > timeout →
  JsMap.get k (userModes (fold_left (sweepStep now timeout) entries acc))
  = Some (mkUserModeState k None (currentMode s0) now now).
Proof.
  revert acc. induction entries as [|[k' s'] entries IH];
    intros acc Hnodup Hacc Hin Hold.
  - by apply elem_of_nil in Hin.
  - cbn [fold_left]. cbn [fmap list_fmap fst] in Hnodup.
    apply list.NoDup_cons in Hnodup as [Hnotin Hnodup].
    apply elem_of_cons in Hin as [[= -> ->]|Hin].
    + assert (JsMap.get k'
                (userModes (fold_left (sweepStep now timeout) entries
                              (sweepStep now timeout acc (k', s'))))
              = JsMap.get k' (userModes (sweepStep now timeout acc (k', s'))))
        as ->.
      { clear -Hnotin. generalize (sweepStep now timeout acc (k', s')).
        induction entries as [|entry entries IH]; intros acc'; [done|].
        cbn [fold_left]. rewrite IH.
        - apply sweepStep_other. intros ->. apply Hnotin.
          cbn [fmap list_fmap]. left.
        - intros Hin. apply Hnotin. cbn [fmap list_fmap]. by right. }
      rewrite sweepStep_get. cbn [fst snd].
      rewrite bool_decide_true by done.
      unfold getUserMode. rewrite (Hacc k' s') by (by left). done.
    + apply (IH (sweepStep now timeout acc (k', s'))); try done.
      intros k'' s'' Hin''. rewrite sweepStep_get. cbn [fst snd].
      rewrite bool_decide_false.
      * apply Hacc. by right.
      * intros [_ ->]. apply Hnotin. apply list_elem_of_fmap.
        by exists (k', s'').
Qed.

(** X25.  Activity protects a session: when the activity time of a user
    was refreshed at [seen] ([updateLastActivity], which the handler of the
    user's mode calls for every command and message it accepts), a sweep at
    a time [now] with [now - seen] not above the timeout leaves the mode of
    the user, the session record and the states the handlers hold for the
    user as they are, and emits no cleanup event for the user. *)
Theorem activity_protects_from_sweep
    (seen now : Z) (timeoutMs : option Z) (userId : Z) (w : World)
    (session : UserModeState) :
  oneEntryPerUser w →
  JsMap.get userId (userModes w) = Some session →
  ¬ now - seen > default defaultTimeoutMs timeoutMs →
  let active := updateLastActivity seen userId w in
  let swept := cleanupInactiveSessions now timeoutMs active in
  JsMap.get userId (userModes swept)
  = Some (mkUserModeState (ModeManager.userId session) (currentMode session)
            (previousMode session) (modeStartTime session) seen) ∧
  getUserMode userId swept = getUserMode userId w ∧
  (∀ mode, featureStates swept mode !! userId = featureStates w mode !! userId) ∧
  ∃ events, trace swept = trace w ++ events ∧
            Forall (λ e, ∀ mode, e ≠ ModeCleanup userId mode) events.
Proof.
  intros Hnodup Hsession Hfresh active swept.
  assert (oneEntryPerUser active) as Hnodup'
    by (by apply updateLastActivity_oneEntryPerUser).
  set (session' := mkUserModeState (ModeManager.userId session)
                     (currentMode session) (previousMode session)
                     (modeStartTime session) seen).
  assert (JsMap.get userId (userModes active) = Some session') as Hactive.
  { subst active. unfold updateLastActivity. rewrite Hsession. cbn.
    apply JsMap_get_set_eq. }
  pose proof (sweep_sessions now timeoutMs active Hnodup' userId) as Hsweep.
  pose proof (sweep_featureStates now timeoutMs active Hnodup' userId) as Hstates.
  cbn zeta in Hsweep, Hstates. rewrite Hactive in Hsweep, Hstates.
  destruct Hsweep as [_ Hkeep]. specialize (Hkeep Hfresh).
  fold swept in Hkeep. split; [done|]. split.
  { unfold getUserMode. rewrite Hkeep, Hsession. done. }
  split.
  { intros mode. destruct (Hstates mode) as [_ Hsame].
    fold swept in Hsame. rewrite Hsame by done.
    subst active. by rewrite featureStates_updateLastActivity. }
  subst swept. unfold cleanupInactiveSessions.
  replace (trace w) with (trace active)
    by (subst active; unfold updateLastActivity; by rewrite Hsession).
  apply sweep_fold_trace. intros s Hin.
  apply (JsMap_get_elem _ _ _ Hnodup') in Hin. rewrite Hactive in Hin.
  injection Hin as <-. done.
Qed.

(** X26.  A sweep repeated at the same time does nothing more: with a
    timeout that is not negative, the second sweep leaves the sessions, the
    handler states and the events as the first one left them (no session is
    reset twice, no cleanup event is emitted twice). *)
Theorem sweep_is_idempotent (now : Z) (timeoutMs : option Z) (w : World) :
  oneEntryPerUser w →
  0 ≤ default defaultTimeoutMs timeoutMs →
  cleanupInactiveSessions now timeoutMs (cleanupInactiveSessions now timeoutMs w)
  = cleanupInactiveSessions now timeoutMs w.
Proof.
  intros Hnodup Htimeout.
  set (swept := cleanupInactiveSessions now timeoutMs w).
  unfold cleanupInactiveSessions at 1. apply sweep_fold_idle.
  assert (oneEntryPerUser swept) as Hnodup'
    by (by apply cleanupInactiveSessions_oneEntryPerUser).
  apply list.Forall_forall. intros [k s] Hin. cbn [snd].
  apply (JsMap_get_elem _ _ _ Hnodup') in Hin.
  pose proof (sweep_sessions now timeoutMs w Hnodup k) as Hsweep.
  cbn zeta in Hsweep. fold swept in Hsweep.
  destruct (JsMap.get k (userModes w)) as [s0|] eqn:Hget; [|congruence].
  destruct Hsweep as [Hexpired Hkept].
  destruct (decide (now - lastActivity s0 > default defaultTimeoutMs timeoutMs))
    as [Hold|Hfresh].
  - (* the session was reset by the first sweep: its activity time is [now] *)
    assert (lastActivity s = now) as ->; [|lia].
    clear Hexpired Hkept.
    subst swept. unfold cleanupInactiveSessions in Hin.
    pose proof (sweep_fold_reset now (default defaultTimeoutMs timeoutMs)
                  (userModes w) w k s0 s) as Hreset.
    apply Hreset; try done.
    + intros k' s' Hin'. by apply JsMap_get_elem.
    + by apply JsMap_elem_get.
  - rewrite Hkept in Hin by done. injection Hin as <-. done.
Qed.


(** X27.  As it is written, a guarded transition never changes a mode.
    [transitionToMode] reads the current mode through the exported
    [getUserMode], which is not bound to the manager; the call throws, the
    [catch] sends the notice of the failure and the answer is [false],
    whatever mode the user is in and whatever mode is asked for.  The
    sessions and the handler states are as before; the call is rejected when
    the notice cannot be sent, and it never answers [true]. *)
Theorem transitionToMode_always_fails
    (now userId : Z) (newMode : BotMode) (bot : TelegramBot) (chatId : Z)
    (w : World) :
  let out := transitionToMode now userId newMode bot chatId w in
  userModes out.1 = userModes w ∧ featureStates out.1 = featureStates w ∧
  getUserMode userId out.1 = getUserMode userId w ∧
  out.2 ≠ Resolved true ∧
  (bot chatId transitionFailedNotice = true →
   out.2 = Resolved false ∧
   trace out.1 = trace w ++ [SendMessage chatId transitionFailedNotice]) ∧
  (bot chatId transitionFailedNotice = false →
   out.2 = Rejected "sendMessage failed" ∧ trace out.1 = trace w).
Proof.
  intros out. subst out. rewrite transitionToMode_unbound.
  destruct (bot chatId transitionFailedNotice); cbn [fst snd]; split_and!;
    done.
Qed.

(** X28.  As it is written, a handler passes nothing to its feature.
    [handleCommand] and [handleMessage] test the mode of the sender through
    the exported [isUserInMode], which is not bound to the manager, outside
    any [try]: for every sender with an id the call is rejected with the
    [TypeError], whether the sender is in the mode of the handler or not;
    nothing is sent, no activity time is refreshed and the feature is not
    called.  An update without a sender is dropped.  So in no series of
    calls of the mode system does a command or a message reach a feature. *)
Theorem handlers_reject_every_sender
    (mode : Mode) (now : Z) (command : string) (userId : option Z) (chatId : Z)
    (bot : TelegramBot) (throws : bool) (w : World) :
  let byCommand := handleCommand mode now command userId chatId bot throws w in
  let byMessage := handleMessage mode now userId chatId bot throws w in
  byCommand.1 = w ∧ byMessage.1 = w ∧
  (presentUserId userId = None →
   byCommand.2 = Resolved tt ∧ byMessage.2 = Resolved tt) ∧
  (presentUserId userId ≠ None →
   byCommand.2 = Rejected (TypeError_undefined "getUserMode") ∧
   byMessage.2 = Rejected (TypeError_undefined "getUserMode")) ∧
  (∀ (ops : list (Z * TelegramBot * Op)) (w0 : World),
     ∃ events, trace (runOps ops w0) = trace w0 ++ events ∧
               Forall (λ e, ¬ reachesFeature e) events).
Proof.
  intros byCommand byMessage. subst byCommand byMessage.
  rewrite handleCommand_unbound, handleMessage_unbound.
  split_and!; try (by destruct (presentUserId userId)).
  apply runOps_trace.
Qed.

(** X29.  As it is written, entering a handler creates no session.
    [enterMode] sets the mode through the exported [setUserMode], which is
    not bound to the manager; the call throws inside the [try], so a user
    with access is answered with the notice of the failure, as is a user
    whose access check throws, and a user without access with the notice of
    the refusal.  In every case the sessions and the handler states are as
    before and no welcome message is sent.  A mode system that starts empty
    therefore stays empty: after any series of calls no user has a session
    and no handler holds a state. *)
Theorem enterMode_creates_no_session
    (mode : Mode) (now userId : Z) (bot : TelegramBot) (chatId : Z)
    (access : Promise bool) (welcome : string) (w : World) :
  let out := enterMode mode now userId bot chatId access welcome w in
  userModes out.1 = userModes w ∧ featureStates out.1 = featureStates w ∧
  (delivers bot →
   out = (emit (SendMessage chatId
                  match access with
                  | Resolved false => noAccessNotice
                  | _ => enterFailedNotice
                  end) w,
          Resolved tt)) ∧
  (∀ ops : list (Z * TelegramBot * Op),
     userModes (runOps ops emptyWorld) = [] ∧
     featureStates (runOps ops emptyWorld) = featureStates emptyWorld).
Proof.
  intros out. subst out. rewrite enterMode_unbound. cbn zeta. split_and!.
  - destruct access as [[|]|e]; repeat (destruct (bot chatId _)); done.
  - destruct access as [[|]|e]; repeat (destruct (bot chatId _)); done.
  - intros Hbot. rewrite !Hbot. by destruct access as [[|]|e].
  - intros ops. unfold runOps.
    assert (userModes emptyWorld = [] ∧
            featureStates emptyWorld = featureStates emptyWorld) as Hinit by done.
    revert Hinit. generalize emptyWorld at 1 2 4 5. intros w0.
    revert w0. induction ops as [| op ops IH]; intros w0 [Hmodes Hstates];
      [done |].
    cbn [fold_left]. apply IH.
    pose proof (runOp_handler_frame op.1.1 op.1.2 op.2 w0) as Hframe.
    destruct op.2 as [mode' userId' chatId' access' welcome'
                     | userId' newMode' chatId'
                     | mode' command' userId' chatId' routeThrows'
                     | mode' userId' chatId' processThrows'
                     | userId' | timeoutMs'];
      [by destruct Hframe as [-> ->].. | |]; cbn [runOp].
    + unfold updateLastActivity. by rewrite Hmodes.
    + unfold cleanupInactiveSessions. by rewrite Hmodes.
Qed.

(** X30.  As it is written, a method decorated with [requireMode] never
    runs.  The decorator reads the mode of the sender through the exported
    [getUserMode], which is not bound to the manager, outside any [try]: for
    every sender with an id the call is rejected with the [TypeError],
    whatever mode the sender is in; no notice is sent, no activity time is
    refreshed, and the outcome is the same whatever the method is.  An
    update without a sender is answered with [undefined]. *)
Theorem requireMode_rejects_every_sender {A}
    (requiredMode : BotMode) (method other : Async A) (now : Z)
    (userId : option Z) (chatId : Z) (bot : TelegramBot) (w : World) :
  let out := requireMode requiredMode method now userId chatId bot w in
  out.1 = w ∧
  (presentUserId userId = None → out.2 = Resolved None) ∧
  (presentUserId userId ≠ None →
   out.2 = Rejected (TypeError_undefined "userModes")) ∧
  out = requireMode requiredMode other now userId chatId bot w.
Proof.
  intros out. subst out. rewrite !requireMode_unbound.
  split_and!; by destruct (presentUserId userId).
Qed.

End ModeSessions.

(** ** The sweeps of the two state maps (C7) *)

Section Sweeps.
Import ModeManager.
Context `{JsNumberPrinter} `{JsDate.Host}.

(** C7, as amended.  [cleanupExpiredStates] removes exactly the states whose
    time stamp is more than [STATE_TIMEOUT] old and leaves every other entry
    present and unchanged; the stamp is the time the state was created, and
    no command of the user but the one that creates the state anew changes
    it, so the time of the last use plays no part.  [cleanupInactiveSessions]
    visits exactly the sessions whose last activity is more than the timeout
    old: such a session is not removed but overwritten, with no mode, the
    old mode as the previous one and the time of the sweep, so [getUserMode]
    reports [null] for its user, and the state the handler of the old mode
    held for the user is dropped; every other session and handler state is
    left as it is, and no entry is added. *)
Theorem sweep_removes_exactly_expired :
  (∀ (now : Z) (userStates : GeotagsService.Store) (key : string),
     let swept := GeotagsService.cleanupExpiredStates now userStates in
     match userStates !! key with
     | Some state =>
         (now - GeotagsService.timestamp state > GeotagsService.STATE_TIMEOUT →
          swept !! key = None) ∧
         (¬ now - GeotagsService.timestamp state
              > GeotagsService.STATE_TIMEOUT →
          swept !! key = Some state)
     | None => swept !! key = None
     end) ∧
  (∀ (now : Z) (telegramId : string) (cmd : GeotagsService.Command)
     (svc : GeotagsService.Service) (state : GeotagsService.UserGeotagsState),
     cmd ≠ GeotagsService.HandleGeotagsCommand true →
     GeotagsService.userStates svc !! telegramId = Some state →
     (GeotagsService.timestamp <$>
        GeotagsService.userStates (GeotagsService.run now telegramId cmd svc).1
          !! telegramId)
     = Some (GeotagsService.timestamp state)) ∧
  (∀ (now : Z) (timeoutMs : option Z) (w : World) (userId : Z),
     oneEntryPerUser w →
     let timeout := default defaultTimeoutMs timeoutMs in
     let swept := cleanupInactiveSessions now timeoutMs w in
     match JsMap.get userId (userModes w) with
     | Some session =>
         (now - lastActivity session > timeout →
          JsMap.get userId (userModes swept)
            = Some (mkUserModeState userId None (currentMode session) now now) ∧
          getUserMode userId swept = None ∧
          ∀ m, currentMode session = Some m →
               featureStates swept m !! userId = None) ∧
         (¬ now - lastActivity session > timeout →
          JsMap.get userId (userModes swept) = Some session ∧
          ∀ m, featureStates swept m !! userId = featureStates w m !! userId)
     | None =>
         JsMap.get userId (userModes swept) = None ∧
         ∀ m, featureStates swept m !! userId = featureStates w m !! userId
     end).
Proof.
  split_and!.
  - intros now userStates key swept. unfold swept.
    unfold GeotagsService.cleanupExpiredStates, GeotagsService.expired.
    destruct (userStates !! key) as [state |] eqn:Hget.
    + split; intros Hidle.
      * apply map_lookup_filter_None. right. intros state' Hget' Hkeep.
        cbn in Hkeep. rewrite Hget in Hget'. injection Hget' as <-.
        by rewrite bool_decide_eq_true_2 in Hkeep.
      * apply map_lookup_filter_Some. split; [done |]. cbn.
        by rewrite bool_decide_eq_false_2.
    + apply map_lookup_filter_None. by left.
  - intros now telegramId cmd svc state Hcmd Hstate.
    destruct (run_timestamp now telegramId cmd svc state Hcmd Hstate)
      as (state' & -> & <-).
    done.
  - intros now timeoutMs w userId Hw timeout swept.
    pose proof (sweep_sessions now timeoutMs w Hw userId) as Hsessions.
    pose proof (sweep_featureStates now timeoutMs w Hw userId) as Hfeatures.
    cbn zeta in Hsessions, Hfeatures. fold timeout swept in Hsessions, Hfeatures.
    destruct (JsMap.get userId (userModes w)) as [session |] eqn:Hget.
    + destruct Hsessions as [Hexp Hkeep]. split.
      * intros Hidle. split_and!; [| by apply Hexp |].
        -- unfold swept, cleanupInactiveSessions.
           apply (sweep_fold_expired now timeout (userModes w) w userId session);
             [done | | by apply JsMap_elem_get | done].
           intros k s Hin. by apply JsMap_get_elem.
        -- intros m Hmode. by apply (Hfeatures m).
      * intros Hfresh. split; [by apply Hkeep |].
        intros m. by apply (Hfeatures m).
    + split; [done | exact Hfeatures].
Qed.

End Sweeps.

(** ** Further examples *)

Section FurtherExamples.
Local Existing Instance integerPrinter.
Local Existing Instance jakartaHost.

Lemma measurement_ignores_the_clock_witness :
  let state :=
    LocationService.mkUserMeasurementState true None None 0
      (Some LocationService.car) in
  let store : LocationService.Store := <["42" := state]> ∅ in
  store !! "42" = Some state ∧
  (LocationService.processLocationForMeasurement
     (LocationService.AxiosResponse (Some "Surabaya")) 1 "42" 0 0 store).2
  = (LocationService.processLocationForMeasurement
       (LocationService.AxiosResponse (Some "Surabaya")) 86400000 "42" 0 0
       (<["42" := LocationService.mkUserMeasurementState true None None 7
                    (Some LocationService.car)]> store)).2.
Proof.
  intros state store.
  assert (store !! "42" = Some state) as Hstate by apply lookup_insert_eq.
  split; [exact Hstate|].
  exact (proj1 (measurement_ignores_the_clock
                  (LocationService.AxiosResponse (Some "Surabaya"))
                  1 86400000 7 "42" 0 0 store state Hstate)).
Defined.

Lemma measurements_are_per_user_witness :
  "7" ≠ "42" ∧
  LocationService.run 5 "42" (LocationService.StartMeasurement None) ∅ !! "7"
  = (∅ : LocationService.Store) !! "7".
Proof.
  assert ("7" ≠ "42") as Hne by discriminate.
  split; [exact Hne|].
  exact (measurements_are_per_user 5 "42" "7"
           (LocationService.StartMeasurement None) ∅ Hne).
Defined.

Lemma photo_waits_for_one_location_witness :
  let state := GeotagsService.mkUserGeotagsState None None None None 0 in
  let svc := GeotagsService.mkService (<["42" := state]> ∅) [] in
  let out1 := GeotagsService.handlePhoto 1 "42" "AgACAgUAAx" svc in
  let out2 := GeotagsService.handleLocation 2 "42" 0 0 out1.1 in
  GeotagsService.userStates svc !! "42" = Some state ∧
  "AgACAgUAAx" ≠ "" ∧
  GeotagsService.processedPhotos out2.1
  = [GeotagsService.mkProcessedPhoto "42" "AgACAgUAAx" (0%R, 0%R) 2].
Proof.
  intros state svc out1 out2.
  assert (GeotagsService.userStates svc !! "42" = Some state) as Hstate
    by apply lookup_insert_eq.
  assert ("AgACAgUAAx" ≠ "") as Hphoto by discriminate.
  split; [exact Hstate|]. split; [exact Hphoto|].
  exact (proj1 (proj2 (proj2
           (photo_waits_for_one_location 1 2 3 "42" "AgACAgUAAx" 0 0 0 0 svc
              state Hstate eq_refl eq_refl Hphoto)))).
Defined.

Lemma activity_does_not_refresh_timestamp_witness :
  let state := GeotagsService.mkUserGeotagsState None None None None 0 in
  let svc := GeotagsService.mkService (<["42" := state]> ∅) [] in
  let cmds := [(500000, GeotagsService.HandlePhoto "AgACAgUAAx");
               (599000, GeotagsService.ToggleAlwaysTag)] in
  let svc' :=
    GeotagsService.runAll ((λ c, (c.1, "42", c.2)) <$> cmds) svc in
  GeotagsService.userStates svc !! "42" = Some state ∧
  (GeotagsService.timestamp <$> GeotagsService.userStates svc' !! "42") = Some 0 ∧
  GeotagsService.cleanupExpiredStates 600001
    (GeotagsService.userStates svc') !! "42" = None.
Proof.
  intros state svc cmds svc'.
  assert (GeotagsService.userStates svc !! "42" = Some state) as Hstate
    by apply lookup_insert_eq.
  assert (Forall (λ c : Z * GeotagsService.Command,
                    c.2 ≠ GeotagsService.HandleGeotagsCommand true) cmds)
    as Hcmds by (repeat constructor; discriminate).
  split; [exact Hstate|].
  destruct (activity_does_not_refresh_timestamp "42" svc state cmds Hstate Hcmds)
    as [Htime Hsweep].
  split; [exact Htime|].
  apply Hsweep. unfold GeotagsService.STATE_TIMEOUT. cbn. lia.
Defined.

Lemma geotags_states_are_per_user_witness :
  "7" ≠ "42" ∧
  GeotagsService.userStates
    (GeotagsService.run 5 "42" GeotagsService.ToggleAlwaysTag
       GeotagsService.emptyService).1 !! "7"
  = GeotagsService.userStates GeotagsService.emptyService !! "7".
Proof.
  assert ("7" ≠ "42") as Hne by discriminate.
  split; [exact Hne|].
  exact (geotags_states_are_per_user 5 "42" "7" GeotagsService.ToggleAlwaysTag
           GeotagsService.emptyService Hne).
Defined.

Lemma alwaystag_toggle_witness :
  let state := GeotagsService.mkUserGeotagsState None None None None 0 in
  let svc := GeotagsService.mkService (<["42" := state]> ∅) [] in
  let out1 := GeotagsService.toggleAlwaysTag 1 "42" svc in
  GeotagsService.userStates svc !! "42" = Some state ∧
  GeotagsService.toggleAlwaysTag 2 "42" out1.1 = out1.
Proof.
  intros state svc out1.
  assert (GeotagsService.userStates svc !! "42" = Some state) as Hstate
    by apply lookup_insert_eq.
  split; [exact Hstate|].
  destruct (alwaystag_toggle 1 2 3 "42" "AgACAgUAAx" svc state Hstate)
    as (_ & _ & _ & Hwaiting & _).
  exact (proj2 (Hwaiting eq_refl)).
Defined.

Lemma parseCustomDate_accepts_calendar_dates_witness :
  Z.abs JsDate.LocalTZA ≤ JsDate.msPerDay ∧
  GeotagsService.parseCustomDate "2024-02-29 15:30" = Some 1709195400000.
Proof.
  assert (Z.abs JsDate.LocalTZA ≤ JsDate.msPerDay) as Htz by (vm_compute; discriminate).
  split; [exact Htz|].
  apply (proj2 (parseCustomDate_accepts_calendar_dates
                  "2024-02-29 15:30" 1709195400000 Htz)).
  exists 2024, 2, 29, 15, 30.
  split; [reflexivity|]. split; [lia|].
  split; [vm_compute; intuition discriminate|]. reflexivity.
Defined.

Lemma custom_time_stamps_photos_witness :
  let state :=
    GeotagsService.mkUserGeotagsState None (Some (0%R, 0%R)) None (Some 5) 0 in
  let svc := GeotagsService.mkService (<["42" := state]> ∅) [] in
  let set := GeotagsService.setCustomTime 1 "42" (Some "Reset") svc in
  GeotagsService.userStates svc !! "42" = Some state ∧
  GeotagsService.processedPhotos
    (GeotagsService.handlePhoto 2 "42" "AgACAgUAAx" set.1).1
  = [GeotagsService.mkProcessedPhoto "42" "AgACAgUAAx" (0%R, 0%R) 2].
Proof.
  intros state svc set.
  assert (GeotagsService.userStates svc !! "42" = Some state) as Hstate
    by apply lookup_insert_eq.
  split; [exact Hstate|].
  exact (proj2 (proj2
           (custom_time_stamps_photos 1 2 "42" "AgACAgUAAx" "Reset" svc state
              (0%R, 0%R) Hstate eq_refl eq_refl)) eq_refl).
Defined.

Lemma kml_data_is_per_user_witness :
  "7" ≠ "42" ∧
  KmlService.userKmlData
    (KmlService.run 5 "42" KmlService.ClearData KmlService.emptyService).1 !! "7"
  = KmlService.userKmlData KmlService.emptyService !! "7".
Proof.
  assert ("7" ≠ "42") as Hne by discriminate.
  split; [exact Hne|].
  exact (proj1 (kml_data_is_per_user 5 "42" "7" KmlService.ClearData
                  KmlService.emptyService Hne)).
Defined.

Lemma saved_data_is_kept_witness :
  let point := KmlService.mkNamedPoint 0 0 "Rumah" 1 in
  let data := KmlService.mkUserKmlData [point] [] None None in
  let svc := KmlService.mkService (<["42" := data]> ∅) ∅ in
  KmlService.userKmlData svc !! "42" = Some data ∧
  ∃ data',
    KmlService.userKmlData
      (KmlService.run 5 "42" (KmlService.StartLine None) svc).1 !! "42"
    = Some data' ∧
    (KmlService.placemarks data' = [point] ∨
     ∃ added, KmlService.placemarks data' = [point] ++ [added]).
Proof.
  intros point data svc.
  assert (KmlService.userKmlData svc !! "42" = Some data) as Hdata
    by apply lookup_insert_eq.
  split; [exact Hdata|].
  destruct (saved_data_is_kept 5 "42" (KmlService.StartLine None) svc data Hdata)
    as (data' & Hdata' & Hpoints & _).
  exists data'. split; [exact Hdata'|exact Hpoints].
Defined.

Lemma next_point_name_is_used_once_witness :
  let svc := KmlService.mkService (<["42" := KmlService.defaultData]> ∅) ∅ in
  let named := (KmlService.setNextPointName "42" "Rumah" svc).1 in
  let out1 := KmlService.handleLocation 1 "42" 0 0 named in
  KmlService.userKmlData svc !! "42" = Some KmlService.defaultData ∧
  "Rumah" ≠ "" ∧
  (KmlService.placemarks <$> KmlService.userKmlData out1.1 !! "42")
    = Some [KmlService.mkNamedPoint 0 0 "Rumah" 1] ∧
  KmlService.nextPointNames out1.1 !! "42" = None.
Proof.
  intros svc named out1.
  assert (KmlService.userKmlData svc !! "42" = Some KmlService.defaultData)
    as Hdata by apply lookup_insert_eq.
  assert ("Rumah" ≠ "") as Hname by discriminate.
  split; [exact Hdata|]. split; [exact Hname|].
  destruct (proj1 (next_point_name_is_used_once 1 2 "42" "Rumah" 0 0 0 0 svc
                     KmlService.defaultData Hdata Hname) eq_refl)
    as (Hpoints & Hnext & _).
  split; [exact Hpoints|exact Hnext].
Defined.

Lemma line_collects_its_points_witness :
  let svc := KmlService.mkService (<["42" := KmlService.defaultData]> ∅) ∅ in
  let started := (KmlService.startLine "42" (Some "Jalan") svc).1 in
  let drawn :=
    (KmlService.handleLocation 2 "42" 1 1
       (KmlService.handleLocation 1 "42" 0 0 started).1).1 in
  KmlService.userKmlData svc !! "42" = Some KmlService.defaultData ∧
  "Jalan" ≠ "" ∧
  KmlService.userKmlData (KmlService.endLine 9 "42" drawn).1 !! "42"
  = Some (KmlService.mkUserKmlData []
            [KmlService.mkLineTrack "Jalan"
               [KmlService.mkGeoPoint 0 0; KmlService.mkGeoPoint 1 1] 9]
            None None).
Proof.
  intros svc started drawn.
  assert (KmlService.userKmlData svc !! "42" = Some KmlService.defaultData)
    as Hdata by apply lookup_insert_eq.
  assert ("Jalan" ≠ "") as Hname by discriminate.
  split; [exact Hdata|]. split; [exact Hname|].
  apply (proj1 (line_collects_its_points 9 "42" "Jalan"
                  [(1, Finite 0, Finite 0); (2, Finite 1, Finite 1)] svc KmlService.defaultData
                  Hdata eq_refl Hname)).
  cbn. lia.
Defined.

Lemma createKml_exports_something_witness :
  let svc := KmlService.mkService (<["42" := KmlService.defaultData]> ∅) ∅ in
  KmlService.linesValid svc ∧
  KmlService.userKmlData svc !! "42" = Some KmlService.defaultData ∧
  KmlService.success (KmlService.createKml "42" None svc).2 = false.
Proof.
  intros svc.
  assert (KmlService.linesValid svc) as Hinv.
  { intros telegramId data Hget. cbn in Hget.
    destruct (decide (telegramId = "42")) as [->|Hne].
    - rewrite lookup_insert_eq in Hget. injection Hget as <-. constructor.
    - rewrite lookup_insert_ne in Hget by done. by rewrite lookup_empty in Hget. }
  assert (KmlService.userKmlData svc !! "42" = Some KmlService.defaultData)
    as Hdata by apply lookup_insert_eq.
  split; [exact Hinv|]. split; [exact Hdata|].
  apply (proj1 (createKml_exports_something "42" None svc KmlService.defaultData
                  Hinv Hdata)).
  split; [reflexivity|]. split; [reflexivity|]. intros line [=].
Defined.

Lemma mode_sessions_are_per_user_witness :
  let w := ModeManager.setUserMode 0 9 (Some ModeManager.KML)
             ModeManager.emptyWorld in
  ¬ ModeManager.concerns (ModeManager.TransitionToMode 7 None 1) 9 ∧
  JsMap.get 9
    (ModeManager.userModes
       (ModeManager.runOp 5 (λ _ _, true)
          (ModeManager.TransitionToMode 7 None 1) w))
  = JsMap.get 9 (ModeManager.userModes w).
Proof.
  intros w.
  assert (¬ ModeManager.concerns (ModeManager.TransitionToMode 7 None 1) 9)
    as Hother by (cbn; discriminate).
  split; [exact Hother|].
  exact (proj1 (mode_sessions_are_per_user 5 (λ _ _, true)
                  (ModeManager.TransitionToMode 7 None 1) 9 w Hother)).
Defined.

Lemma activity_protects_from_sweep_witness :
  let w := ModeManager.setUserMode 0 7 (Some ModeManager.KML)
             ModeManager.emptyWorld in
  let session :=
    ModeManager.mkUserModeState 7 (Some ModeManager.KML) None 0 0 in
  let swept :=
    ModeManager.cleanupInactiveSessions 3000000 None
      (ModeManager.updateLastActivity 1500000 7 w) in
  ModeManager.oneEntryPerUser w ∧
  JsMap.get 7 (ModeManager.userModes w) = Some session ∧
  ¬ 3000000 - 1500000 > default ModeManager.defaultTimeoutMs None ∧
  ModeManager.getUserMode 7 swept = Some ModeManager.KML.
Proof.
  intros w session swept.
  assert (ModeManager.oneEntryPerUser w) as Hnodup
    by apply setUserMode_oneEntryPerUser, emptyWorld_oneEntryPerUser.
  assert (JsMap.get 7 (ModeManager.userModes w) = Some session) as Hsession
    by reflexivity.
  assert (¬ 3000000 - 1500000 > default ModeManager.defaultTimeoutMs None)
    as Hfresh by (unfold ModeManager.defaultTimeoutMs; cbn; lia).
  split; [exact Hnodup|]. split; [exact Hsession|]. split; [exact Hfresh|].
  exact (proj1 (proj2 (activity_protects_from_sweep 1500000 3000000 None 7 w
                         session Hnodup Hsession Hfresh))).
Defined.

Lemma sweep_is_idempotent_witness :
  let w := ModeManager.setUserMode 0 7 (Some ModeManager.KML)
             ModeManager.emptyWorld in
  ModeManager.oneEntryPerUser w ∧
  0 ≤ default ModeManager.defaultTimeoutMs None ∧
  ModeManager.cleanupInactiveSessions 3000000 None
    (ModeManager.cleanupInactiveSessions 3000000 None w)
  = ModeManager.cleanupInactiveSessions 3000000 None w.
Proof.
  intros w.
  assert (ModeManager.oneEntryPerUser w) as Hnodup
    by apply setUserMode_oneEntryPerUser, emptyWorld_oneEntryPerUser.
  assert (0 ≤ default ModeManager.defaultTimeoutMs None) as Htimeout
    by (unfold ModeManager.defaultTimeoutMs; cbn; lia).
  split; [exact Hnodup|]. split; [exact Htimeout|].
  exact (sweep_is_idempotent 3000000 None w Hnodup Htimeout).
Defined.

(** C7 as stated fails on both maps.  A session of the mode manager idle
    for a day is still in the map after the sweep (with no mode), and a
    state of the geotags mode that took a photo a millisecond before the
    sweep is removed, because it was created more than ten minutes
    before. *)
Lemma sweep_keeps_idle_session_and_drops_used_state :
  (let w := ModeManager.setUserMode 0 7 (Some ModeManager.KML)
              ModeManager.emptyWorld in
   let swept := ModeManager.cleanupInactiveSessions 86400000 None w in
   86400000 - 0 > ModeManager.defaultTimeoutMs ∧
   JsMap.get 7 (ModeManager.userModes swept)
   = Some (ModeManager.mkUserModeState 7 None (Some ModeManager.KML)
             86400000 86400000)) ∧
  (let svc :=
     GeotagsService.runAll
       [(0, "42", GeotagsService.HandleGeotagsCommand true);
        (600000, "42", GeotagsService.HandlePhoto "AgACAgUAAx")]
       GeotagsService.emptyService in
   600001 - 600000 ≤ GeotagsService.STATE_TIMEOUT ∧
   (GeotagsService.pendingPhotoFileId <$>
      GeotagsService.userStates svc !! "42") = Some (Some "AgACAgUAAx") ∧
   GeotagsService.cleanupExpiredStates 600001
     (GeotagsService.userStates svc) !! "42" = None).
Proof.
  split.
  - by vm_compute.
  - cbn zeta. split; [by vm_compute |].
    assert (GeotagsService.userStates
              (GeotagsService.runAll
                 [(0, "42", GeotagsService.HandleGeotagsCommand true);
                  (600000, "42", GeotagsService.HandlePhoto "AgACAgUAAx")]
                 GeotagsService.emptyService)
            = <["42" := GeotagsService.mkUserGeotagsState (Some "AgACAgUAAx")
                          None None None 0]> ∅) as ->.
    { unfold GeotagsService.runAll. cbn [fold_left fst snd GeotagsService.run].
      unfold GeotagsService.handleGeotagsCommand, GeotagsService.initUserState.
      cbn [fst GeotagsService.userStates GeotagsService.emptyService].
      unfold GeotagsService.handlePhoto, GeotagsService.stateOf,
        GeotagsService.getUserState.
      cbn [GeotagsService.userStates]. rewrite lookup_insert_eq.
      cbn [GeotagsService.alwaysTagLocation GeotagsService.putUserState fst
           GeotagsService.userStates GeotagsService.isWaitingForStickyLocation
           GeotagsService.customDateTime GeotagsService.timestamp].
      by rewrite insert_insert_eq. }
    rewrite lookup_insert_eq. split; [done |].
    unfold GeotagsService.cleanupExpiredStates.
    apply map_lookup_filter_None. right. intros state Hstate.
    rewrite lookup_insert_eq in Hstate. injection Hstate as <-.
    by vm_compute.
Qed.

(** Two photo sessions, one older than ten minutes; two mode sessions, one
    idle for more than thirty minutes, with the state of its feature. *)
Lemma sweep_removes_exactly_expired_witness :
  let old := GeotagsService.mkUserGeotagsState None None None None 0 in
  let fresh := GeotagsService.mkUserGeotagsState None None None None 900000 in
  let userStates : GeotagsService.Store := <[ "a" := old ]> (<[ "b" := fresh ]> ∅) in
  let swept := GeotagsService.cleanupExpiredStates 1000000 userStates in
  let w :=
    ModeManager.setUserMode 1500000 8 (Some ModeManager.OCR)
      (ModeManager.initializeUserState ModeManager.KML 0 7
         (ModeManager.setUserMode 0 7 (Some ModeManager.KML)
            ModeManager.emptyWorld)) in
  let w' := ModeManager.cleanupInactiveSessions 2000000 None w in
  swept !! "a" = None ∧ swept !! "b" = Some fresh ∧ swept !! "c" = None ∧
  ModeManager.featureStates w ModeManager.KML !! 7
    = Some (ModeManager.mkFeatureState 7 ModeManager.KML 0) ∧
  JsMap.get 7 (ModeManager.userModes w')
    = Some (ModeManager.mkUserModeState 7 None (Some ModeManager.KML)
              2000000 2000000) ∧
  ModeManager.getUserMode 7 w' = None ∧
  ModeManager.featureStates w' ModeManager.KML !! 7 = None ∧
  JsMap.get 8 (ModeManager.userModes w')
    = Some (ModeManager.mkUserModeState 8 (Some ModeManager.OCR) None
              1500000 1500000).
Proof.
  intros old fresh userStates swept w w'.
  destruct sweep_removes_exactly_expired as (Hstore & _ & Hmodes).
  pose proof (Hstore 1000000 userStates "a") as Ha.
  pose proof (Hstore 1000000 userStates "b") as Hb.
  pose proof (Hstore 1000000 userStates "c") as Hc.
  cbn zeta in Ha, Hb, Hc. unfold userStates in Ha, Hb, Hc at 1.
  rewrite lookup_insert_eq in Ha.
  rewrite lookup_insert_ne, lookup_insert_eq in Hb by done.
  rewrite !lookup_insert_ne, lookup_empty in Hc by done.
  assert (Hw : ModeManager.oneEntryPerUser w).
  { unfold w. apply setUserMode_oneEntryPerUser.
    apply (setUserMode_oneEntryPerUser 0 7 (Some ModeManager.KML)).
    apply emptyWorld_oneEntryPerUser. }
  pose proof (Hmodes 2000000 None w 7 Hw) as H7.
  pose proof (Hmodes 2000000 None w 8 Hw) as H8.
  cbn zeta in H7, H8. fold w' in H7, H8.
  assert (Hget7 : JsMap.get 7 (ModeManager.userModes w)
            = Some (ModeManager.mkUserModeState 7 (Some ModeManager.KML) None
                      0 0)) by (by vm_compute).
  assert (Hget8 : JsMap.get 8 (ModeManager.userModes w)
            = Some (ModeManager.mkUserModeState 8 (Some ModeManager.OCR) None
                      1500000 1500000)) by (by vm_compute).
  rewrite Hget7 in H7. rewrite Hget8 in H8.
  destruct H7 as [(Hsession7 & Hmode7 & Hfeature7) _]; [by vm_compute |].
  destruct H8 as [_ [Hsession8 _]]; [by vm_compute |].
  split_and!.
  - apply Ha. by vm_compute.
  - apply Hb. by vm_compute.
  - exact Hc.
  - by vm_compute.
  - exact Hsession7.
  - exact Hmode7.
  - by apply Hfeature7.
  - exact Hsession8.
Defined.

End FurtherExamples.
